(** * tradinghours: the disk-resident store, its registries and the catalog

    A shallow embedding of [tradinghours/store.py] and
    [tradinghours/catalog.py].  Python objects live in a heap addressed by
    references, one heap per class; the file system is a finite map from
    paths to nodes; every method is a computation in a state-and-exception
    monad in which the state reached at the moment an exception is raised
    is kept (side effects are never rolled back). *)

From Stdlib Require Import String Ascii.
From stdpp Require Import base option list gmap strings.

Local Open Scope string_scope.
Local Open Scope list_scope.

(** ** Python values used by the code *)

(** Exceptions raised by the code and by the file-system calls it makes. *)
Inductive Exn :=
| ValueError (msg : string)
| TypeError (msg : string)
| AttributeError (msg : string)
| ReferenceError (msg : string)
| FileNotFoundError (path : list string)
| FileExistsError (path : list string)
| IsADirectoryError (path : list string)
| NotADirectoryError (path : list string)
| SourceError (msg : string).

Inductive Res (A : Type) :=
| Ok (a : A)
| Raise (e : Exn).
Arguments Ok {A} a.
Arguments Raise {A} e.

(** *** str *)

(** [str.replace(old, new)] for one-character [old] and [new], the only
    form the code uses ("-" and "_" are single ASCII characters, so the
    replacement acts on every occurrence independently). *)
Fixpoint str_replace (old new : ascii) (s : string) : string :=
  match s with
  | EmptyString => EmptyString
  | String c rest =>
      String (if Ascii.eqb c old then new else c) (str_replace old new rest)
  end.

(** [a <= b] on [str]: lexicographic comparison of the code points. *)
Definition str_le (a b : string) : bool := String.leb a b.

Definition hyphen : ascii := "-"%char.
Definition underscore : ascii := "_"%char.

(** *** dict *)

(** A Python [dict]: insertion-ordered, one entry per key.  Assigning to a
    key that is present replaces the value and keeps the position of the
    entry; a new key goes to the end. *)
Abbreviation dict K V := (list (K * V)) (only parsing).

Section Dict.
Context {K V : Type} `{EqDecision K}.

Fixpoint dict_get (k : K) (d : dict K V) : option V :=
  match d with
  | [] => None
  | (k', v) :: d' => if decide (k' = k) then Some v else dict_get k d'
  end.

Fixpoint dict_set (k : K) (v : V) (d : dict K V) : dict K V :=
  match d with
  | [] => [(k, v)]
  | (k', v') :: d' =>
      if decide (k' = k) then (k, v) :: d' else (k', v') :: dict_set k v d'
  end.

Definition dict_keys (d : dict K V) : list K := d.*1.
Definition dict_values (d : dict K V) : list V := d.*2.
End Dict.

(** *** pathlib.Path *)

(** A path is the list of its [parts]; an absolute path starts with the
    part ["/"]. *)
Definition Path := list string.

Definition slash : ascii := "/"%char.

(** Splits at every "/" (the last, still open, part is [acc] reversed). *)
Fixpoint split_slash (acc : string) (s : string) : list string :=
  match s with
  | EmptyString => [acc]
  | String c rest =>
      if Ascii.eqb c slash then acc :: split_slash EmptyString rest
      else split_slash (acc +:+ String c EmptyString) rest
  end.

Definition is_absolute (s : string) : bool :=
  match s with
  | String c _ => Ascii.eqb c slash
  | EmptyString => false
  end.

(** [Path(s)]: empty parts and "." parts are dropped. *)
Definition Path_of_str (s : string) : Path :=
  (if is_absolute s then ["/"] else []) ++
  filter (λ part, part ≠ "" ∧ part ≠ ".") (split_slash EmptyString s).

(** [p / s]: an absolute right operand replaces the left one. *)
Definition joinpath (p : Path) (s : string) : Path :=
  if is_absolute s then Path_of_str s else p ++ Path_of_str s.

Definition parent (p : Path) : Path := removelast p.

(** ** External collaborators

    The model classes ([tradinghours.currency], [.market], [.schedule]),
    the CSV reader and [tradinghours.util.slugify] are used by the code
    below but defined elsewhere; they are taken as an interface. *)

Inductive Model :=
| Currency
| CurrencyHoliday
| Market
| MarketHoliday
| Schedule
| UserModel (qualname : string).

#[global] Instance Model_eq_dec : EqDecision Model.
Proof. solve_decision. Defined.

Class Collaborators := {
  (** instances of the model classes *)
  Item : Type;
  (** what one persisted line holds for a record, once decoded from JSON *)
  Data : Type;
  (** [item.to_dict()], as [json.dump(..., cls=StrEncoder)] writes it *)
  to_dict : Item → Data;
  (** [model.from_tuple(data)]; decoding may fail *)
  from_tuple : Model → Data → Res Item;
  (** [model.from_csv(path)]: the rows the generator yields, in order, and
      the exception that ends it when the source is missing or unreadable *)
  from_csv : Model → Path → list Item * option Exn;
  (** [util.slugify] *)
  slugify : string → string;
  (** attributes the resolvers read; dates and identifiers in the text form
      [StrEncoder] persists *)
  code : Item → string;
  currency_code : Item → string;
  date : Item → string;
  fin_id_country : Item → string;
  fin_id_str : Item → string;
}.

(** References into the heap. *)
Abbreviation ref := nat (only parsing).

Section Program.
Context `{Collaborators}.

(** ** The world: file system, heap and the class-level tables *)

(** One line of a cluster file: the JSON array [[key, data]]; the key is
    [None] when the line holds [null]. *)
Definition Line : Type := option string * Data.

Inductive Node :=
| Dir
| File (lines : list Line).

(** Objects live in a heap, one per class: a reference kept in an
    attribute denotes an object of the class the attribute is annotated
    with. *)
Inductive Cluster := ClusterObj (_location : Path).
Inductive ClusterRegistry :=
  ClusterRegistryObj (_resources : dict string ref) (_folder : Path).
Inductive Collection := CollectionObj (_folder : Path) (_clusters : ref).
Inductive CollectionRegistry :=
  CollectionRegistryObj (_resources : dict string ref) (_root : Path).
Inductive Store := StoreObj (_root : Path) (_collections : ref).
Inductive Catalog := CatalogObj (_store : ref).

Record Heap := mkHeap {
  clusters : list Cluster;
  cluster_registries : list ClusterRegistry;
  collections : list Collection;
  collection_registries : list CollectionRegistry;
  stores : list Store;
  catalogs : list Catalog;
}.

Definition set_clusters (f : list Cluster → list Cluster) (h : Heap) : Heap :=
  mkHeap (f (clusters h)) (cluster_registries h) (collections h)
    (collection_registries h) (stores h) (catalogs h).
Definition set_cluster_registries
    (f : list ClusterRegistry → list ClusterRegistry) (h : Heap) : Heap :=
  mkHeap (clusters h) (f (cluster_registries h)) (collections h)
    (collection_registries h) (stores h) (catalogs h).
Definition set_collections (f : list Collection → list Collection) (h : Heap)
  : Heap :=
  mkHeap (clusters h) (cluster_registries h) (f (collections h))
    (collection_registries h) (stores h) (catalogs h).
Definition set_collection_registries
    (f : list CollectionRegistry → list CollectionRegistry) (h : Heap) : Heap :=
  mkHeap (clusters h) (cluster_registries h) (collections h)
    (f (collection_registries h)) (stores h) (catalogs h).
Definition set_stores (f : list Store → list Store) (h : Heap) : Heap :=
  mkHeap (clusters h) (cluster_registries h) (collections h)
    (collection_registries h) (f (stores h)) (catalogs h).
Definition set_catalogs (f : list Catalog → list Catalog) (h : Heap) : Heap :=
  mkHeap (clusters h) (cluster_registries h) (collections h)
    (collection_registries h) (stores h) (f (catalogs h)).

Definition empty_heap : Heap := mkHeap [] [] [] [] [] [].

Inductive PyModule := store_py | catalog_py.

(** What [pre_ingest] does: the default [pass], or the override of
    [ScheduleFile], [store.clear_collection(self.name)]. *)
Inductive PreIngest := PreIngestPass | PreIngestClear.

(** A class derived from [DeclaredFile], with its attributes as attribute
    lookup on the class finds them. *)
Record DeclaredClass := {
  (** the module whose [DeclaredFile] the class derives from *)
  cls_module : PyModule;
  cls_qualname : string;
  cls_name : option string;
  cls_model : option Model;
  cls_pre_ingest : PreIngest;
  cls_resolve_cluster : Item → option string;
  cls_resolve_key : Item → option string;
}.

Record World := mkWorld {
  fs : gmap Path Node;
  heap : Heap;
  (** [store.DeclaredFile.known_files] *)
  store_known_files : dict string DeclaredClass;
  (** [catalog.DeclaredFile.known_files] *)
  catalog_known_files : dict string DeclaredClass;
}.

Definition set_fs (f : gmap Path Node → gmap Path Node) (w : World) : World :=
  mkWorld (f (fs w)) (heap w) (store_known_files w) (catalog_known_files w).
Definition set_heap (f : Heap → Heap) (w : World) : World :=
  mkWorld (fs w) (f (heap w)) (store_known_files w) (catalog_known_files w).

(** ** Computations *)

Definition M (A : Type) : Type := World → Res A * World.

#[global] Instance M_ret : MRet M := λ A a w, (Ok a, w).
#[global] Instance M_bind : MBind M := λ A B f m w,
  match m w with
  | (Ok a, w') => f a w'
  | (Raise e, w') => (Raise e, w')
  end.

Definition raise {A} (e : Exn) : M A := λ w, (Raise e, w).

(** [for x in xs: body(x)] *)
Fixpoint for_each {A} (xs : list A) (body : A → M unit) : M unit :=
  match xs with
  | [] => mret tt
  | x :: rest => _ ← body x; for_each rest body
  end.

(** ** File-system calls *)

(** The current directory and the root always exist. *)
Definition always_there (p : Path) : bool :=
  bool_decide (p = [] ∨ p = ["/"]).

Definition node_at (w : World) (p : Path) : option Node :=
  if always_there p then Some Dir else fs w !! p.

(** Creating an entry needs its parent directory. *)
Definition create_node (p : Path) (n : Node) : M unit := λ w,
  match node_at w (parent p) with
  | Some Dir => (Ok tt, set_fs <[p := n]> w)
  | Some (File _) => (Raise (NotADirectoryError p), w)
  | None => (Raise (FileNotFoundError p), w)
  end.

(** [p.mkdir(exist_ok=True)] *)
Definition Path_mkdir (p : Path) : M unit := λ w,
  match node_at w p with
  | Some Dir => (Ok tt, w)
  | Some (File _) => (Raise (FileExistsError p), w)
  | None => create_node p Dir w
  end.

(** [p.touch(exist_ok=True)]: an existing entry keeps its content. *)
Definition Path_touch (p : Path) : M unit := λ w,
  match node_at w p with
  | Some _ => (Ok tt, w)
  | None => create_node p (File []) w
  end.

(** [p.unlink(missing_ok=True)]: only the "no such file" error is
    swallowed. *)
Definition Path_unlink (p : Path) : M unit := λ w,
  match node_at w p with
  | Some (File _) => (Ok tt, set_fs (delete p) w)
  | Some Dir => (Raise (IsADirectoryError p), w)
  | None =>
      match node_at w (parent p) with
      | Some (File _) => (Raise (NotADirectoryError p), w)
      | _ => (Ok tt, w)
      end
  end.

(** [with open(p, "a") as file: json.dump(record, file); file.write("\n")]:
    the record becomes the last line; the file is created when absent. *)
Definition append_line (p : Path) (l : Line) : M unit := λ w,
  match node_at w p with
  | Some (File ls) => (Ok tt, set_fs <[p := File (ls ++ [l])]> w)
  | Some Dir => (Raise (IsADirectoryError p), w)
  | None => create_node p (File [l]) w
  end.

(** Reading a file line by line. *)
Definition read_lines (p : Path) : M (list Line) := λ w,
  match node_at w p with
  | Some (File ls) => (Ok ls, w)
  | Some Dir => (Raise (IsADirectoryError p), w)
  | None => (Raise (FileNotFoundError p), w)
  end.

(** ** Heap access *)

Section HeapAccess.
Context {A : Type}.
Variable get : Heap → list A.
Variable set : (list A → list A) → Heap → Heap.

(** Calling a constructor: the new object gets the next reference of its
    class. *)
Definition alloc (o : A) : M ref := λ w,
  (Ok (length (get (heap w))), set_heap (set (λ objs, objs ++ [o])) w).

(** Reading the object behind a reference. *)
Definition deref (self : ref) : M A := λ w,
  match get (heap w) !! self with
  | Some o => (Ok o, w)
  | None => (Raise (ReferenceError "no such object"), w)
  end.

(** Assigning to attributes of the object behind a reference. *)
Definition assign (self : ref) (f : A → A) : M unit := λ w,
  match get (heap w) !! self with
  | Some o => (Ok tt, set_heap (set <[self := f o]>) w)
  | None => (Raise (ReferenceError "no such object"), w)
  end.
End HeapAccess.

Definition no_attribute {A} (attr : string) : M A :=
  raise (AttributeError attr).

(** ** store.py *)

(** *** SourceFile *)

(** Arguments as a caller may pass them. *)
Inductive PyValue :=
| PyNone
| PyStr (s : string)
| PyPath (p : Path)
| PyModelClass (m : Model)   (* a subclass of [BaseObject] *)
| PyOtherClass               (* a class that is not one *)
| PyOther.                   (* anything else *)

Record SourceFile := {
  _name : string;
  _root : Path;
  _model : Model;
}.

Definition SourceFile_init (root name model : PyValue) : Res SourceFile :=
  match name with
  | PyNone => Raise (ValueError "name is missing")
  | PyStr n =>
      match
        match root with
        | PyNone => Raise (ValueError "root is missing")
        | PyStr r => Ok (Path_of_str r)
        | PyPath r => Ok r
        | _ => Raise (TypeError "root must be str or Path")
        end
      with
      | Raise e => Raise e
      | Ok r =>
          match model with
          | PyNone => Raise (ValueError "model is missing")
          | PyModelClass m => Ok {| _name := n; _root := r; _model := m |}
          | PyOtherClass => Raise (TypeError "model must be a BaseObject")
          | _ => Raise (TypeError "issubclass() arg 1 must be a class")
          end
      end
  | _ => Raise (TypeError "name must be str")
  end.

Definition SourceFile_name (self : SourceFile) : string :=
  str_replace hyphen underscore (_name self).

Definition SourceFile_root (self : SourceFile) : Path := _root self.

Definition SourceFile_model (self : SourceFile) : Model := _model self.

Definition SourceFile_filename (self : SourceFile) : string :=
  str_replace underscore hyphen (_name self) +:+ ".csv".

Definition SourceFile_path (self : SourceFile) : Path :=
  joinpath (_root self) (SourceFile_filename self).

(** A generator: what it yields and the exception that ends it, if any. *)
Definition Generator (A : Type) : Type := list A * option Exn.

Definition SourceFile_load (self : SourceFile) : Generator Item :=
  from_csv (SourceFile_model self) (SourceFile_path self).

(** [for x in gen: body(x)]: the body runs on every item yielded before the
    generator raises. *)
Definition for_gen {A} (gen : Generator A) (body : A → M unit) : M unit :=
  _ ← for_each gen.1 body;
  match gen.2 with
  | Some e => raise e
  | None => mret tt
  end.

(** *** Registry *)

(** The two subclasses of [Registry]. *)
Inductive RegistryClass := ClusterRegistryClass | CollectionRegistryClass.

(** [self._resources] *)
Definition Registry_resources (cls : RegistryClass) (self : ref)
  : M (dict string ref) :=
  match cls with
  | ClusterRegistryClass =>
      '(ClusterRegistryObj d _) ← deref cluster_registries self; mret d
  | CollectionRegistryClass =>
      '(CollectionRegistryObj d _) ← deref collection_registries self; mret d
  end.

(** [self._resources[slug] = resource] *)
Definition Registry_setitem (cls : RegistryClass) (self : ref) (slug : string)
    (resource : ref) : M unit :=
  match cls with
  | ClusterRegistryClass =>
      assign cluster_registries set_cluster_registries self
        (λ '(ClusterRegistryObj d folder),
           ClusterRegistryObj (dict_set slug resource d) folder)
  | CollectionRegistryClass =>
      assign collection_registries set_collection_registries self
        (λ '(CollectionRegistryObj d root),
           CollectionRegistryObj (dict_set slug resource d) root)
  end.

(** [Registry.get], over the [create] of the subclass. *)
Definition Registry_get (cls : RegistryClass) (create : ref → string → M ref)
    (self : ref) (name : string) : M ref :=
  let slug := slugify name in
  resources ← Registry_resources cls self;
  match dict_get slug resources with
  | Some resource => mret resource
  | None =>
      resource ← create self slug;
      _ ← Registry_setitem cls self slug resource;
      mret resource
  end.

(** [Registry.__iter__] *)
Definition Registry_iter (cls : RegistryClass) (self : ref) : M (list ref) :=
  resources ← Registry_resources cls self;
  mret (dict_values resources).

(** *** Cluster *)

Definition Cluster_new (location : Path) : M ref :=
  alloc clusters set_clusters (ClusterObj location).

Definition Cluster_location (self : ref) : M Path :=
  '(ClusterObj location) ← deref clusters self; mret location.

Definition Cluster_touch (self : ref) : M unit :=
  location ← Cluster_location self;
  Path_touch location.

Definition Cluster_delete (self : ref) : M unit :=
  location ← Cluster_location self;
  Path_unlink location.

Definition Cluster_append (self : ref) (key : option string) (tuple : Data)
  : M unit :=
  let record := (key, tuple) in
  location ← Cluster_location self;
  append_line location record.

(** *** ClusterRegistry *)

Definition ClusterRegistry_new (folder : Path) : M ref :=
  alloc cluster_registries set_cluster_registries (ClusterRegistryObj [] folder).

Definition ClusterRegistry_folder (self : ref) : M Path :=
  '(ClusterRegistryObj _ folder) ← deref cluster_registries self; mret folder.

Definition ClusterRegistry_create (self : ref) (slug : string) : M ref :=
  folder ← ClusterRegistry_folder self;
  let location := joinpath folder (slug +:+ ".dat") in
  cluster ← Cluster_new location;
  _ ← Cluster_touch cluster;
  mret cluster.

Definition ClusterRegistry_get : ref → string → M ref :=
  Registry_get ClusterRegistryClass ClusterRegistry_create.

(** *** Collection *)

Definition Collection_new (folder : Path) : M ref :=
  clusters ← ClusterRegistry_new folder;
  alloc collections set_collections (CollectionObj folder clusters).

Definition Collection_folder (self : ref) : M Path :=
  '(CollectionObj folder _) ← deref collections self; mret folder.

Definition Collection_clusters (self : ref) : M ref :=
  '(CollectionObj _ clusters) ← deref collections self; mret clusters.

(** [self._clusters = clusters] *)
Definition Collection_set_clusters (self : ref) (clusters : ref) : M unit :=
  assign collections set_collections self
    (λ '(CollectionObj folder _), CollectionObj folder clusters).

Definition Collection_touch (self : ref) : M unit :=
  folder ← Collection_folder self;
  Path_mkdir folder.

Definition Collection_clear (self : ref) : M unit :=
  clusters ← Collection_clusters self;
  currents ← Registry_iter ClusterRegistryClass clusters;
  _ ← for_each currents Cluster_delete;
  folder ← Collection_folder self;
  fresh ← ClusterRegistry_new folder;
  Collection_set_clusters self fresh.

(** *** CollectionRegistry *)

Definition CollectionRegistry_new (root : Path) : M ref :=
  alloc collection_registries set_collection_registries
    (CollectionRegistryObj [] root).

Definition CollectionRegistry_root (self : ref) : M Path :=
  '(CollectionRegistryObj _ root) ← deref collection_registries self; mret root.

Definition CollectionRegistry_create (self : ref) (slug : string) : M ref :=
  root ← CollectionRegistry_root self;
  let folder := joinpath root slug in
  collection ← Collection_new folder;
  _ ← Collection_touch collection;
  mret collection.

Definition CollectionRegistry_get : ref → string → M ref :=
  Registry_get CollectionRegistryClass CollectionRegistry_create.

(** *** Store *)

Definition Store_new (root : Path) : M ref :=
  collections ← CollectionRegistry_new root;
  alloc stores set_stores (StoreObj root collections).

Definition Store_root (self : ref) : M Path :=
  '(StoreObj root _) ← deref stores self; mret root.

Definition Store_collections (self : ref) : M ref :=
  '(StoreObj _ collections) ← deref stores self; mret collections.

Definition Store_touch (self : ref) : M unit :=
  root ← Store_root self;
  Path_mkdir root.

Definition Store_clear_collection (self : ref) (name : string) : M unit :=
  collections ← Store_collections self;
  collection_obj ← CollectionRegistry_get collections name;
  Collection_clear collection_obj.

Definition Store_store_item (self : ref) (item : Item) (collection : string)
    (cluster : option string) (key : option string) : M unit :=
  collections ← Store_collections self;
  collection_obj ← CollectionRegistry_get collections collection;
  let cluster := match cluster with None => "unique" | Some c => c end in
  clusters ← Collection_clusters collection_obj;
  cluster_obj ← ClusterRegistry_get clusters cluster;
  Cluster_append cluster_obj key (to_dict item).

(** *** DeclaredFile

    [store.py] and [catalog.py] each define a class [DeclaredFile] with a
    class attribute [known_files] and the same five subclasses. *)

Definition known_files (m : PyModule) (w : World) : dict string DeclaredClass :=
  match m with
  | store_py => store_known_files w
  | catalog_py => catalog_known_files w
  end.

Definition get_known_files (m : PyModule) : M (dict string DeclaredClass) :=
  λ w, (Ok (known_files m w), w).

(** [DeclaredFile.known_files[name] = cls] in module [m] *)
Definition known_files_setitem (m : PyModule) (name : string)
    (cls : DeclaredClass) : M unit := λ w,
  (Ok tt,
   match m with
   | store_py =>
       mkWorld (fs w) (heap w) (dict_set name cls (store_known_files w))
         (catalog_known_files w)
   | catalog_py =>
       mkWorld (fs w) (heap w) (store_known_files w)
         (dict_set name cls (catalog_known_files w))
   end).

(** The class [DeclaredFile] itself. *)
Definition DeclaredFile (m : PyModule) : DeclaredClass := {|
  cls_module := m;
  cls_qualname := "DeclaredFile";
  cls_name := None;
  cls_model := None;
  cls_pre_ingest := PreIngestPass;
  cls_resolve_cluster := λ _, None;
  cls_resolve_key := λ _, None;
|}.

(** The body of a class statement: the attributes it assigns and the
    methods it overrides ([None] where the body says nothing). *)
Record ClassBody := {
  body_qualname : string;
  body_name : option (option string);
  body_model : option (option Model);
  body_pre_ingest : option PreIngest;
  body_resolve_cluster : option (Item → option string);
  body_resolve_key : option (Item → option string);
}.

(** Attribute lookup on the new class: its own body first, then the base. *)
Definition derive (base : DeclaredClass) (body : ClassBody) : DeclaredClass := {|
  cls_module := cls_module base;
  cls_qualname := body_qualname body;
  cls_name := default (cls_name base) (body_name body);
  cls_model := default (cls_model base) (body_model body);
  cls_pre_ingest := default (cls_pre_ingest base) (body_pre_ingest body);
  cls_resolve_cluster := default (cls_resolve_cluster base) (body_resolve_cluster body);
  cls_resolve_key := default (cls_resolve_key base) (body_resolve_key body);
|}.

Definition DeclaredFile_init_subclass (cls : DeclaredClass) : M unit :=
  match cls_name cls with
  | None => raise (ValueError "name must be defined")
  | Some name =>
      match cls_model cls with
      | None => raise (ValueError "model must be defined")
      | Some _ => known_files_setitem (cls_module cls) name cls
      end
  end.

(** [class qualname(base): body] *)
Definition class_statement (base : DeclaredClass) (body : ClassBody)
  : M DeclaredClass :=
  let cls := derive base body in
  _ ← DeclaredFile_init_subclass cls;
  mret cls.

Definition CurrencyFile_body : ClassBody := {|
  body_qualname := "CurrencyFile";
  body_name := Some (Some "currencies");
  body_model := Some (Some Currency);
  body_pre_ingest := None;
  body_resolve_cluster := None;
  body_resolve_key := Some (λ item, Some (code item));
|}.

Definition CurrencyHolidayFile_body : ClassBody := {|
  body_qualname := "CurrencyHolidayFile";
  body_name := Some (Some "currency_holidays");
  body_model := Some (Some CurrencyHoliday);
  body_pre_ingest := None;
  body_resolve_cluster := Some (λ item, Some (currency_code item));
  body_resolve_key := Some (λ item, Some (date item));
|}.

Definition MarketFile_body : ClassBody := {|
  body_qualname := "MarketFile";
  body_name := Some (Some "markets");
  body_model := Some (Some Market);
  body_pre_ingest := None;
  body_resolve_cluster := Some (λ item, Some (fin_id_country item));
  body_resolve_key := Some (λ item, Some (fin_id_str item));
|}.

Definition MarketHolidayFile_body : ClassBody := {|
  body_qualname := "MarketHolidayFile";
  body_name := Some (Some "holidays");
  body_model := Some (Some MarketHoliday);
  body_pre_ingest := None;
  body_resolve_cluster := Some (λ item, Some (fin_id_str item));
  body_resolve_key := Some (λ item, Some (date item));
|}.

Definition ScheduleFile_body : ClassBody := {|
  body_qualname := "ScheduleFile";
  body_name := Some (Some "schedules");
  body_model := Some (Some Schedule);
  body_pre_ingest := Some PreIngestClear;
  body_resolve_cluster := Some (λ item, Some (fin_id_str item));
  body_resolve_key := None;
|}.

Definition declared_bodies : list ClassBody :=
  [CurrencyFile_body; CurrencyHolidayFile_body; MarketFile_body;
   MarketHolidayFile_body; ScheduleFile_body].

(** Executing the class statements of module [m]. *)
Definition exec_module (m : PyModule) : M unit :=
  for_each declared_bodies (λ body, _ ← class_statement (DeclaredFile m) body; mret tt).

(** [import tradinghours.catalog]: [catalog.py] imports [store.py] first. *)
Definition import_catalog : M unit :=
  _ ← exec_module store_py;
  exec_module catalog_py.

(** An instance of a [DeclaredFile] subclass. *)
Record DeclaredFileObj := {
  df_class : DeclaredClass;
  df_source : SourceFile;
}.

Definition py_of_name (n : option string) : PyValue :=
  match n with Some s => PyStr s | None => PyNone end.
Definition py_of_model (m : option Model) : PyValue :=
  match m with Some c => PyModelClass c | None => PyNone end.

(** [declared_class(root)] *)
Definition DeclaredFile_init (cls : DeclaredClass) (root : PyValue)
  : M DeclaredFileObj := λ w,
  match SourceFile_init root (py_of_name (cls_name cls)) (py_of_model (cls_model cls)) with
  | Ok source => (Ok {| df_class := cls; df_source := source |}, w)
  | Raise e => (Raise e, w)
  end.

(** [self.name] on an instance is the class attribute, the string
    [__init__] stored in [_name]. *)
Definition DeclaredFile_name (self : DeclaredFileObj) : string :=
  _name (df_source self).

Definition DeclaredFile_pre_ingest (self : DeclaredFileObj) (store : ref) : M unit :=
  match cls_pre_ingest (df_class self) with
  | PreIngestPass => mret tt
  | PreIngestClear => Store_clear_collection store (DeclaredFile_name self)
  end.

Definition DeclaredFile_resolve_collection (self : DeclaredFileObj) (item : Item)
  : string := DeclaredFile_name self.

Definition DeclaredFile_ingest (self : DeclaredFileObj) (store : ref) : M unit :=
  _ ← DeclaredFile_pre_ingest self store;
  for_gen (SourceFile_load (df_source self)) (λ current,
    let collection := DeclaredFile_resolve_collection self current in
    let cluster := cls_resolve_cluster (df_class self) current in
    let key := cls_resolve_key (df_class self) current in
    Store_store_item store current collection cluster key).

Definition Store_ingest_all (self : ref) (data_folder : Path) : M unit :=
  table ← get_known_files store_py;
  for_each table (λ '(_, declared_class),
    source ← DeclaredFile_init declared_class (PyPath data_folder);
    DeclaredFile_ingest source self).

(** ** catalog.py *)

(** Modelled from the spec: [Cluster.load_all] is called by [catalog.py]
    but is not defined in this [store.py].  It reads the file from the
    start, replays every line and builds the mapping; of two lines with the
    same key the later one wins. *)
Definition replay (lines : list Line) : dict (option string) Data :=
  fold_left (λ mapping '(key, data), dict_set key data mapping) lines [].

Definition Cluster_load_all (self : ref) : M (dict (option string) Data) :=
  location ← Cluster_location self;
  lines ← read_lines location;
  mret (replay lines).

Definition Catalog_new (store : ref) : M ref :=
  alloc catalogs set_catalogs (CatalogObj store).

Definition Catalog_store (self : ref) : M ref :=
  '(CatalogObj store) ← deref catalogs self; mret store.

Fixpoint find_model_loop (self : ref) (items : list (string * DeclaredClass))
    (model : Model) : M (option ref) :=
  match items with
  | [] => mret None
  | (name, declared) :: rest =>
      if decide (cls_model declared = Some model) then
        store ← Catalog_store self;
        collections ← Store_collections store;
        collection ← CollectionRegistry_get collections name;
        mret (Some collection)
      else find_model_loop self rest model
  end.

Definition Catalog_find_model_collection (self : ref) (model : Model)
  : M (option ref) :=
  table ← get_known_files catalog_py;
  find_model_loop self table model.

(** [collection.clusters] where [collection] may be [None] *)
Definition clusters_of (collection : option ref) : M ref :=
  match collection with
  | Some c => Collection_clusters c
  | None => no_attribute "clusters"
  end.

(** [cluster or "default"]: [None] and the empty string are falsy. *)
Definition cluster_or_default (cluster : option string) : string :=
  match cluster with
  | None => "default"
  | Some c => if decide (c = "") then "default" else c
  end.

Fixpoint get_loop (model : Model) (key : option string)
    (items : list (option string * Data)) : Res (option Item) :=
  match items with
  | [] => Ok None
  | (current_key, data) :: rest =>
      if decide (current_key = key) then
        match from_tuple model data with
        | Ok item => Ok (Some item)
        | Raise e => Raise e
        end
      else get_loop model key rest
  end.

Definition lift {A} (r : Res A) : M A := λ w, (r, w).

Definition Catalog_get (self : ref) (model : Model) (key : option string)
    (cluster : option string) : M (option Item) :=
  collection ← Catalog_find_model_collection self model;
  let cluster_name := cluster_or_default cluster in
  clusters ← clusters_of collection;
  cluster ← ClusterRegistry_get clusters cluster_name;
  cluster_data ← Cluster_load_all cluster;
  lift (get_loop model key cluster_data).

(** The loop of [filter]; comparing [None] with a [str] raises. *)
Fixpoint filter_loop (model : Model) (key_start key_end : string)
    (items : list (option string * Data)) : Generator Item :=
  match items with
  | [] => ([], None)
  | (current_key, data) :: rest =>
      match current_key with
      | None =>
          ([], Some (TypeError "'>=' not supported between instances of 'NoneType' and 'str'"))
      | Some k =>
          if str_le key_start k && str_le k key_end then
            match from_tuple model data with
            | Ok item =>
                let rest_gen := filter_loop model key_start key_end rest in
                (item :: rest_gen.1, rest_gen.2)
            | Raise e => ([], Some e)
            end
          else filter_loop model key_start key_end rest
      end
  end.

Definition Catalog_filter (self : ref) (model : Model) (key_start key_end : string)
    (cluster : option string) : M (Generator Item) :=
  collection ← Catalog_find_model_collection self model;
  let cluster_name := cluster_or_default cluster in
  clusters ← clusters_of collection;
  cluster ← ClusterRegistry_get clusters cluster_name;
  cluster_data ← Cluster_load_all cluster;
  mret (filter_loop model key_start key_end cluster_data).

(** The inner loop of [list_all]: every value of the mapping is decoded
    and yielded; an exception of [from_tuple] ends the generator. *)
Fixpoint yield_all (model : Model) (items : list (option string * Data))
  : Generator Item :=
  match items with
  | [] => ([], None)
  | (_, current) :: rest =>
      match from_tuple model current with
      | Ok item =>
          let rest_gen := yield_all model rest in
          (item :: rest_gen.1, rest_gen.2)
      | Raise e => ([], Some e)
      end
  end.

(** The outer loop of [list_all]: one cluster after the other is loaded and
    its records yielded.  An exception inside the loop ends the generator
    after what it has yielded; the clusters after it are not loaded. *)
Fixpoint list_all_loop (model : Model) (clusters : list ref)
  : M (Generator Item) :=
  match clusters with
  | [] => mret ([], None)
  | cluster :: rest => λ w,
      match Cluster_load_all cluster w with
      | (Raise e, w1) => (Ok ([], Some e), w1)
      | (Ok cluster_data, w1) =>
          let gen := yield_all model cluster_data in
          match gen.2 with
          | Some _ => (Ok gen, w1)
          | None =>
              match list_all_loop model rest w1 with
              | (Ok rest_gen, w2) => (Ok (gen.1 ++ rest_gen.1, rest_gen.2), w2)
              | (Raise e, w2) => (Raise e, w2)
              end
          end
      end
  end.

Definition Catalog_list_all (self : ref) (model : Model) : M (Generator Item) :=
  collection ← Catalog_find_model_collection self model;
  clusters ← clusters_of collection;
  cluster_list ← Registry_iter ClusterRegistryClass clusters;
  list_all_loop model cluster_list.

(** [Catalog.ingest_all] and the [ingest] of [catalog.py] call
    [SourceFile.load_iter], [item.to_tuple], [Store.store_tuple],
    [Store.flush] and read [Store.remote_folder]; this [store.py] defines
    none of them, so they are parameters here. *)
Record NewerStore := {
  load_iter : SourceFile → Generator Item;
  to_tuple : Item → Data;
  Store_store_tuple :
    ref → Data → string → option string → option string → M unit;
  Store_flush : ref → M unit;
  Store_remote_folder : ref → M Path;
}.

(** [DeclaredFile.ingest] of [catalog.py] *)
Definition Catalog_DeclaredFile_ingest (ns : NewerStore)
    (self : DeclaredFileObj) (store : ref) : M unit :=
  _ ← DeclaredFile_pre_ingest self store;
  for_gen (load_iter ns (df_source self)) (λ current,
    let collection := DeclaredFile_name self in
    let cluster := cls_resolve_cluster (df_class self) current in
    let key := cls_resolve_key (df_class self) current in
    let data := to_tuple ns current in
    Store_store_tuple ns store data collection cluster key).

Definition Catalog_ingest_all (ns : NewerStore) (self : ref)
    (csv_folder : option Path) : M unit :=
  store ← Catalog_store self;
  csv_folder ←
    match csv_folder with
    | Some folder => mret folder
    | None => remote ← Store_remote_folder ns store; mret (joinpath remote "csv")
    end;
  table ← get_known_files catalog_py;
  _ ← for_each table (λ '(_, declared_class),
        source ← DeclaredFile_init declared_class (PyPath csv_folder);
        Catalog_DeclaredFile_ingest ns source store);
  Store_flush ns store.

(** A world with nothing but the directory of the store. *)
Definition empty_world : World :=
  mkWorld {[ ["store_dir"] := Dir ]} empty_heap [] [].

End Program.

(** ** Vocabulary of the statements *)

Section Vocabulary.
Context `{Collaborators}.

Definition is_separator (c : ascii) : bool :=
  Ascii.eqb c hyphen || Ascii.eqb c underscore.

(** Two names that differ only in using hyphens versus underscores. *)
Fixpoint differ_only_in_separators (a b : string) : bool :=
  match a, b with
  | EmptyString, EmptyString => true
  | String c a', String d b' =>
      (Ascii.eqb c d || (is_separator c && is_separator d))
      && differ_only_in_separators a' b'
  | _, _ => false
  end.

(** The lines of the file at [p], when there is a file. *)
Definition file_lines (w : World) (p : Path) : option (list Line) :=
  match node_at w p with
  | Some (File lines) => Some lines
  | _ => None
  end.

(** The record of the last line that carries the key [k]. *)
Definition last_write (k : option string) (lines : list Line) : option Data :=
  last (filter (λ line, line.1 = k) lines).*2.

(** The entries of a mapping under the key [k]. *)
Definition entries_for {K V} `{EqDecision K} (k : K) (d : dict K V) : list (K * V) :=
  filter (λ entry, entry.1 = k) d.

(** What [get] and [filter] do before their loop: resolve the collection
    of the model and the cluster, and load the cluster. *)
Definition Catalog_cluster_data (self : ref) (model : Model)
    (cluster : option string) : M (dict (option string) Data) :=
  collection ← Catalog_find_model_collection self model;
  clusters ← clusters_of collection;
  cluster ← ClusterRegistry_get clusters (cluster_or_default cluster);
  Cluster_load_all cluster.

(** The outcome of [return model.from_tuple(data)]. *)
Definition returned (model : Model) (data : Data) : Res (option Item) :=
  match from_tuple model data with
  | Ok item => Ok (Some item)
  | Raise e => Raise e
  end.

(** [key_start <= k <= key_end] on strings. *)
Definition in_range (key_start key_end k : string) : bool :=
  str_le key_start k && str_le k key_end.

(** The records of a mapping whose key is a string within the bounds, in
    the order of the mapping. *)
Definition range_records (key_start key_end : string)
    (d : dict (option string) Data) : list Data :=
  omap (λ '(key, data),
          match key with
          | Some k => if in_range key_start key_end k then Some data else None
          | None => None
          end) d.

(** Decoding records one after the other, as a generator does: a record
    that fails to decode ends the sequence with its exception. *)
Fixpoint decode_all (model : Model) (records : list Data) : Generator Item :=
  match records with
  | [] => ([], None)
  | data :: rest =>
      match from_tuple model data with
      | Ok item => (item :: (decode_all model rest).1, (decode_all model rest).2)
      | Raise e => ([], Some e)
      end
  end.

Definition all_keys_are_strings (d : dict (option string) Data) : bool :=
  forallb (λ entry, bool_decide (is_Some entry.1)) d.

(** The [_resources] of the registry at [registry], read off the heap. *)
Definition registry_resources (cls : RegistryClass) (w : World) (registry : ref)
  : option (dict string ref) :=
  match cls with
  | ClusterRegistryClass =>
      (λ '(ClusterRegistryObj d _), d) <$> cluster_registries (heap w) !! registry
  | CollectionRegistryClass =>
      (λ '(CollectionRegistryObj d _), d)
        <$> collection_registries (heap w) !! registry
  end.

(** The resource a registry holds for a slug. *)
Definition registered (cls : RegistryClass) (w : World) (registry : ref)
    (slug : string) : option ref :=
  d ← registry_resources cls w registry; dict_get slug d.

(** The loop of [Store.ingest_all] over a given table. *)
Definition Store_ingest_table (table : dict string DeclaredClass)
    (self : ref) (data_folder : Path) : M unit :=
  for_each table (λ '(_, declared_class),
    source ← DeclaredFile_init declared_class (PyPath data_folder);
    DeclaredFile_ingest source self).

(** The loop of [Catalog.ingest_all] over a given table. *)
Definition Catalog_ingest_table (ns : NewerStore)
    (table : dict string DeclaredClass) (store : ref) (csv_folder : Path)
  : M unit :=
  for_each table (λ '(_, declared_class),
    source ← DeclaredFile_init declared_class (PyPath csv_folder);
    Catalog_DeclaredFile_ingest ns source store).

(** The table the class statements of module [m] build. *)
Definition module_table (m : PyModule) : dict string DeclaredClass :=
  (λ body, (default "" (cls_name (derive (DeclaredFile m) body)),
            derive (DeclaredFile m) body)) <$> declared_bodies.

(** A parameter set for the missing methods, following §4.6 of the
    specification: [load_iter] reads like [load], [store_tuple] appends
    like [store_item], [flush] does nothing. *)
Definition plain_newer_store (remote : Path) : NewerStore := {|
  load_iter := SourceFile_load;
  to_tuple := to_dict;
  Store_store_tuple := λ store data collection cluster key,
    collections ← Store_collections store;
    collection_obj ← CollectionRegistry_get collections collection;
    clusters ← Collection_clusters collection_obj;
    cluster_obj ← ClusterRegistry_get clusters (cluster_or_default cluster);
    Cluster_append cluster_obj key data;
  Store_flush := λ _, mret tt;
  Store_remote_folder := λ _, mret remote;
|}.

(** The world once an entry [n] has been created at [p] unless something
    was there. *)
Definition ensure_node (p : Path) (n : Node) (w : World) : World :=
  match node_at w p with
  | Some _ => w
  | None => set_fs <[p := n]> w
  end.
Arguments ensure_node : simpl never.

(** Attributes read off the heap. *)
Definition store_collections_of (w : World) (store : ref) : option ref :=
  (λ '(StoreObj _ collections), collections) <$> stores (heap w) !! store.
Definition collection_clusters_of (w : World) (collection : ref) : option ref :=
  (λ '(CollectionObj _ clusters), clusters) <$> collections (heap w) !! collection.
Definition collection_folder_of (w : World) (collection : ref) : option Path :=
  (λ '(CollectionObj folder _), folder) <$> collections (heap w) !! collection.
Definition cluster_location_of (w : World) (cluster : ref) : option Path :=
  (λ '(ClusterObj location), location) <$> clusters (heap w) !! cluster.

(** The file of the cluster registered under [cluster_slug] in the
    collection registered under [collection_slug] in a store. *)
Definition cluster_file (w : World) (store : ref)
    (collection_slug cluster_slug : string) : option Path :=
  collections ← store_collections_of w store;
  collection ← registered CollectionRegistryClass w collections collection_slug;
  clusters ← collection_clusters_of w collection;
  cluster ← registered ClusterRegistryClass w clusters cluster_slug;
  cluster_location_of w cluster.

(** No file loses a line from [w] to [w']. *)
Definition files_grow (w w' : World) : Prop :=
  ∀ p lines, file_lines w p = Some lines →
             ∃ more, file_lines w' p = Some (lines ++ more).

(** The body of the loop of [DeclaredFile.ingest]. *)
Definition store_row (self : DeclaredFileObj) (store : ref) (current : Item)
  : M unit :=
  let collection := DeclaredFile_resolve_collection self current in
  let cluster := cls_resolve_cluster (df_class self) current in
  let key := cls_resolve_key (df_class self) current in
  Store_store_item store current collection cluster key.

(** The record of a row is a line of some file. *)
Definition row_on_disk (self : DeclaredFileObj) (w : World) (row : Item) : Prop :=
  ∃ loc lines,
    file_lines w loc = Some lines
    ∧ (cls_resolve_key (df_class self) row, to_dict row) ∈ lines.

(** The files of the given clusters. *)
Definition cluster_locations (w : World) (clusters : list ref) : list Path :=
  omap (cluster_location_of w) clusters.

(** The character [c] occurs in [s]. *)
Fixpoint str_has (c : ascii) (s : string) : bool :=
  match s with
  | EmptyString => false
  | String c' rest => Ascii.eqb c' c || str_has c rest
  end.

(** What [Path(root)] is for an acceptable [root] argument. *)
Definition root_path (root : PyValue) : option Path :=
  match root with
  | PyStr r => Some (Path_of_str r)
  | PyPath r => Some r
  | _ => None
  end.

(** Appending the records one after the other. *)
Definition Cluster_append_all (self : ref) (records : list Line) : M unit :=
  for_each records (λ record, Cluster_append self record.1 record.2).

(** From [w] to [w'] no object reachable by name has been lost or
    redirected: what a store, a registry, a collection or a cluster held
    in [w], it holds in [w']. *)
Definition heap_keeps (w w' : World) : Prop :=
  (∀ store x, store_collections_of w store = Some x →
              store_collections_of w' store = Some x)
  ∧ (∀ cls registry slug x, registered cls w registry slug = Some x →
                            registered cls w' registry slug = Some x)
  ∧ (∀ c x, collection_clusters_of w c = Some x →
            collection_clusters_of w' c = Some x)
  ∧ (∀ c x, collection_folder_of w c = Some x →
            collection_folder_of w' c = Some x)
  ∧ (∀ cl x, cluster_location_of w cl = Some x →
             cluster_location_of w' cl = Some x).

(** The layout of a store: its collections are the folders
    [root / collection-slug], and the clusters of each are the files
    [root / collection-slug / (cluster-slug + ".dat")]. *)
Definition store_layout (w : World) (store : ref) : Prop :=
  ∃ root colls dcoll,
    stores (heap w) !! store = Some (StoreObj root colls)
    ∧ collection_registries (heap w) !! colls
      = Some (CollectionRegistryObj dcoll root)
    ∧ ∀ cslug c, dict_get cslug dcoll = Some c →
        ∃ cr dcl,
          collections (heap w) !! c
          = Some (CollectionObj (joinpath root cslug) cr)
          ∧ cluster_registries (heap w) !! cr
            = Some (ClusterRegistryObj dcl (joinpath root cslug))
          ∧ ∀ s cl, dict_get s dcl = Some cl →
              clusters (heap w) !! cl
              = Some (ClusterObj (joinpath (joinpath root cslug) (s +:+ ".dat"))).

(** What [load_all] of a cluster returns as values: the replay of the lines
    of its file. *)
Definition cluster_records (w : World) (cluster : ref) : list Data :=
  match cluster_location_of w cluster with
  | Some loc => dict_values (replay (default [] (file_lines w loc)))
  | None => []
  end.

(** No descriptor class of [catalog.py] has [model] as its model. *)
Definition model_undeclared (w : World) (model : Model) : Prop :=
  Forall (λ entry, cls_model entry.2 ≠ Some model) (known_files catalog_py w).

(** Every entry of the two tables is a class of that module, entered under
    its [name], and it has a [model]. *)
Definition tables_ok (w : World) : Prop :=
  ∀ m name cls, (name, cls) ∈ known_files m w →
    cls_module cls = m ∧ cls_name cls = Some name ∧ is_Some (cls_model cls).

(** From [w] to [w'] the disk has only gained empty entries: every entry of
    [w] is in [w'] as it was, and no file holds other lines than before. *)
Definition only_created (w w' : World) : Prop :=
  (∀ p x, node_at w p = Some x → node_at w' p = Some x)
  ∧ (∀ p, default [] (file_lines w' p) = default [] (file_lines w p)).

(** A computation that at most creates empty entries, whatever its
    outcome. *)
Definition quiet {A} (m : M A) : Prop :=
  ∀ w r w', m w = (r, w') → only_created w w'.

(** A computation that, when it raises, has at most created empty
    entries. *)
Definition fails_quietly {A} (m : M A) : Prop :=
  ∀ w e w', m w = (Raise e, w') → only_created w w'.

End Vocabulary.

(** ** A concrete set of collaborators

    Used to run the definitions on concrete inputs. *)

Record SampleItem := {
  sample_code : string;
  sample_currency_code : string;
  sample_date : string;
  sample_country : string;
  sample_fin_id : string;
}.

(** A normaliser in the spirit of [slugify]: blanks become hyphens. *)
Definition sample_slugify (name : string) : string :=
  str_replace " "%char hyphen name.

Definition usd : SampleItem :=
  {| sample_code := "USD"; sample_currency_code := ""; sample_date := "";
     sample_country := ""; sample_fin_id := "" |}.
Definition eur : SampleItem :=
  {| sample_code := "EUR"; sample_currency_code := ""; sample_date := "";
     sample_country := ""; sample_fin_id := "" |}.
Definition usd_new_year : SampleItem :=
  {| sample_code := ""; sample_currency_code := "USD"; sample_date := "2023-01-02";
     sample_country := ""; sample_fin_id := "" |}.
Definition nyse_new_year : SampleItem :=
  {| sample_code := ""; sample_currency_code := ""; sample_date := "2023-01-02";
     sample_country := "US"; sample_fin_id := "US.NYSE" |}.
Definition nyse_christmas : SampleItem :=
  {| sample_code := ""; sample_currency_code := ""; sample_date := "2023-12-25";
     sample_country := "US"; sample_fin_id := "US.NYSE" |}.

(** The currencies source has two rows; the currency holidays source
    yields one row and then turns out to be unreadable; the other sources
    are empty. *)
Definition sample_from_csv (model : Model) (path : Path)
  : list SampleItem * option Exn :=
  match model with
  | Currency => ([usd; eur], None)
  | CurrencyHoliday => ([usd_new_year], Some (SourceError "currency-holidays.csv"))
  | _ => ([], None)
  end.

Definition sample : Collaborators := {|
  Item := SampleItem;
  Data := SampleItem;
  to_dict := λ item, item;
  from_tuple := λ _ data, Ok data;
  from_csv := sample_from_csv;
  slugify := sample_slugify;
  code := sample_code;
  currency_code := sample_currency_code;
  date := sample_date;
  fin_id_country := sample_country;
  fin_id_str := sample_fin_id;
|}.

#[local] Existing Instance sample.

(** A cluster object whose file already holds one line under "USD". *)
Definition cluster_world : World :=
  mkWorld
    {[ ["store_dir"] := Dir;
       ["store_dir"; "currencies"] := Dir;
       ["store_dir"; "currencies"; "unique.dat"] := File [(Some "USD", usd_new_year)] ]}
    (set_clusters (λ _, [ClusterObj ["store_dir"; "currencies"; "unique.dat"]])
       empty_heap)
    [] [].

(** A store over "store_dir", a catalog over it (each the first object of
    its class), and both modules imported. *)
Definition sample_setup : M unit :=
  store ← Store_new ["store_dir"];
  _ ← Store_touch store;
  _ ← Catalog_new store;
  import_catalog.

Definition sample_store : ref := 0.
Definition sample_catalog : ref := 0.

(** Two currencies written to the cluster "default", "USD" twice. *)
Definition currencies_world : World := Eval vm_compute in
  (( _ ← sample_setup;
     _ ← Store_store_item sample_store usd "currencies" (Some "default") (Some "USD");
     _ ← Store_store_item sample_store eur "currencies" (Some "default") (Some "EUR");
     Store_store_item sample_store usd "currencies" (Some "default") (Some "USD"))
     empty_world).2.

(** Holidays of one market: a record without key, then two dated ones. *)
Definition holidays_world : World := Eval vm_compute in
  (( _ ← sample_setup;
     _ ← Store_store_item sample_store nyse_new_year "holidays" (Some "US.NYSE") None;
     _ ← Store_store_item sample_store nyse_new_year "holidays" (Some "US.NYSE")
           (Some "2023-01-02");
     Store_store_item sample_store nyse_christmas "holidays" (Some "US.NYSE")
           (Some "2023-12-25"))
     empty_world).2.

(** The same without the keyless record. *)
Definition dated_holidays_world : World := Eval vm_compute in
  (( _ ← sample_setup;
     _ ← Store_store_item sample_store nyse_new_year "holidays" (Some "US.NYSE")
           (Some "2023-01-02");
     Store_store_item sample_store nyse_christmas "holidays" (Some "US.NYSE")
           (Some "2023-12-25"))
     empty_world).2.

(** The world once [tradinghours.catalog] has been imported. *)
Definition imported_world : World := Eval vm_compute in
  (import_catalog empty_world).2.

(** An empty cluster registry over the directory of the store. *)
Definition registry_world : World :=
  mkWorld {[ ["store_dir"] := Dir ]}
    (set_cluster_registries (λ _, [ClusterRegistryObj [] ["store_dir"]]) empty_heap)
    [] [].

(** The world after the set-up alone. *)
Definition setup_world : World := Eval vm_compute in (sample_setup empty_world).2.

(** One keyed record stored without naming a cluster. *)
Definition unique_world : World := Eval vm_compute in
  (Store_store_item sample_store usd "coll" None (Some "k") setup_world).2.

(** The currencies have been ingested from "data". *)
Definition currencies_ingested_world : World := Eval vm_compute in
  (Store_ingest_table [("currencies", derive (DeclaredFile store_py) CurrencyFile_body)]
     sample_store ["data"] setup_world).2.

Definition sample_holiday_source : DeclaredFileObj := {|
  df_class := derive (DeclaredFile store_py) CurrencyHolidayFile_body;
  df_source := {| _name := "currency_holidays"; _root := ["data"];
                  _model := CurrencyHoliday |};
|}.

(** The one row of the currency holidays has been stored as well. *)
Definition holiday_stored_world : World := Eval vm_compute in
  (for_each [usd_new_year] (store_row sample_holiday_source sample_store)
     currencies_ingested_world).2.

(** One schedule stored in the cluster of a market; the collection
    "schedules" and its cluster are the first objects of their classes. *)
Definition schedules_world : World := Eval vm_compute in
  (Store_store_item sample_store nyse_new_year "schedules" (Some "US.NYSE") None
     setup_world).2.

(** What an earlier process left on disk: the same file, and no object. *)
Definition residue_world : World :=
  mkWorld
    {[ ["store_dir"] := Dir;
       ["store_dir"; "schedules"] := Dir;
       ["store_dir"; "schedules"; "US.NYSE.dat"] := File [(None, nyse_new_year)] ]}
    empty_heap [] [].

(** A new process clears the collection "schedules", asks it for the
    cluster of the market and loads it. *)
Definition clear_then_load : M (dict (option string) Data) :=
  store ← Store_new ["store_dir"];
  _ ← Store_clear_collection store "schedules";
  collections ← Store_collections store;
  collection ← CollectionRegistry_get collections "schedules";
  clusters ← Collection_clusters collection;
  cluster ← ClusterRegistry_get clusters "US.NYSE";
  Cluster_load_all cluster.

(** A cluster object whose file does not exist yet. *)
Definition new_cluster_world : World :=
  mkWorld
    {[ ["store_dir"] := Dir; ["store_dir"; "currencies"] := Dir ]}
    (set_clusters (λ _, [ClusterObj ["store_dir"; "currencies"; "unique.dat"]])
       empty_heap)
    [] [].


(** A new process over a store directory that already holds a file of
    currencies. *)
Definition reopened_world : World := Eval vm_compute in
  (sample_setup
     (mkWorld
        {[ ["store_dir"] := Dir;
           ["store_dir"; "currencies"] := Dir;
           ["store_dir"; "currencies"; "default.dat"] := File [(Some "USD", usd)] ]}
        empty_heap [] [])).2.

(** Holidays of one market where the record without key was stored between
    the two dated ones. *)
Definition late_keyless_world : World := Eval vm_compute in
  (( _ ← sample_setup;
     _ ← Store_store_item sample_store nyse_new_year "holidays" (Some "US.NYSE")
           (Some "2023-01-02");
     _ ← Store_store_item sample_store nyse_new_year "holidays" (Some "US.NYSE") None;
     Store_store_item sample_store nyse_christmas "holidays" (Some "US.NYSE")
           (Some "2023-12-25"))
     empty_world).2.

Definition sample_schedule_source : DeclaredFileObj := {|
  df_class := derive (DeclaredFile store_py) ScheduleFile_body;
  df_source := {| _name := "schedules"; _root := ["data"]; _model := Schedule |};
|}.

(** A store whose directory holds a plain file where the folder of the
    collection "currencies" should be. *)
Definition blocked_world : World := Eval vm_compute in
  (Store_new ["store_dir"]
     (mkWorld
        {[ ["store_dir"] := Dir;
           ["store_dir"; "currencies"] := File [(Some "USD", usd)] ]}
        empty_heap [] [])).2.

(** * Properties *)

Section Properties.
Context `{Collaborators}.

(** ** The monad *)

Lemma bind_Ok {A B} (m : M A) (f : A → M B) w a w' :
  m w = (Ok a, w') → (m ≫= f) w = f a w'.
Proof. intros E. unfold mbind, M_bind. by rewrite E. Qed.

Lemma bind_Raise {A B} (m : M A) (f : A → M B) w e w' :
  m w = (Raise e, w') → (m ≫= f) w = (Raise e, w').
Proof. intros E. unfold mbind, M_bind. by rewrite E. Qed.

Lemma bind_Ok_inv {A B} (m : M A) (f : A → M B) w b w'' :
  (m ≫= f) w = (Ok b, w'') →
  ∃ a w', m w = (Ok a, w') ∧ f a w' = (Ok b, w'').
Proof.
  unfold mbind, M_bind. destruct (m w) as [[a|e] w'] eqn:E; [eauto | discriminate].
Qed.

(** ** SourceFile: names and file names *)

Lemma SourceFile_init_name root n model sf :
  SourceFile_init root (PyStr n) model = Ok sf → _name sf = n.
Proof.
  unfold SourceFile_init.
  destruct root, model; intros E; try discriminate; by inversion E.
Qed.

Lemma is_separator_to_hyphen c :
  is_separator c = true →
  (if Ascii.eqb c underscore then hyphen else c) = hyphen.
Proof.
  unfold is_separator. intros Hc.
  destruct (Ascii.eqb c underscore) eqn:Hu; [done|].
  destruct (Ascii.eqb c hyphen) eqn:Hh; [|discriminate].
  by apply Ascii.eqb_eq in Hh.
Qed.

Lemma differ_only_in_separators_filename a b :
  differ_only_in_separators a b = true →
  str_replace underscore hyphen a = str_replace underscore hyphen b.
Proof.
  revert b. induction a as [|c a IH]; intros [|d b]; simpl; try done.
  intros [Hc Hrest]%andb_prop. f_equal; [|by apply IH].
  apply orb_prop in Hc as [Hcd|[Hc Hd]%andb_prop].
  - by apply Ascii.eqb_eq in Hcd as ->.
  - by rewrite !is_separator_to_hyphen.
Qed.

(** C10: a SourceFile built with the name string [n] has [name] equal to
    [n] with every hyphen replaced by an underscore and [filename] equal to
    [n] with every underscore replaced by a hyphen, followed by ".csv";
    two SourceFiles over the same root whose names differ only in hyphens
    versus underscores have the same CSV path. *)
Theorem SourceFile_name_filename_path root1 root2 n1 n2 model1 model2 sf1 sf2 :
  SourceFile_init root1 (PyStr n1) model1 = Ok sf1 →
  SourceFile_init root2 (PyStr n2) model2 = Ok sf2 →
  SourceFile_name sf1 = str_replace hyphen underscore n1
  ∧ SourceFile_filename sf1 = str_replace underscore hyphen n1 +:+ ".csv"
  ∧ (SourceFile_root sf1 = SourceFile_root sf2 →
     differ_only_in_separators n1 n2 = true →
     SourceFile_path sf1 = SourceFile_path sf2).
Proof.
  intros E1%SourceFile_init_name E2%SourceFile_init_name.
  unfold SourceFile_name, SourceFile_filename, SourceFile_path,
    SourceFile_filename, SourceFile_root.
  rewrite E1, E2. split_and!; [done..|].
  intros -> Hd. by rewrite (differ_only_in_separators_filename _ _ Hd).
Qed.

(** ** DeclaredFile: registration of descriptor classes *)

Lemma dict_get_set_eq {K V} `{EqDecision K} (k : K) (v : V) (d : dict K V) :
  dict_get k (dict_set k v d) = Some v.
Proof.
  induction d as [|[k' v'] d IH]; simpl.
  - by rewrite decide_True.
  - destruct (decide (k' = k)) as [->|Hne]; simpl.
    + by rewrite decide_True.
    + by rewrite decide_False.
Qed.

Lemma dict_get_set_ne {K V} `{EqDecision K} (k k0 : K) (v : V) (d : dict K V) :
  k ≠ k0 → dict_get k0 (dict_set k v d) = dict_get k0 d.
Proof.
  intros Hne. induction d as [|[k' v'] d IH]; simpl.
  - by rewrite decide_False.
  - destruct (decide (k' = k)) as [->|Hne']; simpl.
    + by rewrite !decide_False.
    + destruct (decide (k' = k0)); [done | apply IH].
Qed.

Lemma known_files_setitem_get m name cls w :
  dict_get name (known_files m (known_files_setitem m name cls w).2) = Some cls.
Proof. destruct m; simpl; apply dict_get_set_eq. Qed.

(** C8: a class statement whose class ends up without a [name] or without
    a [model] raises [ValueError] at once, leaving the tables, the heap and
    the disk as they were; a class that has both is returned and is found in
    the table of its [DeclaredFile] under its name. *)
Theorem class_statement_registers base body w :
  let cls := derive base body in
  match cls_name cls, cls_model cls with
  | Some name, Some _ =>
      ∃ w', class_statement base body w = (Ok cls, w')
            ∧ dict_get name (known_files (cls_module cls) w') = Some cls
            ∧ fs w' = fs w ∧ heap w' = heap w
  | _, _ =>
      ∃ msg, class_statement base body w = (Raise (ValueError msg), w)
  end.
Proof.
  intros cls. unfold class_statement, DeclaredFile_init_subclass.
  fold cls. destruct (cls_name cls) as [name|] eqn:En.
  - destruct (cls_model cls) as [model|] eqn:Em.
    + exists (known_files_setitem (cls_module cls) name cls w).2.
      split; [|split_and!].
      * reflexivity.
      * apply known_files_setitem_get.
      * by destruct (cls_module cls).
      * by destruct (cls_module cls).
    + by eexists.
  - by eexists.
Qed.

(** ** File-system calls *)

Lemma node_at_set_fs f w p :
  node_at (set_fs f w) p = if always_there p then Some Dir else f (fs w) !! p.
Proof. done. Qed.

Lemma create_node_Ok p n w w' :
  create_node p n w = (Ok tt, w') → w' = set_fs <[p := n]> w.
Proof.
  unfold create_node. destruct (node_at w (parent p)) as [[|?]|]; congruence.
Qed.

Lemma append_line_Ok p l w w' :
  append_line p l w = (Ok tt, w') →
  always_there p = false
  ∧ w' = set_fs <[p := File (default [] (file_lines w p) ++ [l])]> w
  ∧ node_at w p ≠ Some Dir.
Proof.
  unfold append_line, file_lines.
  destruct (node_at w p) as [[|ls]|] eqn:E; [discriminate| |];
    intros Happ.
  - split_and!; [|simpl; congruence|done].
    unfold node_at in E. by destruct (always_there p).
  - apply create_node_Ok in Happ. split_and!; [|done..].
    unfold node_at in E. by destruct (always_there p).
Qed.

Lemma file_lines_insert_eq p ls w :
  always_there p = false →
  file_lines (set_fs <[p := File ls]> w) p = Some ls.
Proof.
  intros Hp. unfold file_lines. rewrite node_at_set_fs, Hp.
  by rewrite lookup_insert_eq.
Qed.

Lemma node_at_insert_ne p q n w :
  p ≠ q → node_at (set_fs <[p := n]> w) q = node_at w q.
Proof.
  intros Hne. rewrite node_at_set_fs. unfold node_at.
  destruct (always_there q); [done|]. by rewrite lookup_insert_ne.
Qed.

Lemma read_lines_file p w ls :
  file_lines w p = Some ls → read_lines p w = (Ok ls, w).
Proof.
  unfold file_lines, read_lines.
  destruct (node_at w p) as [[|?]|]; congruence.
Qed.

(** ** Cluster: append and replay *)

Lemma deref_Ok {A} (get : Heap → list A) self w o w' :
  deref get self w = (Ok o, w') ↔ w' = w ∧ get (heap w) !! self = Some o.
Proof.
  unfold deref. destruct (get (heap w) !! self);
    (split; [intros Heq | intros [-> Heq]]; inversion Heq; by subst).
Qed.

Lemma deref_heap {A} (get : Heap → list A) self w o :
  get (heap w) !! self = Some o → deref get self w = (Ok o, w).
Proof. intros Ho. by apply deref_Ok. Qed.

Lemma assign_Ok {A} (get : Heap → list A) set self f w w' :
  assign get set self f w = (Ok tt, w') →
  ∃ o, get (heap w) !! self = Some o
       ∧ w' = set_heap (set <[self := f o]>) w.
Proof.
  unfold assign. destruct (get (heap w) !! self) as [o|]; [|done].
  intros [= <-]. eauto.
Qed.

Lemma Cluster_location_Ok self w loc w' :
  Cluster_location self w = (Ok loc, w') ↔
  w' = w ∧ clusters (heap w) !! self = Some (ClusterObj loc).
Proof.
  unfold Cluster_location. split.
  - intros ([l] & w0 & [-> Hl]%deref_Ok & [= -> ->])%bind_Ok_inv. done.
  - intros [-> Hl]. by rewrite (bind_Ok _ _ _ _ _ (deref_heap _ _ _ _ Hl)).
Qed.

Lemma Cluster_append_Ok self key data w w' :
  Cluster_append self key data w = (Ok tt, w') →
  ∃ loc, clusters (heap w) !! self = Some (ClusterObj loc)
    ∧ always_there loc = false
    ∧ w' = set_fs <[loc := File (default [] (file_lines w loc) ++ [(key, data)])]> w.
Proof.
  unfold Cluster_append.
  intros (loc & w0 & [-> Hloc]%Cluster_location_Ok & Happ)%bind_Ok_inv.
  apply append_line_Ok in Happ as (? & ? & ?). eauto.
Qed.

Lemma dict_set_keys {K V} `{EqDecision K} (k : K) (v : V) (d : dict K V) :
  dict_keys (dict_set k v d)
  = if decide (k ∈ dict_keys d) then dict_keys d else dict_keys d ++ [k].
Proof.
  unfold dict_keys. induction d as [|[k' v'] d IH].
  - cbn [dict_set fmap list_fmap fst app].
    destruct (decide (k ∈ [])) as [Hin|]; [by apply not_elem_of_nil in Hin | done].
  - cbn [dict_set]. destruct (decide (k' = k)) as [->|Hne].
    + cbn [fmap list_fmap fst].
      destruct (decide (k ∈ k :: d.*1)) as [|Hnin]; [done|].
      exfalso. apply Hnin, elem_of_cons. by left.
    + cbn [fmap list_fmap fst] in *. rewrite IH.
      destruct (decide (k ∈ d.*1)) as [Hin|Hnin];
        destruct (decide (k ∈ k' :: d.*1)) as [Hin'|Hnin']; try done.
      * exfalso. apply Hnin', elem_of_cons. by right.
      * apply elem_of_cons in Hin' as [?|?]; congruence.
Qed.

Lemma dict_set_keys_NoDup {K V} `{EqDecision K} (k : K) (v : V) (d : dict K V) :
  NoDup (dict_keys d) → NoDup (dict_keys (dict_set k v d)).
Proof.
  intros Hd. rewrite dict_set_keys. destruct (decide _) as [|Hnin]; [done|].
  apply NoDup_app. split_and!; [done| |apply NoDup_singleton].
  intros x Hx ->%list_elem_of_singleton. done.
Qed.

Lemma entries_for_absent {K V} `{EqDecision K} (k : K) (d : dict K V) :
  k ∉ dict_keys d → entries_for k d = [].
Proof.
  unfold dict_keys, entries_for. induction d as [|[k1 v1] d IH]; [done|].
  cbn [fmap list_fmap fst]. intros [Hk1 Hk]%not_elem_of_cons.
  rewrite filter_cons_False by (simpl; congruence). by apply IH.
Qed.

Lemma entries_for_get {K V} `{EqDecision K} (k : K) (v : V) (d : dict K V) :
  NoDup (dict_keys d) → dict_get k d = Some v → entries_for k d = [(k, v)].
Proof.
  induction d as [|[k' v'] d IH]; [done|].
  unfold dict_keys. cbn [fmap list_fmap fst dict_get].
  intros [Hk' Hd]%NoDup_cons. unfold entries_for.
  destruct (decide (k' = k)) as [->|Hne].
  - intros [= ->]. rewrite filter_cons_True by done. f_equal.
    by apply entries_for_absent.
  - intros Hget. rewrite filter_cons_False by done. by apply IH.
Qed.

Lemma replay_from_keys_NoDup (lines : list Line) d :
  NoDup (dict_keys d) →
  NoDup (dict_keys (fold_left (λ mapping '(key, data), dict_set key data mapping) lines d)).
Proof.
  revert d. induction lines as [|[k v] lines IH]; simpl; intros d Hd; [done|].
  apply IH. by apply dict_set_keys_NoDup.
Qed.

Lemma replay_from_get (lines : list Line) d k :
  dict_get k (fold_left (λ mapping '(key, data), dict_set key data mapping) lines d)
  = match last_write k lines with
    | Some v => Some v
    | None => dict_get k d
    end.
Proof.
  unfold last_write. revert d.
  induction lines as [|[k' v'] lines IH]; intros d; [done|].
  cbn [fold_left]. rewrite IH. destruct (decide (k' = k)) as [->|Hne].
  - rewrite filter_cons_True by done. rewrite dict_get_set_eq.
    cbn [fmap list_fmap snd]. rewrite last_cons.
    by destruct (last _).
  - rewrite filter_cons_False by done.
    by rewrite dict_get_set_ne.
Qed.

Lemma replay_keys_NoDup lines : NoDup (dict_keys (replay lines)).
Proof. apply replay_from_keys_NoDup. apply NoDup_nil_2. Qed.

Lemma replay_get lines k : dict_get k (replay lines) = last_write k lines.
Proof.
  unfold replay. rewrite replay_from_get. by destruct (last_write k lines).
Qed.

Lemma last_write_app_same lines k v1 v2 :
  last_write k (lines ++ [(k, v1); (k, v2)]) = Some v2.
Proof.
  unfold last_write. rewrite filter_app, fmap_app.
  rewrite !filter_cons_True by done. rewrite filter_nil.
  cbn [fmap list_fmap snd]. by rewrite last_app_cons.
Qed.

Lemma Cluster_location_heap self w loc :
  clusters (heap w) !! self = Some (ClusterObj loc) →
  Cluster_location self w = (Ok loc, w).
Proof. intros Hl. by apply Cluster_location_Ok. Qed.

Lemma Cluster_load_all_file self w loc lines :
  clusters (heap w) !! self = Some (ClusterObj loc) →
  file_lines w loc = Some lines →
  Cluster_load_all self w = (Ok (replay lines), w).
Proof.
  intros Hloc Hlines. unfold Cluster_load_all.
  rewrite (bind_Ok _ _ _ _ _ (Cluster_location_heap _ _ _ Hloc)).
  by rewrite (bind_Ok _ _ _ _ _ (read_lines_file _ _ _ Hlines)).
Qed.

(** C1: [load_all] replays the file from its first line; every key of the
    mapping it returns occurs once and carries the record of the last line
    written under that key.  After two appends under the same key, the
    mapping has exactly one entry for that key, with the second record. *)
Theorem load_all_last_write_wins cluster key v1 v2 w w1 w2 :
  Cluster_append cluster key v1 w = (Ok tt, w1) →
  Cluster_append cluster key v2 w1 = (Ok tt, w2) →
  ∃ loc lines mapping,
    clusters (heap w) !! cluster = Some (ClusterObj loc)
    ∧ lines = default [] (file_lines w loc) ++ [(key, v1); (key, v2)]
    ∧ file_lines w2 loc = Some lines
    ∧ Cluster_load_all cluster w2 = (Ok mapping, w2)
    ∧ mapping = replay lines
    ∧ NoDup (dict_keys mapping)
    ∧ (∀ k, dict_get k mapping = last_write k lines)
    ∧ entries_for key mapping = [(key, v2)].
Proof.
  intros (loc & Hloc & Hp & ->)%Cluster_append_Ok
         (loc' & Hloc' & _ & ->)%Cluster_append_Ok.
  simpl in Hloc'. rewrite Hloc in Hloc'. injection Hloc' as <-.
  rewrite file_lines_insert_eq by done. simpl.
  set (lines := default [] (file_lines w loc) ++ [(key, v1); (key, v2)]).
  assert (Hfile : file_lines
    (set_fs <[loc := File ((default [] (file_lines w loc) ++ [(key, v1)]) ++ [(key, v2)])]>
       (set_fs <[loc := File (default [] (file_lines w loc) ++ [(key, v1)])]> w)) loc
    = Some lines).
  { rewrite file_lines_insert_eq by done. unfold lines. by rewrite <- app_assoc. }
  exists loc, lines, (replay lines). split_and!; try done.
  - by apply Cluster_load_all_file with loc.
  - apply replay_keys_NoDup.
  - apply replay_get.
  - apply entries_for_get; [apply replay_keys_NoDup|].
    rewrite replay_get. apply last_write_app_same.
Qed.

(** ** Catalog: point lookup and range filter *)

Lemma Catalog_get_loop self model key cluster w :
  Catalog_get self model key cluster w
  = (d ← Catalog_cluster_data self model cluster; lift (get_loop model key d)) w.
Proof.
  unfold Catalog_get, Catalog_cluster_data, mbind, M_bind.
  destruct (Catalog_find_model_collection self model w) as [[c|e] w1]; [|done].
  destruct (clusters_of c w1) as [[cs|e] w2]; [|done].
  destruct (ClusterRegistry_get cs (cluster_or_default cluster) w2) as [[cl|e] w3];
    [|done].
  by destruct (Cluster_load_all cl w3) as [[d|e] w4].
Qed.

Lemma Catalog_filter_loop self model key_start key_end cluster w :
  Catalog_filter self model key_start key_end cluster w
  = (d ← Catalog_cluster_data self model cluster;
     mret (filter_loop model key_start key_end d)) w.
Proof.
  unfold Catalog_filter, Catalog_cluster_data, mbind, M_bind.
  destruct (Catalog_find_model_collection self model w) as [[c|e] w1]; [|done].
  destruct (clusters_of c w1) as [[cs|e] w2]; [|done].
  destruct (ClusterRegistry_get cs (cluster_or_default cluster) w2) as [[cl|e] w3];
    [|done].
  by destruct (Cluster_load_all cl w3) as [[d|e] w4].
Qed.

Lemma get_loop_first model key d i data :
  d !! i = Some (key, data) →
  (∀ j entry, d !! j = Some entry → j < i → entry.1 ≠ key) →
  get_loop model key d = returned model data.
Proof.
  revert i. induction d as [|[k0 d0] d IH]; intros i Hi Hfirst; [done|].
  cbn [get_loop]. destruct i as [|i].
  - injection Hi as -> ->. by rewrite decide_True.
  - rewrite decide_False.
    + apply (IH i); [done|]. intros j entry Hj Hlt.
      apply (Hfirst (S j) entry); [done | lia].
    + apply (Hfirst 0 (k0, d0)); [done | lia].
Qed.

Lemma get_loop_absent model key d :
  (∀ entry, entry ∈ d → entry.1 ≠ key) → get_loop model key d = Ok None.
Proof.
  induction d as [|[k0 d0] d IH]; intros Hd; [done|].
  cbn [get_loop]. rewrite decide_False.
  - apply IH. intros entry Hin. apply Hd. by apply elem_of_cons; right.
  - apply (Hd (k0, d0)). apply elem_of_cons; by left.
Qed.

Lemma get_loop_cases model key d :
  get_loop model key d = Ok None
  ∨ ∃ data, (key, data) ∈ d ∧ get_loop model key d = returned model data.
Proof.
  induction d as [|[k0 d0] d IH]; [by left|]. cbn [get_loop].
  destruct (decide (k0 = key)) as [->|Hne].
  - right. exists d0. split; [apply elem_of_cons; by left | done].
  - destruct IH as [IH|(data & Hin & IH)]; [by left|].
    right. exists data. split; [apply elem_of_cons; by right | done].
Qed.

(** C4: once the cluster of the model has been loaded as the mapping [d],
    [get] returns the decoded record of the first entry of [d], in
    iteration order, whose key equals the requested key, and returns [None]
    when no entry has that key; it never returns anything else. *)
Theorem Catalog_get_first_match self model key cluster w d w' :
  Catalog_cluster_data self model cluster w = (Ok d, w') →
  (∀ i data,
     d !! i = Some (key, data) →
     (∀ j entry, d !! j = Some entry → j < i → entry.1 ≠ key) →
     Catalog_get self model key cluster w = (returned model data, w'))
  ∧ ((∀ entry, entry ∈ d → entry.1 ≠ key) →
     Catalog_get self model key cluster w = (Ok None, w'))
  ∧ (Catalog_get self model key cluster w = (Ok None, w')
     ∨ ∃ data, (key, data) ∈ d
         ∧ Catalog_get self model key cluster w = (returned model data, w')).
Proof.
  intros Hd. split_and!.
  - intros i data Hi Hfirst.
    rewrite Catalog_get_loop, (bind_Ok _ _ _ _ _ Hd). unfold lift.
    by rewrite (get_loop_first _ _ _ _ _ Hi Hfirst).
  - intros Habsent.
    rewrite Catalog_get_loop, (bind_Ok _ _ _ _ _ Hd). unfold lift.
    by rewrite get_loop_absent.
  - rewrite Catalog_get_loop, (bind_Ok _ _ _ _ _ Hd). unfold lift.
    destruct (get_loop_cases model key d) as [->|(data & Hin & ->)];
      [by left | right; by exists data].
Qed.

Lemma filter_loop_string_keys model key_start key_end d :
  all_keys_are_strings d = true →
  filter_loop model key_start key_end d
  = decode_all model (range_records key_start key_end d).
Proof.
  unfold all_keys_are_strings, range_records, in_range.
  induction d as [|[[k|] data] d IH]; [done| |].
  - cbn [forallb filter_loop omap list_omap]. intros [_ Hd]%andb_prop.
    destruct (str_le key_start k && str_le k key_end).
    + cbn [decode_all]. rewrite IH by done. by destruct (from_tuple model data).
    + by apply IH.
  - cbn [forallb]. intros [Hk _]%andb_prop.
    apply bool_decide_eq_true in Hk. by destruct Hk.
Qed.

Lemma range_records_elem key_start key_end d data :
  data ∈ range_records key_start key_end d
  ↔ ∃ k, (Some k, data) ∈ d
         ∧ str_le key_start k = true ∧ str_le k key_end = true.
Proof.
  unfold range_records, in_range. rewrite list_elem_of_omap. split.
  - intros ([[k|] data'] & Hin & Heq); [|done].
    destruct (str_le key_start k && str_le k key_end) eqn:E; [|done].
    injection Heq as ->. apply andb_prop in E as [? ?]. by exists k.
  - intros (k & Hin & H1 & H2). exists (Some k, data).
    split; [done|]. by rewrite H1, H2.
Qed.

Lemma decode_all_total model records :
  Forall (λ data, ∃ item, from_tuple model data = Ok item) records →
  (decode_all model records).2 = None
  ∧ Forall2 (λ item data, from_tuple model data = Ok item)
      (decode_all model records).1 records.
Proof.
  induction 1 as [|data records [item Hitem] _ [IH1 IH2]]; [by split|].
  cbn [decode_all]. rewrite Hitem. split; [done|]. by apply Forall2_cons.
Qed.

(** C3 (amended): once the cluster of the model has been loaded as a
    mapping [d] whose keys are all strings, [filter] yields, in the order
    of [d], the decoded records of exactly the entries whose key [k]
    satisfies [key_start <= k <= key_end] as strings, both bounds
    inclusive; when all of them decode, nothing else happens. *)
Theorem Catalog_filter_string_range self model key_start key_end cluster w d w' :
  Catalog_cluster_data self model cluster w = (Ok d, w') →
  all_keys_are_strings d = true →
  let records := range_records key_start key_end d in
  Catalog_filter self model key_start key_end cluster w
  = (Ok (decode_all model records), w')
  ∧ (∀ data, data ∈ records
       ↔ ∃ k, (Some k, data) ∈ d
              ∧ str_le key_start k = true ∧ str_le k key_end = true)
  ∧ (Forall (λ data, ∃ item, from_tuple model data = Ok item) records →
     (decode_all model records).2 = None
     ∧ Forall2 (λ item data, from_tuple model data = Ok item)
         (decode_all model records).1 records).
Proof.
  intros Hd Hkeys records. split_and!.
  - rewrite Catalog_filter_loop, (bind_Ok _ _ _ _ _ Hd).
    unfold mret, M_ret. by rewrite filter_loop_string_keys.
  - apply range_records_elem.
  - apply decode_all_total.
Qed.

(** ** Registry *)

Lemma Registry_resources_Ok cls self w d w' :
  Registry_resources cls self w = (Ok d, w') ↔
  w' = w ∧ registry_resources cls w self = Some d.
Proof.
  unfold Registry_resources, registry_resources. destruct cls; split.
  - intros ([d0 f] & w0 & [-> Ho]%deref_Ok & [= -> ->])%bind_Ok_inv.
    by rewrite Ho.
  - intros [-> Ho]. destruct (cluster_registries (heap w) !! self) as [[d0 f]|] eqn:E;
      [|done]. injection Ho as ->.
    by rewrite (bind_Ok _ _ _ _ _ (deref_heap _ _ _ _ E)).
  - intros ([d0 f] & w0 & [-> Ho]%deref_Ok & [= -> ->])%bind_Ok_inv.
    by rewrite Ho.
  - intros [-> Ho].
    destruct (collection_registries (heap w) !! self) as [[d0 f]|] eqn:E; [|done].
    injection Ho as ->.
    by rewrite (bind_Ok _ _ _ _ _ (deref_heap _ _ _ _ E)).
Qed.

Lemma Registry_setitem_Ok cls self slug r w w' :
  Registry_setitem cls self slug r w = (Ok tt, w') →
  ∃ d, registry_resources cls w self = Some d
       ∧ registry_resources cls w' self = Some (dict_set slug r d)
       ∧ fs w' = fs w.
Proof.
  unfold Registry_setitem, registry_resources.
  destruct cls; intros ([d f] & Ho & ->)%assign_Ok; exists d; rewrite Ho; simpl;
    (rewrite list_lookup_insert_eq by (by eapply lookup_lt_Some)); done.
Qed.

Lemma Registry_get_hit cls create self name w d r :
  registry_resources cls w self = Some d →
  dict_get (slugify name) d = Some r →
  Registry_get cls create self name w = (Ok r, w).
Proof.
  intros Hd Hr. unfold Registry_get.
  assert (Hres : Registry_resources cls self w = (Ok d, w))
    by by apply Registry_resources_Ok.
  rewrite (bind_Ok _ _ _ _ _ Hres). by rewrite Hr.
Qed.

Lemma Registry_get_Ok cls create self name w r w' :
  Registry_get cls create self name w = (Ok r, w') →
  ∃ d, registry_resources cls w self = Some d
    ∧ match dict_get (slugify name) d with
      | Some r0 => r = r0 ∧ w' = w
      | None => ∃ wc, create self (slugify name) w = (Ok r, wc)
                      ∧ Registry_setitem cls self (slugify name) r wc = (Ok tt, w')
      end.
Proof.
  unfold Registry_get.
  intros (d & w0 & [-> Hd]%Registry_resources_Ok & Hrest)%bind_Ok_inv.
  exists d. split; [done|].
  destruct (dict_get (slugify name) d) as [r0|].
  - by injection Hrest as -> ->.
  - apply bind_Ok_inv in Hrest as (r' & wc & Hcreate & Hrest).
    apply bind_Ok_inv in Hrest as ([] & w1 & Hset & Hret).
    injection Hret as -> ->. eauto.
Qed.

Lemma Registry_get_stored cls create self name w r w' :
  Registry_get cls create self name w = (Ok r, w') →
  registered cls w' self (slugify name) = Some r.
Proof.
  intros (d & Hd & Hcase)%Registry_get_Ok. unfold registered.
  destruct (dict_get (slugify name) d) as [r0|] eqn:Hget.
  - destruct Hcase as [-> ->]. by rewrite Hd.
  - destruct Hcase as (wc & _ & (dc & _ & -> & _)%Registry_setitem_Ok).
    simpl. apply dict_get_set_eq.
Qed.

(** C5: [get] returns the memoized resource when the slug has one, and
    the world is then untouched; otherwise it runs [create] once on the
    slug, stores what it returned under the slug and returns it.  After a
    successful [get], the slug holds that resource, a second [get] under
    any name with the same slug returns the identical reference without
    changing anything, and the registry has one entry for the slug. *)
Theorem Registry_get_memoizes cls (create : ref → string → M ref)
    self name1 name2 w r w1 :
  slugify name1 = slugify name2 →
  Registry_get cls create self name1 w = (Ok r, w1) →
  let slug := slugify name1 in
  (∀ r0, registered cls w self slug = Some r0 → r = r0 ∧ w1 = w)
  ∧ (registered cls w self slug = None →
     ∃ wc, create self slug w = (Ok r, wc)
           ∧ Registry_setitem cls self slug r wc = (Ok tt, w1))
  ∧ registered cls w1 self slug = Some r
  ∧ Registry_get cls create self name2 w1 = (Ok r, w1)
  ∧ (∀ d1, registry_resources cls w1 self = Some d1 →
           NoDup (dict_keys d1) → entries_for slug d1 = [(slug, r)]).
Proof.
  intros Hslug Hget slug.
  pose proof (Registry_get_stored _ _ _ _ _ _ _ Hget) as Hstored.
  fold slug in Hstored.
  apply Registry_get_Ok in Hget as (d & Hd & Hcase). fold slug in Hcase.
  split_and!; [| |done| |].
  - unfold registered. rewrite Hd. simpl. intros r0 Hr0.
    rewrite Hr0 in Hcase. by destruct Hcase as [-> ->].
  - unfold registered. rewrite Hd. simpl. intros Hnone.
    by rewrite Hnone in Hcase.
  - unfold registered in Hstored.
    destruct (registry_resources cls w1 self) as [d1|] eqn:Hd1; [|done].
    apply Registry_get_hit with d1; [done|]. by rewrite <- Hslug.
  - intros d1 Hd1 Hnodup. unfold registered in Hstored. rewrite Hd1 in Hstored.
    by apply entries_for_get.
Qed.

(** ** The tables of descriptor classes *)

Lemma dict_get_elem_of {K V} `{EqDecision K} (k : K) (v : V) (d : dict K V) :
  dict_get k d = Some v → (k, v) ∈ d.
Proof.
  induction d as [|[k' v'] d IH]; [done|]. cbn [dict_get].
  destruct (decide (k' = k)) as [->|Hne].
  - intros [= ->]. apply elem_of_cons. by left.
  - intros Hget. apply elem_of_cons. right. by apply IH.
Qed.

Lemma class_statement_table base body w cls w' :
  class_statement base body w = (Ok cls, w') →
  ∃ name, cls_name cls = Some name
    ∧ known_files (cls_module cls) w'
      = dict_set name cls (known_files (cls_module cls) w)
    ∧ ∀ m, m ≠ cls_module cls → known_files m w' = known_files m w.
Proof.
  unfold class_statement, DeclaredFile_init_subclass.
  intros ([] & w1 & Hinit & Hret)%bind_Ok_inv. injection Hret as <- <-.
  destruct (cls_name (derive base body)) as [name|] eqn:En; [|done].
  destruct (cls_model (derive base body)) as [model|]; [|done].
  injection Hinit as <-. exists name. split; [done|].
  change (cls_module (derive base body)) with (cls_module base).
  destruct (cls_module base); simpl; (split; [done|]); by intros [].
Qed.

(** C7 (amended): [store.py] and [catalog.py] each keep a table of their
    own.  A class statement enters the class once, under its name, in the
    table of the [DeclaredFile] it derives from and leaves the other table
    alone.  After the import, each table lists the five classes of its own
    module, each found under its name; [Store.ingest_all] runs over the
    table of [store.py] and [Catalog.ingest_all] over that of
    [catalog.py]. *)
Theorem known_files_per_module ns w0 :
  store_known_files w0 = [] →
  catalog_known_files w0 = [] →
  (∀ base body w cls w',
     class_statement base body w = (Ok cls, w') →
     ∃ name, cls_name cls = Some name
       ∧ known_files (cls_module cls) w'
         = dict_set name cls (known_files (cls_module cls) w)
       ∧ ∀ m, m ≠ cls_module cls → known_files m w' = known_files m w)
  ∧ ∃ w,
    import_catalog w0 = (Ok tt, w)
    ∧ fs w = fs w0 ∧ heap w = heap w0
    ∧ (∀ m, known_files m w = module_table m)
    ∧ (∀ m body, body ∈ declared_bodies →
         let cls := derive (DeclaredFile m) body in
         ∃ name, cls_name cls = Some name
                 ∧ dict_get name (known_files m w) = Some cls)
    ∧ (∀ self data_folder,
         Store_ingest_all self data_folder w
         = Store_ingest_table (known_files store_py w) self data_folder w)
    ∧ (∀ self store csv_folder,
         Catalog_store self w = (Ok store, w) →
         Catalog_ingest_all ns self (Some csv_folder) w
         = (_ ← Catalog_ingest_table ns (known_files catalog_py w) store csv_folder;
            Store_flush ns store) w).
Proof.
  intros Hs Hc. split; [apply class_statement_table|].
  destruct w0 as [f h st ct]. simpl in Hs, Hc. subst st ct.
  exists (mkWorld f h (module_table store_py) (module_table catalog_py)).
  split_and!; try done.
  - by intros [].
  - intros m body Hin cls. subst cls.
    unfold declared_bodies in Hin. rewrite !elem_of_cons in Hin.
    destruct Hin as [->|[->|[->|[->|[->|Hin]]]]];
      [| | | | |by apply not_elem_of_nil in Hin];
      destruct m; eexists; (split; [reflexivity|]); reflexivity.
  - intros self store csv_folder Hstore. unfold Catalog_ingest_all.
    rewrite (bind_Ok _ _ _ _ _ Hstore). reflexivity.
Qed.

(** ** Effects of the registries on the world *)

Lemma Path_touch_Ok p w w' :
  Path_touch p w = (Ok tt, w') → w' = ensure_node p (File []) w.
Proof.
  unfold Path_touch, ensure_node. destruct (node_at w p); [congruence|].
  apply create_node_Ok.
Qed.

Lemma Path_mkdir_Ok p w w' :
  Path_mkdir p w = (Ok tt, w') → w' = ensure_node p Dir w.
Proof.
  unfold Path_mkdir, ensure_node. destruct (node_at w p) as [[|?]|];
    [congruence|discriminate|]. apply create_node_Ok.
Qed.

Lemma ensure_node_heap p n w : heap (ensure_node p n w) = heap w.
Proof. unfold ensure_node. by destruct (node_at w p). Qed.

Lemma ensure_node_store_known_files p n w :
  store_known_files (ensure_node p n w) = store_known_files w.
Proof. unfold ensure_node. by destruct (node_at w p). Qed.

Lemma ensure_node_catalog_known_files p n w :
  catalog_known_files (ensure_node p n w) = catalog_known_files w.
Proof. unfold ensure_node. by destruct (node_at w p). Qed.

Lemma ensure_node_keeps p n w q x :
  node_at w q = Some x → node_at (ensure_node p n w) q = Some x.
Proof.
  unfold ensure_node. destruct (node_at w p) eqn:Ep; [done|].
  intros Hq. rewrite node_at_insert_ne; [done|]. congruence.
Qed.

Lemma ensure_node_at p n w :
  node_at w p = None → node_at (ensure_node p n w) p = Some n.
Proof.
  intros Hp. unfold ensure_node. rewrite Hp, node_at_set_fs.
  unfold node_at in Hp. destruct (always_there p); [done|].
  by rewrite lookup_insert_eq.
Qed.

Lemma ensure_node_other p n w q :
  p ≠ q → node_at (ensure_node p n w) q = node_at w q.
Proof.
  intros Hne. unfold ensure_node. destruct (node_at w p); [done|].
  by apply node_at_insert_ne.
Qed.

Lemma ensure_node_lines p n w q :
  n = Dir ∨ n = File [] →
  default [] (file_lines (ensure_node p n w) q) = default [] (file_lines w q).
Proof.
  intros Hn. unfold file_lines. destruct (node_at w q) as [x|] eqn:Eq.
  - by rewrite (ensure_node_keeps _ _ _ _ _ Eq).
  - destruct (decide (p = q)) as [->|Hne].
    + rewrite ensure_node_at by done. by destruct Hn as [-> | ->].
    + by rewrite ensure_node_other, Eq.
Qed.

Lemma file_lines_set_heap f w p : file_lines (set_heap f w) p = file_lines w p.
Proof. done. Qed.

Lemma ClusterRegistry_create_Ok self slug w r w' :
  ClusterRegistry_create self slug w = (Ok r, w') →
  ∃ d folder,
    cluster_registries (heap w) !! self = Some (ClusterRegistryObj d folder)
    ∧ r = length (clusters (heap w))
    ∧ w' = ensure_node (joinpath folder (slug +:+ ".dat")) (File [])
             (set_heap (set_clusters (λ objs,
                objs ++ [ClusterObj (joinpath folder (slug +:+ ".dat"))])) w).
Proof.
  unfold ClusterRegistry_create, ClusterRegistry_folder, Cluster_new, Cluster_touch.
  intros (folder & w0 & Hfolder & Hrest)%bind_Ok_inv.
  apply bind_Ok_inv in Hfolder as ([d f] & w00 & [-> Ho]%deref_Ok & [= -> ->]).
  apply bind_Ok_inv in Hrest as (cl & w1 & [= <- <-] & Hrest).
  apply bind_Ok_inv in Hrest as ([] & w2 & Htouch & [= <- <-]).
  apply bind_Ok_inv in Htouch as (loc & w3 & [-> Hloc]%Cluster_location_Ok & Htouch).
  simpl in Hloc. rewrite lookup_app_r, Nat.sub_diag in Hloc by done.
  injection Hloc as <-. apply Path_touch_Ok in Htouch. eauto.
Qed.

Lemma ClusterRegistry_get_Ok self name w r w' :
  ClusterRegistry_get self name w = (Ok r, w') →
  ∃ d folder,
    cluster_registries (heap w) !! self = Some (ClusterRegistryObj d folder)
    ∧ match dict_get (slugify name) d with
      | Some r0 => r = r0 ∧ w' = w
      | None =>
          let loc := joinpath folder (slugify name +:+ ".dat") in
          r = length (clusters (heap w))
          ∧ w' = set_heap (set_cluster_registries
                   <[self := ClusterRegistryObj (dict_set (slugify name) r d) folder]>)
                   (ensure_node loc (File [])
                      (set_heap (set_clusters (λ objs, objs ++ [ClusterObj loc])) w))
      end.
Proof.
  intros (d & Hd & Hcase)%Registry_get_Ok.
  unfold registry_resources in Hd.
  destruct (cluster_registries (heap w) !! self) as [[d0 folder]|] eqn:Ho; [|done].
  injection Hd as ->. exists d, folder. split; [done|].
  destruct (dict_get (slugify name) d); [done|].
  destruct Hcase as (wc & Hcreate & Hset).
  apply ClusterRegistry_create_Ok in Hcreate as (d' & folder' & Ho' & -> & ->).
  rewrite Ho in Ho'. injection Ho' as <- <-.
  unfold Registry_setitem in Hset. apply assign_Ok in Hset as (o & Ho' & ->).
  rewrite ensure_node_heap in Ho'. simpl in Ho'. rewrite Ho in Ho'.
  injection Ho' as <-. done.
Qed.

Lemma CollectionRegistry_create_Ok self slug w r w' :
  CollectionRegistry_create self slug w = (Ok r, w') →
  ∃ d root,
    collection_registries (heap w) !! self = Some (CollectionRegistryObj d root)
    ∧ r = length (collections (heap w))
    ∧ w' = ensure_node (joinpath root slug) Dir
             (set_heap (set_collections (λ objs,
                  objs ++ [CollectionObj (joinpath root slug)
                             (length (cluster_registries (heap w)))]))
                (set_heap (set_cluster_registries (λ objs,
                   objs ++ [ClusterRegistryObj [] (joinpath root slug)])) w)).
Proof.
  unfold CollectionRegistry_create, CollectionRegistry_root, Collection_new,
    ClusterRegistry_new, Collection_touch, Collection_folder.
  intros (root & w0 & Hroot & Hrest)%bind_Ok_inv.
  apply bind_Ok_inv in Hroot as ([d f] & w00 & [-> Ho]%deref_Ok & [= -> ->]).
  apply bind_Ok_inv in Hrest as (c & w1 & Hnew & Hrest).
  apply bind_Ok_inv in Hnew as (cr & w2 & [= <- <-] & [= <- <-]).
  apply bind_Ok_inv in Hrest as ([] & w3 & Htouch & [= <- <-]).
  apply bind_Ok_inv in Htouch as (folder & w4 & Hfolder & Hmk).
  apply bind_Ok_inv in Hfolder as ([f' cr'] & w5 & [-> Hc]%deref_Ok & [= <- <-]).
  simpl in Hc. rewrite lookup_app_r, Nat.sub_diag in Hc by done.
  injection Hc as <- <-. apply Path_mkdir_Ok in Hmk. eauto.
Qed.

Lemma CollectionRegistry_get_Ok self name w r w' :
  CollectionRegistry_get self name w = (Ok r, w') →
  ∃ d root,
    collection_registries (heap w) !! self = Some (CollectionRegistryObj d root)
    ∧ match dict_get (slugify name) d with
      | Some r0 => r = r0 ∧ w' = w
      | None =>
          let folder := joinpath root (slugify name) in
          r = length (collections (heap w))
          ∧ w' = set_heap (set_collection_registries
                   <[self := CollectionRegistryObj (dict_set (slugify name) r d) root]>)
                   (ensure_node folder Dir
                      (set_heap (set_collections (λ objs,
                           objs ++ [CollectionObj folder
                                      (length (cluster_registries (heap w)))]))
                         (set_heap (set_cluster_registries (λ objs,
                            objs ++ [ClusterRegistryObj [] folder])) w)))
      end.
Proof.
  intros (d & Hd & Hcase)%Registry_get_Ok.
  unfold registry_resources in Hd.
  destruct (collection_registries (heap w) !! self) as [[d0 root]|] eqn:Ho; [|done].
  injection Hd as ->. exists d, root. split; [done|].
  destruct (dict_get (slugify name) d); [done|].
  destruct Hcase as (wc & Hcreate & Hset).
  apply CollectionRegistry_create_Ok in Hcreate as (d' & root' & Ho' & -> & ->).
  rewrite Ho in Ho'. injection Ho' as <- <-.
  unfold Registry_setitem in Hset. apply assign_Ok in Hset as (o & Ho' & ->).
  rewrite ensure_node_heap in Ho'. simpl in Ho'. rewrite Ho in Ho'.
  injection Ho' as <-. done.
Qed.

Lemma files_grow_refl w : files_grow w w.
Proof. intros p lines Hp. exists []. by rewrite app_nil_r. Qed.

Lemma files_grow_trans w1 w2 w3 :
  files_grow w1 w2 → files_grow w2 w3 → files_grow w1 w3.
Proof.
  intros H12 H23 p lines Hp.
  destruct (H12 p lines Hp) as (more & Hp2).
  destruct (H23 p _ Hp2) as (more' & Hp3).
  exists (more ++ more'). by rewrite app_assoc.
Qed.

Lemma files_grow_keeps w w' :
  (∀ p x, node_at w p = Some x → node_at w' p = Some x) → files_grow w w'.
Proof.
  intros Hkeep p lines Hp. exists []. rewrite app_nil_r.
  unfold file_lines in *. destruct (node_at w p) as [[|ls]|] eqn:E; try done.
  by rewrite (Hkeep _ _ E).
Qed.

Lemma node_at_set_heap f w p : node_at (set_heap f w) p = node_at w p.
Proof. done. Qed.

Lemma CollectionRegistry_get_frame self name w r w' :
  CollectionRegistry_get self name w = (Ok r, w') →
  registered CollectionRegistryClass w' self (slugify name) = Some r
  ∧ stores (heap w') = stores (heap w)
  ∧ catalogs (heap w') = catalogs (heap w)
  ∧ clusters (heap w') = clusters (heap w)
  ∧ store_known_files w' = store_known_files w
  ∧ catalog_known_files w' = catalog_known_files w
  ∧ (∀ p x, node_at w p = Some x → node_at w' p = Some x)
  ∧ (∀ p, default [] (file_lines w' p) = default [] (file_lines w p)).
Proof.
  intros Hget. split; [by eapply Registry_get_stored|].
  apply CollectionRegistry_get_Ok in Hget as (d & root & Ho & Hcase).
  destruct (dict_get (slugify name) d) as [r0|].
  - destruct Hcase as [-> ->]. done.
  - destruct Hcase as [-> ->]. split_and!.
    + simpl. by rewrite ensure_node_heap.
    + simpl. by rewrite ensure_node_heap.
    + simpl. by rewrite ensure_node_heap.
    + simpl. by rewrite ensure_node_store_known_files.
    + simpl. by rewrite ensure_node_catalog_known_files.
    + intros p x Hp. rewrite node_at_set_heap. by apply ensure_node_keeps.
    + intros p. rewrite file_lines_set_heap, ensure_node_lines by auto. done.
Qed.

Lemma ClusterRegistry_get_frame self name w r w' :
  ClusterRegistry_get self name w = (Ok r, w') →
  registered ClusterRegistryClass w' self (slugify name) = Some r
  ∧ stores (heap w') = stores (heap w)
  ∧ catalogs (heap w') = catalogs (heap w)
  ∧ collections (heap w') = collections (heap w)
  ∧ collection_registries (heap w') = collection_registries (heap w)
  ∧ (∀ cl o, clusters (heap w) !! cl = Some o → clusters (heap w') !! cl = Some o)
  ∧ store_known_files w' = store_known_files w
  ∧ catalog_known_files w' = catalog_known_files w
  ∧ (∀ p x, node_at w p = Some x → node_at w' p = Some x)
  ∧ (∀ p, default [] (file_lines w' p) = default [] (file_lines w p)).
Proof.
  intros Hget. split; [by eapply Registry_get_stored|].
  apply ClusterRegistry_get_Ok in Hget as (d & folder & Ho & Hcase).
  destruct (dict_get (slugify name) d) as [r0|].
  - destruct Hcase as [-> ->]. done.
  - destruct Hcase as [-> ->]. split_and!.
    + simpl. by rewrite ensure_node_heap.
    + simpl. by rewrite ensure_node_heap.
    + simpl. by rewrite ensure_node_heap.
    + simpl. by rewrite ensure_node_heap.
    + intros cl o Hcl. simpl. rewrite ensure_node_heap. simpl.
      by apply lookup_app_l_Some.
    + simpl. by rewrite ensure_node_store_known_files.
    + simpl. by rewrite ensure_node_catalog_known_files.
    + intros p x Hp. rewrite node_at_set_heap. by apply ensure_node_keeps.
    + intros p. rewrite file_lines_set_heap, ensure_node_lines by auto. done.
Qed.

Lemma Store_collections_Ok self w colls w' :
  Store_collections self w = (Ok colls, w') ↔
  w' = w ∧ store_collections_of w self = Some colls.
Proof.
  unfold Store_collections, store_collections_of. split.
  - intros ([root c] & w0 & [-> Ho]%deref_Ok & [= -> ->])%bind_Ok_inv.
    by rewrite Ho.
  - intros [-> Ho]. destruct (stores (heap w) !! self) as [[root c]|] eqn:E; [|done].
    injection Ho as ->. by rewrite (bind_Ok _ _ _ _ _ (deref_heap _ _ _ _ E)).
Qed.

Lemma Collection_clusters_Ok self w cr w' :
  Collection_clusters self w = (Ok cr, w') ↔
  w' = w ∧ collection_clusters_of w self = Some cr.
Proof.
  unfold Collection_clusters, collection_clusters_of. split.
  - intros ([folder c] & w0 & [-> Ho]%deref_Ok & [= -> ->])%bind_Ok_inv.
    by rewrite Ho.
  - intros [-> Ho].
    destruct (collections (heap w) !! self) as [[folder c]|] eqn:E; [|done].
    injection Ho as ->. by rewrite (bind_Ok _ _ _ _ _ (deref_heap _ _ _ _ E)).
Qed.

Lemma cluster_file_set_fs f w store collection_slug cluster_slug :
  cluster_file (set_fs f w) store collection_slug cluster_slug
  = cluster_file w store collection_slug cluster_slug.
Proof. done. Qed.

Lemma cluster_file_intro w store colls collection_slug c cr cluster_slug cl loc :
  store_collections_of w store = Some colls →
  registered CollectionRegistryClass w colls collection_slug = Some c →
  collection_clusters_of w c = Some cr →
  registered ClusterRegistryClass w cr cluster_slug = Some cl →
  cluster_location_of w cl = Some loc →
  cluster_file w store collection_slug cluster_slug = Some loc.
Proof.
  intros Hcolls Hc Hcr Hcl Hloc. unfold cluster_file.
  rewrite Hcolls. simpl. rewrite Hc. simpl. rewrite Hcr. simpl.
  rewrite Hcl. simpl. done.
Qed.

(** What a successful [store_item] leaves behind: the record is the last
    line of the file of the cluster it resolved, every other file is as it
    was, and no file lost a line. *)
Lemma Store_store_item_Ok self item collection cluster key w w' :
  Store_store_item self item collection cluster key w = (Ok tt, w') →
  let cluster_name := match cluster with None => "unique" | Some c => c end in
  ∃ loc,
    cluster_file w' self (slugify collection) (slugify cluster_name) = Some loc
    ∧ file_lines w' loc
      = Some (default [] (file_lines w loc) ++ [(key, to_dict item)])
    ∧ (∀ p, p ≠ loc → default [] (file_lines w' p) = default [] (file_lines w p))
    ∧ files_grow w w'
    ∧ store_known_files w' = store_known_files w
    ∧ catalog_known_files w' = catalog_known_files w
    ∧ stores (heap w') = stores (heap w)
    ∧ catalogs (heap w') = catalogs (heap w).
Proof.
  intros Hrun cluster_name. unfold Store_store_item in Hrun.
  fold cluster_name in Hrun.
  apply bind_Ok_inv in Hrun as (colls & w0 & [-> Hcolls]%Store_collections_Ok & Hrun).
  apply bind_Ok_inv in Hrun as (c & w1 & Hc & Hrun).
  apply CollectionRegistry_get_frame in Hc
    as (Hc & Hst1 & Hcat1 & _ & Hskf1 & Hckf1 & Hkeep1 & Hlines1).
  apply bind_Ok_inv in Hrun as (cr & w1' & [-> Hcr]%Collection_clusters_Ok & Hrun).
  apply bind_Ok_inv in Hrun as (cl & w2 & Hcl & Happ).
  apply ClusterRegistry_get_frame in Hcl
    as (Hcl & Hst2 & Hcat2 & Hcoll2 & Hcreg2 & _ & Hskf2 & Hckf2 & Hkeep2 & Hlines2).
  apply Cluster_append_Ok in Happ as (loc & Hloc & Hthere & ->).
  exists loc. split_and!.
  - rewrite cluster_file_set_fs. apply cluster_file_intro with colls c cr cl.
    + unfold store_collections_of in *. by rewrite Hst2, Hst1.
    + unfold registered, registry_resources in *. by rewrite Hcreg2.
    + unfold collection_clusters_of in *. by rewrite Hcoll2.
    + exact Hcl.
    + unfold cluster_location_of. by rewrite Hloc.
  - rewrite file_lines_insert_eq by done. do 2 f_equal.
    by rewrite <- Hlines1, <- Hlines2.
  - intros p Hne. unfold file_lines at 1. rewrite node_at_insert_ne by done.
    fold (file_lines w2 p). by rewrite Hlines2, Hlines1.
  - apply files_grow_trans with w1; [by apply files_grow_keeps|].
    apply files_grow_trans with w2; [by apply files_grow_keeps|].
    intros p lines Hp. destruct (decide (p = loc)) as [->|Hne].
    + rewrite file_lines_insert_eq by done. rewrite Hp. eauto.
    + exists []. rewrite app_nil_r. unfold file_lines in *.
      by rewrite node_at_insert_ne.
  - cbn. congruence.
  - cbn. congruence.
  - cbn. congruence.
  - cbn. congruence.
Qed.

(** ** The fallback clusters *)

Lemma Catalog_store_Ok self w store w' :
  Catalog_store self w = (Ok store, w') ↔
  w' = w ∧ catalogs (heap w) !! self = Some (CatalogObj store).
Proof.
  unfold Catalog_store. split.
  - intros ([st] & w0 & [-> Ho]%deref_Ok & [= -> ->])%bind_Ok_inv. done.
  - intros [-> Ho]. by rewrite (bind_Ok _ _ _ _ _ (deref_heap _ _ _ _ Ho)).
Qed.

Lemma find_model_loop_Ok self items model w collection w' :
  find_model_loop self items model w = (Ok collection, w') →
  match collection with
  | None => w' = w
  | Some c =>
      ∃ name cls store colls,
        (name, cls) ∈ items ∧ cls_model cls = Some model
        ∧ catalogs (heap w) !! self = Some (CatalogObj store)
        ∧ store_collections_of w store = Some colls
        ∧ CollectionRegistry_get colls name w = (Ok c, w')
  end.
Proof.
  induction items as [|[name cls] items IH]; cbn [find_model_loop].
  - by intros [= <- <-].
  - destruct (decide (cls_model cls = Some model)) as [Hm|Hm].
    + intros (store & w0 & [-> Hstore]%Catalog_store_Ok & Hrun)%bind_Ok_inv.
      apply bind_Ok_inv in Hrun as (colls & w0 & [-> Hcolls]%Store_collections_Ok & Hrun).
      apply bind_Ok_inv in Hrun as (c & w1 & Hc & [= <- <-]).
      exists name, cls, store, colls. split_and!; try done.
      apply elem_of_cons. by left.
    + intros Hrun. specialize (IH Hrun). destruct collection as [c|]; [|done].
      destruct IH as (name' & cls' & store & colls & Hin & ?).
      exists name', cls', store, colls. split; [|done].
      apply elem_of_cons. by right.
Qed.

(** A successful resolution by [get] or [filter]: the mapping is the replay
    of the file of the cluster [cluster or "default"] in the collection
    named after a descriptor of the model. *)
Lemma Catalog_cluster_data_Ok self model cluster w d w' :
  Catalog_cluster_data self model cluster w = (Ok d, w') →
  ∃ name cls store loc lines,
    (name, cls) ∈ known_files catalog_py w
    ∧ cls_model cls = Some model
    ∧ catalogs (heap w) !! self = Some (CatalogObj store)
    ∧ cluster_file w' store (slugify name) (slugify (cluster_or_default cluster))
      = Some loc
    ∧ file_lines w' loc = Some lines
    ∧ d = replay lines.
Proof.
  unfold Catalog_cluster_data, Catalog_find_model_collection.
  intros (collection & w1 & Hfind & Hrun)%bind_Ok_inv.
  apply bind_Ok_inv in Hfind as (table & w0 & [= <- <-] & Hfind).
  apply find_model_loop_Ok in Hfind.
  apply bind_Ok_inv in Hrun as (cr & w1' & Hcr & Hrun).
  destruct collection as [c|]; [|discriminate].
  destruct Hfind as (name & cls & store & colls & Hin & Hm & Hstore & Hcolls & Hc).
  apply Collection_clusters_Ok in Hcr as [-> Hcr].
  apply CollectionRegistry_get_frame in Hc
    as (Hc & Hst1 & Hcat1 & _ & _ & _ & _ & _).
  apply bind_Ok_inv in Hrun as (cl & w2 & Hcl & Hload).
  apply ClusterRegistry_get_frame in Hcl
    as (Hcl & Hst2 & Hcat2 & Hcoll2 & Hcreg2 & _ & _ & _ & _ & _).
  unfold Cluster_load_all in Hload.
  apply bind_Ok_inv in Hload as (loc & w3 & [-> Hloc]%Cluster_location_Ok & Hload).
  apply bind_Ok_inv in Hload as (lines & w3 & Hread & [= <- <-]).
  assert (Hlines : file_lines w2 loc = Some lines ∧ w3 = w2).
  { unfold read_lines in Hread. unfold file_lines.
    destruct (node_at w2 loc) as [[|ls]|]; try discriminate.
    by injection Hread as -> ->. }
  destruct Hlines as [Hlines ->].
  exists name, cls, store, loc, lines. split_and!; try done.
  apply cluster_file_intro with colls c cr cl.
  - unfold store_collections_of in *. by rewrite Hst2, Hst1.
  - unfold registered, registry_resources in *. by rewrite Hcreg2.
  - unfold collection_clusters_of in *. by rewrite Hcoll2.
  - exact Hcl.
  - unfold cluster_location_of. by rewrite Hloc.
Qed.

(** C2: with no cluster given, [store_item] appends [(key, item.to_dict())]
    to the file of the cluster registered under "unique" in the collection
    it resolved, and [get] and [filter] run their loops over the replay of
    the file of the cluster registered under "default" in the collection of
    the model. *)
Theorem fallback_clusters :
  slugify "unique" = "unique" →
  slugify "default" = "default" →
  (∀ self item collection key w w',
     Store_store_item self item collection None key w = (Ok tt, w') →
     ∃ loc,
       cluster_file w' self (slugify collection) "unique" = Some loc
       ∧ file_lines w' loc
         = Some (default [] (file_lines w loc) ++ [(key, to_dict item)]))
  ∧ (∀ self model w d w',
       Catalog_cluster_data self model None w = (Ok d, w') →
       (∃ name cls store loc lines,
          (name, cls) ∈ known_files catalog_py w
          ∧ cls_model cls = Some model
          ∧ catalogs (heap w) !! self = Some (CatalogObj store)
          ∧ cluster_file w' store (slugify name) "default" = Some loc
          ∧ file_lines w' loc = Some lines
          ∧ d = replay lines)
       ∧ (∀ key, Catalog_get self model key None w = (get_loop model key d, w'))
       ∧ (∀ key_start key_end,
            Catalog_filter self model key_start key_end None w
            = (Ok (filter_loop model key_start key_end d), w'))).
Proof.
  intros Hunique Hdefault. split.
  - intros self item collection key w w' Hrun.
    apply Store_store_item_Ok in Hrun as (loc & Hfile & Hlines & _).
    rewrite Hunique in Hfile. eauto.
  - intros self model w d w' Hd. split_and!.
    + apply Catalog_cluster_data_Ok in Hd
        as (name & cls & store & loc & lines & ? & ? & ? & Hfile & ? & ?).
      cbn [cluster_or_default] in Hfile. rewrite Hdefault in Hfile.
      by exists name, cls, store, loc, lines.
    + intros key. by rewrite Catalog_get_loop, (bind_Ok _ _ _ _ _ Hd).
    + intros a b. by rewrite Catalog_filter_loop, (bind_Ok _ _ _ _ _ Hd).
Qed.

(** ** Ingestion *)

Lemma for_each_app {A} (xs ys : list A) (body : A → M unit) w :
  for_each (xs ++ ys) body w = (_ ← for_each xs body; for_each ys body) w.
Proof.
  revert w. induction xs as [|x xs IH]; intros w; [done|].
  cbn [app for_each]. unfold mbind, M_bind in *.
  destruct (body x w) as [[[]|e] w1]; [|done]. apply IH.
Qed.

Lemma row_on_disk_grows self w w' row :
  files_grow w w' → row_on_disk self w row → row_on_disk self w' row.
Proof.
  intros Hgrow (loc & lines & Hlines & Hin).
  destruct (Hgrow _ _ Hlines) as (more & Hlines').
  exists loc, (lines ++ more). split; [done|]. apply elem_of_app. by left.
Qed.

Lemma store_rows_Ok self store rows w w' :
  for_each rows (store_row self store) w = (Ok tt, w') →
  files_grow w w' ∧ Forall (row_on_disk self w') rows.
Proof.
  revert w. induction rows as [|row rows IH]; intros w; cbn [for_each].
  - intros [= <-]. split; [apply files_grow_refl | constructor].
  - intros ([] & w1 & Hrow & Hrest)%bind_Ok_inv.
    destruct (IH _ Hrest) as [Hgrow Hrows].
    apply Store_store_item_Ok in Hrow as (loc & _ & Hlines & _ & Hgrow1 & _).
    split; [by eapply files_grow_trans|]. constructor; [|done].
    apply row_on_disk_grows with w1; [done|].
    exists loc. eexists. split; [exact Hlines|].
    apply elem_of_app. right. by apply list_elem_of_singleton.
Qed.

Lemma DeclaredFile_ingest_pass_grows source store w w' :
  cls_pre_ingest (df_class source) = PreIngestPass →
  DeclaredFile_ingest source store w = (Ok tt, w') → files_grow w w'.
Proof.
  unfold DeclaredFile_ingest, DeclaredFile_pre_ingest. intros ->.
  intros ([] & w0 & [= <-] & Hgen)%bind_Ok_inv. unfold for_gen in Hgen.
  apply bind_Ok_inv in Hgen as ([] & w1 & Hrows & Hend).
  destruct (SourceFile_load (df_source source)).2; [discriminate|].
  injection Hend as <-.
  by apply (store_rows_Ok source store) in Hrows as [? _].
Qed.

Lemma Store_ingest_table_pass_grows table store data_folder w w' :
  Forall (λ entry, cls_pre_ingest entry.2 = PreIngestPass) table →
  Store_ingest_table table store data_folder w = (Ok tt, w') → files_grow w w'.
Proof.
  unfold Store_ingest_table. intros Hpass. revert w.
  induction Hpass as [|[name cls] table Hcls _ IH]; intros w; cbn [for_each].
  - intros [= <-]. apply files_grow_refl.
  - intros ([] & w1 & Hone & Hrest)%bind_Ok_inv.
    apply bind_Ok_inv in Hone as (source & w0 & Hinit & Hingest).
    assert (w0 = w ∧ df_class source = cls) as [-> Hsrc].
    { unfold DeclaredFile_init in Hinit.
      destruct (SourceFile_init _ _ _); [|discriminate]. by injection Hinit as <- <-. }
    apply files_grow_trans with w1; [|by apply IH].
    apply DeclaredFile_ingest_pass_grows in Hingest; [done|]. by rewrite Hsrc.
Qed.

(** C9: when the source of a descriptor ends with an exception, after the
    descriptors before it have been ingested and the rows it yielded have
    been stored, [ingest_all] raises that exception, the descriptors after
    it are not run, and the world is the one reached by the last store: no
    file lost a line while the rows were stored, every row stored is a line
    on disk, and when no descriptor so far clears its collection, no file
    lost a line during the whole run. *)
Theorem ingest_all_aborts_without_rollback
    self data_folder w before name cls after w1 source rows e w2 w3 :
  known_files store_py w = before ++ (name, cls) :: after →
  Store_ingest_table before self data_folder w = (Ok tt, w1) →
  DeclaredFile_init cls (PyPath data_folder) w1 = (Ok source, w1) →
  SourceFile_load (df_source source) = (rows, Some e) →
  DeclaredFile_pre_ingest source self w1 = (Ok tt, w2) →
  for_each rows (store_row source self) w2 = (Ok tt, w3) →
  Store_ingest_all self data_folder w = (Raise e, w3)
  ∧ files_grow w2 w3
  ∧ Forall (row_on_disk source w3) rows
  ∧ (Forall (λ entry, cls_pre_ingest entry.2 = PreIngestPass)
       (before ++ [(name, cls)]) → files_grow w w3).
Proof.
  intros Htable Hbefore Hinit Hload Hpre Hrows.
  destruct (store_rows_Ok _ _ _ _ _ Hrows) as [Hgrow Hdisk].
  split_and!; [|done|done|].
  - unfold Store_ingest_all, get_known_files.
    unfold mbind at 1, M_bind at 1. rewrite Htable.
    fold (Store_ingest_table (before ++ (name, cls) :: after) self data_folder).
    unfold Store_ingest_table in *. rewrite for_each_app.
    rewrite (bind_Ok _ _ _ _ _ Hbefore). cbn [for_each].
    apply bind_Raise. rewrite (bind_Ok _ _ _ _ _ Hinit).
    unfold DeclaredFile_ingest. rewrite (bind_Ok _ _ _ _ _ Hpre).
    unfold for_gen. rewrite Hload. cbn [fst snd].
    by rewrite (bind_Ok _ _ _ _ _ Hrows).
  - intros [Hpass Hcls]%Forall_app.
    apply Forall_inv in Hcls. cbn in Hcls.
    apply files_grow_trans with w1;
      [by eapply Store_ingest_table_pass_grows|].
    apply files_grow_trans with w2; [|done].
    unfold DeclaredFile_pre_ingest in Hpre.
    assert (df_class source = cls) as Hsrc.
    { unfold DeclaredFile_init in Hinit.
      destruct (SourceFile_init _ _ _); [|discriminate]. by injection Hinit as <-. }
    rewrite Hsrc, Hcls in Hpre. injection Hpre as <-. apply files_grow_refl.
Qed.

(** ** Clearing a collection *)

Lemma Store_clear_collection_Ok self name w w' :
  Store_clear_collection self name w = (Ok tt, w') →
  ∃ collections collection w0,
    store_collections_of w self = Some collections
    ∧ CollectionRegistry_get collections name w = (Ok collection, w0)
    ∧ Collection_clear collection w0 = (Ok tt, w').
Proof.
  unfold Store_clear_collection.
  intros (colls & w0 & [-> Hcolls]%Store_collections_Ok & Hrun)%bind_Ok_inv.
  apply bind_Ok_inv in Hrun as (c & w1 & Hc & Hclear). eauto 6.
Qed.

Lemma Path_unlink_Ok p w w' :
  Path_unlink p w = (Ok tt, w') →
  node_at w' p = None
  ∧ heap w' = heap w
  ∧ store_known_files w' = store_known_files w
  ∧ catalog_known_files w' = catalog_known_files w
  ∧ (∀ q, q ≠ p → node_at w' q = node_at w q)
  ∧ (∀ q, node_at w q = None → node_at w' q = None).
Proof.
  unfold Path_unlink. destruct (node_at w p) as [[|ls]|] eqn:Ep; [done| |].
  - intros [= <-]. assert (Hp : always_there p = false).
    { unfold node_at in Ep. by destruct (always_there p). }
    split_and!; try done.
    + rewrite node_at_set_fs, Hp. apply lookup_delete_eq.
    + intros q Hne. rewrite node_at_set_fs. unfold node_at.
      destruct (always_there q); [done|]. by apply lookup_delete_ne.
    + intros q Hq. rewrite node_at_set_fs. unfold node_at in Hq.
      destruct (always_there q); [done|].
      destruct (decide (p = q)) as [->|Hne];
        [apply lookup_delete_eq | by rewrite lookup_delete_ne].
  - destruct (node_at w (parent p)) as [[|?]|]; [|done|]; by intros [= <-].
Qed.

Lemma Cluster_delete_all_Ok currents w w' :
  for_each currents Cluster_delete w = (Ok tt, w') →
  heap w' = heap w
  ∧ store_known_files w' = store_known_files w
  ∧ catalog_known_files w' = catalog_known_files w
  ∧ (∀ p, p ∈ cluster_locations w currents → node_at w' p = None)
  ∧ (∀ p, p ∉ cluster_locations w currents → node_at w' p = node_at w p)
  ∧ (∀ p, node_at w p = None → node_at w' p = None).
Proof.
  revert w. induction currents as [|cl currents IH]; intros w; cbn [for_each].
  - intros [= <-]. split_and!; try done. intros p Hin.
    by apply not_elem_of_nil in Hin.
  - intros ([] & w1 & Hdel & Hrest)%bind_Ok_inv.
    unfold Cluster_delete in Hdel.
    apply bind_Ok_inv in Hdel as (loc & w0 & [-> Hloc]%Cluster_location_Ok & Hdel).
    apply Path_unlink_Ok in Hdel as (Hgone & Hheap & Hs & Hc & Hother & Hnone).
    destruct (IH _ Hrest) as (Hheap' & Hs' & Hc' & Hin' & Hout' & Hnone').
    assert (Hlocs : cluster_locations w1 currents = cluster_locations w currents).
    { unfold cluster_locations, cluster_location_of. by rewrite Hheap. }
    assert (Hcons : cluster_locations w (cl :: currents)
                    = loc :: cluster_locations w currents).
    { unfold cluster_locations at 1. cbn [omap list_omap].
      unfold cluster_location_of at 1. by rewrite Hloc. }
    rewrite Hlocs in Hin', Hout'. rewrite Hcons.
    split_and!; try congruence.
    + intros p [->|Hin]%elem_of_cons; [by apply Hnone'|]. by apply Hin'.
    + intros p [Hne Hnin]%not_elem_of_cons.
      rewrite Hout' by done. by apply Hother.
    + intros p Hp. by apply Hnone', Hnone.
Qed.

Lemma Collection_clear_Ok self w w' :
  Collection_clear self w = (Ok tt, w') →
  ∃ folder cr d fcr,
    collections (heap w) !! self = Some (CollectionObj folder cr)
    ∧ cluster_registries (heap w) !! cr = Some (ClusterRegistryObj d fcr)
    ∧ heap w'
      = set_collections
          <[self := CollectionObj folder (length (cluster_registries (heap w)))]>
          (set_cluster_registries (λ objs, objs ++ [ClusterRegistryObj [] folder])
             (heap w))
    ∧ store_known_files w' = store_known_files w
    ∧ catalog_known_files w' = catalog_known_files w
    ∧ (∀ p, p ∈ cluster_locations w (dict_values d) → node_at w' p = None)
    ∧ (∀ p, p ∉ cluster_locations w (dict_values d) → node_at w' p = node_at w p)
    ∧ (∀ p, node_at w p = None → node_at w' p = None).
Proof.
  unfold Collection_clear, Registry_iter.
  intros (cr & w0 & Hcr & Hrun)%bind_Ok_inv.
  unfold Collection_clusters in Hcr.
  apply bind_Ok_inv in Hcr as ([folder cr'] & w00 & [-> Hself]%deref_Ok & [= -> <-]).
  apply bind_Ok_inv in Hrun as (currents & w1 & Hiter & Hrun).
  apply bind_Ok_inv in Hiter as (d & w10 & [-> Hd]%Registry_resources_Ok & [= <- <-]).
  unfold registry_resources in Hd.
  destruct (cluster_registries (heap w) !! cr) as [[d' fcr]|] eqn:Hreg; [|done].
  injection Hd as ->.
  apply bind_Ok_inv in Hrun as ([] & w2 & Hdel & Hrun).
  apply Cluster_delete_all_Ok in Hdel as (Hheap & Hs & Hc & Hin & Hout & Hnone).
  apply bind_Ok_inv in Hrun as (folder' & w3 & Hfolder & Hrun).
  unfold Collection_folder in Hfolder.
  apply bind_Ok_inv in Hfolder as ([f2 cr2] & w30 & [-> Hself2]%deref_Ok & [= -> <-]).
  rewrite Hheap, Hself in Hself2. injection Hself2 as <- <-.
  apply bind_Ok_inv in Hrun as (fresh & w4 & [= <- <-] & Hset).
  unfold Collection_set_clusters in Hset.
  apply assign_Ok in Hset as ([f3 cr3] & Hself3 & ->).
  cbn in Hself3. rewrite Hheap, Hself in Hself3. injection Hself3 as <- <-.
  exists folder, cr, d, fcr. cbn. rewrite Hheap. split_and!; done.
Qed.

Lemma dict_get_value {K V} `{EqDecision K} (k : K) (v : V) (d : dict K V) :
  dict_get k d = Some v → v ∈ dict_values d.
Proof.
  intros Hin%dict_get_elem_of. unfold dict_values.
  apply list_elem_of_fmap. by exists (k, v).
Qed.

Lemma registered_location_deleted w (d : dict string ref) slug cl loc :
  dict_get slug d = Some cl →
  cluster_location_of w cl = Some loc →
  loc ∈ cluster_locations w (dict_values d).
Proof.
  intros Hcl%dict_get_value Hloc. unfold cluster_locations.
  apply list_elem_of_omap. by exists cl.
Qed.

(** C6 (amended): [clear] deletes the file of every cluster registered in
    the collection, leaves every other entry of the disk as it was, and
    puts a new, empty registry in the collection.  A [clusters.get] after
    it creates a new cluster object for the slug, at
    [folder / (slug + ".dat")]; its file is empty when that file belonged
    to the cluster registered under the slug, or did not exist; a file
    there that belonged to no registered cluster keeps its lines. *)
Theorem Collection_clear_resets self w w1 :
  Collection_clear self w = (Ok tt, w1) →
  ∃ folder cr d fresh,
    collection_folder_of w self = Some folder
    ∧ collection_clusters_of w self = Some cr
    ∧ registry_resources ClusterRegistryClass w cr = Some d
    ∧ (∀ slug cl loc,
         dict_get slug d = Some cl → cluster_location_of w cl = Some loc →
         node_at w1 loc = None)
    ∧ (∀ p, p ∉ cluster_locations w (dict_values d) → node_at w1 p = node_at w p)
    ∧ collection_clusters_of w1 self = Some fresh
    ∧ registry_resources ClusterRegistryClass w fresh = None
    ∧ registry_resources ClusterRegistryClass w1 fresh = Some []
    ∧ ∀ name cl w2,
        ClusterRegistry_get fresh name w1 = (Ok cl, w2) →
        let loc := joinpath folder (slugify name +:+ ".dat") in
        clusters (heap w) !! cl = None
        ∧ cluster_location_of w2 cl = Some loc
        ∧ registered ClusterRegistryClass w2 fresh (slugify name) = Some cl
        ∧ (∀ cl0, dict_get (slugify name) d = Some cl0 →
                  cluster_location_of w cl0 = Some loc →
                  file_lines w2 loc = Some [])
        ∧ (node_at w loc = None → file_lines w2 loc = Some [])
        ∧ (loc ∉ cluster_locations w (dict_values d) →
           ∀ lines, file_lines w loc = Some lines → file_lines w2 loc = Some lines).
Proof.
  intros (folder & cr & d & fcr & Hself & Hreg & Hheap & _ & _ & Hin & Hout & Hnone)
    %Collection_clear_Ok.
  assert (Hlen : self < length (collections (heap w))) by by eapply lookup_lt_Some.
  assert (Hfresh : cluster_registries (heap w1) !! length (cluster_registries (heap w))
                   = Some (ClusterRegistryObj [] folder)).
  { rewrite Hheap. cbn. by rewrite lookup_app_r, Nat.sub_diag. }
  exists folder, cr, d, (length (cluster_registries (heap w))). split_and!.
  - unfold collection_folder_of. by rewrite Hself.
  - unfold collection_clusters_of. by rewrite Hself.
  - unfold registry_resources. by rewrite Hreg.
  - intros slug cl loc Hcl Hloc. apply Hin.
    by eapply registered_location_deleted.
  - exact Hout.
  - unfold collection_clusters_of. rewrite Hheap. cbn.
    by rewrite list_lookup_insert_eq.
  - unfold registry_resources. by rewrite lookup_ge_None_2.
  - unfold registry_resources. by rewrite Hfresh.
  - intros name cl w2 Hget loc.
    pose proof (Registry_get_stored _ _ _ _ _ _ _ Hget) as Hstored.
    apply ClusterRegistry_get_Ok in Hget as (d1 & f1 & Ho & Hcase).
    rewrite Hfresh in Ho. injection Ho as <- <-.
    cbn [dict_get] in Hcase. destruct Hcase as [Hcl Hw2]. fold loc in Hw2.
    assert (Hclusters : clusters (heap w1) = clusters (heap w)) by by rewrite Hheap.
    rewrite Hclusters in Hcl.
    assert (Hlines : file_lines w2 loc
              = match node_at w1 loc with
                | None => Some []
                | Some _ => file_lines w1 loc
                end).
    { rewrite Hw2, file_lines_set_heap. unfold file_lines.
      destruct (node_at w1 loc) as [x|] eqn:E.
      - erewrite ensure_node_keeps; [done|]. by rewrite node_at_set_heap.
      - rewrite ensure_node_at; [done|]. by rewrite node_at_set_heap. }
    split_and!.
    + subst cl. by apply lookup_ge_None_2.
    + unfold cluster_location_of. rewrite Hw2. cbn. rewrite ensure_node_heap. cbn.
      rewrite Hclusters, Hcl. by rewrite lookup_app_r, Nat.sub_diag.
    + exact Hstored.
    + intros cl0 Hcl0 Hloc0. rewrite Hlines, Hin; [done|].
      by eapply registered_location_deleted.
    + intros Hloc. by rewrite Hlines, Hnone.
    + intros Hnin lines Hl. rewrite Hlines. unfold file_lines in *.
      rewrite Hout by done. by destruct (node_at w loc).
Qed.
End Properties.

(** * Further properties of the code *)

Section MoreProperties.
Context `{Collaborators}.

(** ** SourceFile *)

(** X1: [SourceFile.__init__] succeeds exactly when [name] is a [str],
    [root] is a [str] or a [Path] and [model] is a subclass of
    [BaseObject], and then stores the three as given; every failure is a
    [ValueError] or a [TypeError], a [name] that is not a string being
    reported whatever the other arguments are. *)
Theorem SourceFile_init_outcomes root name model :
  (∀ sf, SourceFile_init root name model = Ok sf ↔
         ∃ n r m, name = PyStr n ∧ root_path root = Some r
                  ∧ model = PyModelClass m
                  ∧ sf = {| _name := n; _root := r; _model := m |})
  ∧ (∀ e, SourceFile_init root name model = Raise e →
          (∃ msg, e = ValueError msg) ∨ (∃ msg, e = TypeError msg))
  ∧ ((∀ n, name ≠ PyStr n) →
     SourceFile_init root name model
     = Raise (match name with
              | PyNone => ValueError "name is missing"
              | _ => TypeError "name must be str"
              end)).
Proof.
  split_and!.
  - intros sf. split.
    + destruct name; try discriminate. destruct root; try discriminate;
        destruct model; try discriminate; intros [= <-]; eauto 10.
    + intros (n & r & m & -> & Hroot & -> & ->).
      destruct root; try discriminate; injection Hroot as <-; done.
  - intros e. destruct name, root, model; cbn; intros [= <-]; eauto.
  - intros Hname. destruct name; try done. by destruct (Hname s).
Qed.

Lemma str_replace_gone (old new : ascii) s :
  old ≠ new → str_has old (str_replace old new s) = false.
Proof.
  intros Hne. induction s as [|c s IH]; [done|]. cbn.
  rewrite IH, orb_false_r. destruct (Ascii.eqb c old) eqn:E.
  - apply Ascii.eqb_neq. congruence.
  - done.
Qed.

Lemma str_replace_length (old new : ascii) s :
  String.length (str_replace old new s) = String.length s.
Proof. induction s as [|c s IH]; [done|]. cbn. by rewrite IH. Qed.

Lemma str_replace_absent (old new : ascii) s :
  str_has old s = false → str_replace old new s = s.
Proof.
  induction s as [|c s IH]; [done|]. cbn.
  intros [Hc Hs]%orb_false_elim. by rewrite Hc, IH.
Qed.

Lemma filename_of_name s :
  str_replace underscore hyphen (str_replace hyphen underscore s)
  = str_replace underscore hyphen s.
Proof.
  induction s as [|c s IH]; [done|]. cbn. rewrite IH. f_equal.
  destruct (Ascii.eqb c hyphen) eqn:Eh.
  - apply Ascii.eqb_eq in Eh as ->. done.
  - done.
Qed.

(** X2: the [name] of a SourceFile never contains a hyphen and the stem of
    its [filename] never contains an underscore; both have the length of
    the name given; a name without hyphen is returned as it is; and the
    file name is the one of the normalised name. *)
Theorem SourceFile_name_normal_forms (self : SourceFile) :
  str_has hyphen (SourceFile_name self) = false
  ∧ String.length (SourceFile_name self) = String.length (_name self)
  ∧ (str_has hyphen (_name self) = false → SourceFile_name self = _name self)
  ∧ (∃ stem, SourceFile_filename self = stem +:+ ".csv"
             ∧ str_has underscore stem = false
             ∧ String.length stem = String.length (_name self))
  ∧ SourceFile_filename
      {| _name := SourceFile_name self; _root := _root self; _model := _model self |}
    = SourceFile_filename self.
Proof.
  unfold SourceFile_name, SourceFile_filename. cbn. split_and!.
  - by apply str_replace_gone.
  - apply str_replace_length.
  - apply str_replace_absent.
  - eexists. split_and!; [done | by apply str_replace_gone | apply str_replace_length].
  - by rewrite filename_of_name.
Qed.

(** ** Cluster *)

Lemma parent_shorter (p : Path) : p ≠ [] → parent p ≠ p.
Proof.
  intros Hp Heq. assert (Hlen : length (parent p) = length p) by by rewrite Heq.
  unfold parent in Hlen. destruct p as [|x p]; [done|].
  assert (Happ : ∃ q y, x :: p = q ++ [y]).
  { destruct (exists_last (l := x :: p)) as (q & y & ->); [done|]. eauto. }
  destruct Happ as (q & y & Heq'). rewrite Heq' in Hlen.
  rewrite removelast_last, length_app in Hlen. simpl in Hlen. lia.
Qed.

Lemma Cluster_touch_run self loc w :
  clusters (heap w) !! self = Some (ClusterObj loc) →
  Cluster_touch self w = Path_touch loc w.
Proof.
  intros Hloc. unfold Cluster_touch.
  by rewrite (bind_Ok _ _ _ _ _ (Cluster_location_heap _ _ _ Hloc)).
Qed.

Lemma Cluster_delete_run self loc w :
  clusters (heap w) !! self = Some (ClusterObj loc) →
  Cluster_delete self w = Path_unlink loc w.
Proof.
  intros Hloc. unfold Cluster_delete.
  by rewrite (bind_Ok _ _ _ _ _ (Cluster_location_heap _ _ _ Hloc)).
Qed.

(** X3: a successful [touch] never changes an entry that exists (no file
    is truncated), creates an empty file when there was none, and doing it
    again changes nothing. *)
Theorem Cluster_touch_keeps_content self loc w w1 :
  clusters (heap w) !! self = Some (ClusterObj loc) →
  Cluster_touch self w = (Ok tt, w1) →
  (∀ n, node_at w loc = Some n → w1 = w)
  ∧ (node_at w loc = None → file_lines w1 loc = Some [])
  ∧ heap w1 = heap w
  ∧ files_grow w w1
  ∧ Cluster_touch self w1 = (Ok tt, w1).
Proof.
  intros Hloc Htouch. rewrite (Cluster_touch_run _ _ _ Hloc) in Htouch.
  apply Path_touch_Ok in Htouch as ->.
  assert (Hheap : heap (ensure_node loc (File []) w) = heap w)
    by apply ensure_node_heap.
  split_and!.
  - intros n Hn. unfold ensure_node. by rewrite Hn.
  - intros Hnone. unfold file_lines. by rewrite ensure_node_at.
  - done.
  - apply files_grow_keeps. intros p x. apply ensure_node_keeps.
  - rewrite (Cluster_touch_run _ loc) by by rewrite Hheap.
    unfold Path_touch. destruct (node_at w loc) as [n|] eqn:E.
    + by rewrite (ensure_node_keeps _ _ _ _ _ E).
    + by rewrite ensure_node_at.
Qed.

(** X4: after a successful [delete] the file of the cluster is gone, no
    other entry and no object has changed, and (the parent directory being
    there) [delete] again succeeds without changing anything, while [touch]
    then creates an empty file. *)
Theorem Cluster_delete_idempotent self loc w w1 :
  clusters (heap w) !! self = Some (ClusterObj loc) →
  node_at w (parent loc) = Some Dir →
  Cluster_delete self w = (Ok tt, w1) →
  node_at w1 loc = None
  ∧ heap w1 = heap w
  ∧ (∀ q, q ≠ loc → node_at w1 q = node_at w q)
  ∧ Cluster_delete self w1 = (Ok tt, w1)
  ∧ ∃ w2, Cluster_touch self w1 = (Ok tt, w2) ∧ file_lines w2 loc = Some [].
Proof.
  intros Hloc Hparent Hdel. rewrite (Cluster_delete_run _ _ _ Hloc) in Hdel.
  assert (Hne : loc ≠ []).
  { intros ->. unfold Path_unlink in Hdel. discriminate. }
  apply Path_unlink_Ok in Hdel as (Hgone & Hheap & _ & _ & Hother & _).
  assert (Hparent1 : node_at w1 (parent loc) = Some Dir)
    by by rewrite Hother by by apply parent_shorter.
  split_and!; try done.
  - rewrite (Cluster_delete_run _ loc) by by rewrite Hheap.
    unfold Path_unlink. by rewrite Hgone, Hparent1.
  - exists (ensure_node loc (File []) w1). split.
    + rewrite (Cluster_touch_run _ loc) by by rewrite Hheap.
      unfold Path_touch, create_node, ensure_node. by rewrite Hgone, Hparent1.
    + unfold file_lines. by rewrite ensure_node_at.
Qed.

(** X5: once the file of a cluster exists, appending any sequence of
    records succeeds; the records become the last lines of the file, in the
    order given, after the lines that were there, and nothing else
    changes. *)
Theorem Cluster_append_in_order self loc old records w :
  clusters (heap w) !! self = Some (ClusterObj loc) →
  file_lines w loc = Some old →
  ∃ w', Cluster_append_all self records w = (Ok tt, w')
        ∧ file_lines w' loc = Some (old ++ records)
        ∧ heap w' = heap w
        ∧ ∀ q, q ≠ loc → node_at w' q = node_at w q.
Proof.
  unfold Cluster_append_all.
  revert old w. induction records as [|[key data] records IH]; intros old w Hloc Hold.
  - exists w. rewrite app_nil_r. done.
  - assert (Hthere : always_there loc = false).
    { unfold file_lines, node_at in Hold. by destruct (always_there loc). }
    pose (w1 := set_fs <[loc := File (old ++ [(key, data)])]> w).
    assert (Happ : Cluster_append self key data w = (Ok tt, w1)).
    { unfold Cluster_append.
      rewrite (bind_Ok _ _ _ _ _ (Cluster_location_heap _ _ _ Hloc)).
      unfold append_line, file_lines in *.
      destruct (node_at w loc) as [[|ls]|]; try done. by injection Hold as ->. }
    destruct (IH (old ++ [(key, data)]) w1) as (w' & Hrun & Hlines & Hheap & Hother).
    { done. }
    { by apply file_lines_insert_eq. }
    exists w'. split_and!.
    + cbn [for_each]. by rewrite (bind_Ok _ _ _ _ _ Happ).
    + by rewrite Hlines, <- app_assoc.
    + by rewrite Hheap.
    + intros q Hq. rewrite Hother by done. by apply node_at_insert_ne.
Qed.

(** ** Registry *)

Lemma dict_set_values_new {K V} `{EqDecision K} (k : K) (v : V) (d : dict K V) :
  dict_get k d = None → dict_values (dict_set k v d) = dict_values d ++ [v].
Proof.
  unfold dict_values. induction d as [|[k' v'] d IH]; [done|].
  cbn [dict_get dict_set]. destruct (decide (k' = k)); [done|].
  intros Hget. cbn. by rewrite <- IH.
Qed.

Lemma Registry_iter_run cls self w d :
  registry_resources cls w self = Some d →
  Registry_iter cls self w = (Ok (dict_values d), w).
Proof.
  intros Hd. unfold Registry_iter.
  assert (Hres : Registry_resources cls self w = (Ok d, w))
    by by apply Registry_resources_Ok.
  by rewrite (bind_Ok _ _ _ _ _ Hres).
Qed.

(** X6: iterating a registry gives its resources in the order of their
    creation: a [get] that finds the slug leaves the iteration as it was,
    a [get] that creates the resource puts it last. *)
Theorem Registry_iter_creation_order :
  (∀ self name w r w',
     ClusterRegistry_get self name w = (Ok r, w') →
     ∃ before,
       Registry_iter ClusterRegistryClass self w = (Ok before, w)
       ∧ Registry_iter ClusterRegistryClass self w'
         = (Ok (match registered ClusterRegistryClass w self (slugify name) with
                | Some _ => before
                | None => before ++ [r]
                end), w'))
  ∧ (∀ self name w r w',
       CollectionRegistry_get self name w = (Ok r, w') →
       ∃ before,
         Registry_iter CollectionRegistryClass self w = (Ok before, w)
         ∧ Registry_iter CollectionRegistryClass self w'
           = (Ok (match registered CollectionRegistryClass w self (slugify name) with
                  | Some _ => before
                  | None => before ++ [r]
                  end), w')).
Proof.
  split.
  - intros self name w r w' (d & folder & Ho & Hcase)%ClusterRegistry_get_Ok.
    assert (Hd : registry_resources ClusterRegistryClass w self = Some d)
      by (unfold registry_resources; by rewrite Ho).
    exists (dict_values d). split; [by apply Registry_iter_run|].
    replace (registered ClusterRegistryClass w self (slugify name))
      with (dict_get (slugify name) d) by (unfold registered; by rewrite Hd).
    destruct (dict_get (slugify name) d) as [r0|] eqn:Hget.
    + destruct Hcase as [-> ->]. by apply Registry_iter_run.
    + destruct Hcase as [Hr ->]. rewrite <- (dict_set_values_new _ r) by done.
      apply Registry_iter_run. unfold registry_resources. simpl.
      rewrite ensure_node_heap. simpl.
      by rewrite list_lookup_insert_eq by by eapply lookup_lt_Some.
  - intros self name w r w' (d & root & Ho & Hcase)%CollectionRegistry_get_Ok.
    assert (Hd : registry_resources CollectionRegistryClass w self = Some d)
      by (unfold registry_resources; by rewrite Ho).
    exists (dict_values d). split; [by apply Registry_iter_run|].
    replace (registered CollectionRegistryClass w self (slugify name))
      with (dict_get (slugify name) d) by (unfold registered; by rewrite Hd).
    destruct (dict_get (slugify name) d) as [r0|] eqn:Hget.
    + destruct Hcase as [-> ->]. by apply Registry_iter_run.
    + destruct Hcase as [Hr ->]. rewrite <- (dict_set_values_new _ r) by done.
      apply Registry_iter_run. unfold registry_resources. simpl.
      rewrite ensure_node_heap. simpl.
      by rewrite list_lookup_insert_eq by by eapply lookup_lt_Some.
Qed.

(** ** Store *)


Lemma heap_keeps_refl w : heap_keeps w w.
Proof. by repeat split. Qed.

Lemma heap_keeps_trans w1 w2 w3 :
  heap_keeps w1 w2 → heap_keeps w2 w3 → heap_keeps w1 w3.
Proof.
  intros (A1 & B1 & C1 & D1 & E1) (A2 & B2 & C2 & D2 & E2).
  repeat split; eauto.
Qed.

Lemma heap_keeps_same_heap w w' : heap w' = heap w → heap_keeps w w'.
Proof.
  intros Hheap. unfold heap_keeps, store_collections_of, registered,
    registry_resources, collection_clusters_of, collection_folder_of,
    cluster_location_of. rewrite Hheap. by repeat split.
Qed.

Lemma heap_keeps_cluster_file w w' store collection_slug cluster_slug loc :
  heap_keeps w w' →
  cluster_file w store collection_slug cluster_slug = Some loc →
  cluster_file w' store collection_slug cluster_slug = Some loc.
Proof.
  intros (Hst & Hreg & Hcl & _ & Hloc). unfold cluster_file.
  destruct (store_collections_of w store) as [colls|] eqn:E1; [|done].
  rewrite (Hst _ _ E1). simpl.
  destruct (registered CollectionRegistryClass w colls collection_slug)
    as [c|] eqn:E2; [|done].
  rewrite (Hreg _ _ _ _ E2). simpl.
  destruct (collection_clusters_of w c) as [cr|] eqn:E3; [|done].
  rewrite (Hcl _ _ E3). simpl.
  destruct (registered ClusterRegistryClass w cr cluster_slug) as [cl|] eqn:E4;
    [|done].
  rewrite (Hreg _ _ _ _ E4). simpl. apply Hloc.
Qed.

Lemma fmap_lookup_app_l {A B} (f : A → B) (l more : list A) i x :
  f <$> l !! i = Some x → f <$> (l ++ more) !! i = Some x.
Proof.
  destruct (l !! i) as [o|] eqn:E; [|done].
  by rewrite (lookup_app_l_Some _ _ _ _ E).
Qed.

Lemma CollectionRegistry_get_keeps self name w r w' :
  CollectionRegistry_get self name w = (Ok r, w') → heap_keeps w w'.
Proof.
  intros (d & root & Ho & Hcase)%CollectionRegistry_get_Ok.
  destruct (dict_get (slugify name) d) as [r0|] eqn:Hget.
  { destruct Hcase as [_ ->]. apply heap_keeps_refl. }
  destruct Hcase as [_ ->].
  unfold heap_keeps, store_collections_of, registered, registry_resources,
    collection_clusters_of, collection_folder_of, cluster_location_of.
  simpl. rewrite !ensure_node_heap. simpl. split_and!; try done.
  - intros [] registry slug x.
    + destruct (cluster_registries (heap w) !! registry) as [o|] eqn:E; [|done].
      by rewrite (lookup_app_l_Some _ _ _ _ E).
    + destruct (decide (registry = self)) as [->|Hne].
      * rewrite list_lookup_insert_eq by by eapply lookup_lt_Some.
        rewrite Ho. simpl. intros Hx. rewrite dict_get_set_ne; [done|].
        intros <-. congruence.
      * by rewrite list_lookup_insert_ne.
  - intros c x. apply fmap_lookup_app_l.
  - intros c x. apply fmap_lookup_app_l.
Qed.

Lemma ClusterRegistry_get_keeps self name w r w' :
  ClusterRegistry_get self name w = (Ok r, w') → heap_keeps w w'.
Proof.
  intros (d & folder & Ho & Hcase)%ClusterRegistry_get_Ok.
  destruct (dict_get (slugify name) d) as [r0|] eqn:Hget.
  { destruct Hcase as [_ ->]. apply heap_keeps_refl. }
  destruct Hcase as [_ ->].
  unfold heap_keeps, store_collections_of, registered, registry_resources,
    collection_clusters_of, collection_folder_of, cluster_location_of.
  simpl. rewrite !ensure_node_heap. simpl. split_and!; try done.
  - intros [] registry slug x; [|done].
    destruct (decide (registry = self)) as [->|Hne].
    + rewrite list_lookup_insert_eq by by eapply lookup_lt_Some.
      rewrite Ho. simpl. intros Hx. rewrite dict_get_set_ne; [done|].
      intros <-. congruence.
    + by rewrite list_lookup_insert_ne.
  - intros cl x. apply fmap_lookup_app_l.
Qed.

Lemma Store_store_item_keeps self item collection cluster key w w' :
  Store_store_item self item collection cluster key w = (Ok tt, w') →
  heap_keeps w w'.
Proof.
  unfold Store_store_item. intros Hrun.
  apply bind_Ok_inv in Hrun as (colls & w0 & [-> Hcolls]%Store_collections_Ok & Hrun).
  apply bind_Ok_inv in Hrun as (c & w1 & Hc%CollectionRegistry_get_keeps & Hrun).
  apply bind_Ok_inv in Hrun as (cr & w1' & [-> Hcr]%Collection_clusters_Ok & Hrun).
  apply bind_Ok_inv in Hrun as (cl & w2 & Hcl%ClusterRegistry_get_keeps & Happ).
  apply Cluster_append_Ok in Happ as (loc & _ & _ & ->).
  apply heap_keeps_trans with w1; [done|].
  apply heap_keeps_trans with w2; [done|]. by apply heap_keeps_same_heap.
Qed.

(** X8: a successful [store_item] changes one file only, no file loses a
    line, the tables of descriptor classes are as before, and every store,
    registry, collection and cluster keeps what it held: in particular the
    file that a registered (collection, cluster) pair denotes stays the
    same. *)
Theorem Store_store_item_appends_only self item collection cluster key w w' :
  Store_store_item self item collection cluster key w = (Ok tt, w') →
  files_grow w w'
  ∧ (∃ loc, ∀ p, p ≠ loc →
       default [] (file_lines w' p) = default [] (file_lines w p))
  ∧ store_known_files w' = store_known_files w
  ∧ catalog_known_files w' = catalog_known_files w
  ∧ heap_keeps w w'
  ∧ (∀ store collection_slug cluster_slug loc,
       cluster_file w store collection_slug cluster_slug = Some loc →
       cluster_file w' store collection_slug cluster_slug = Some loc).
Proof.
  intros Hrun. pose proof (Store_store_item_keeps _ _ _ _ _ _ _ Hrun) as Hkeeps.
  apply Store_store_item_Ok in Hrun
    as (loc & _ & _ & Hother & Hgrow & Hs & Hc & _ & _).
  split_and!; try done.
  - by exists loc.
  - intros store cs s loc'. by apply heap_keeps_cluster_file.
Qed.

(** X9: two successive [store_item] calls for the same collection and
    cluster write to the same file: its lines are the earlier ones followed
    by the two records in call order, also when the two records are the
    same (nothing is deduplicated on write). *)
Theorem Store_store_item_twice
    self item1 item2 collection cluster key1 key2 w w1 w2 :
  Store_store_item self item1 collection cluster key1 w = (Ok tt, w1) →
  Store_store_item self item2 collection cluster key2 w1 = (Ok tt, w2) →
  ∃ loc,
    cluster_file w1 self (slugify collection)
      (slugify (default "unique" cluster)) = Some loc
    ∧ cluster_file w2 self (slugify collection)
        (slugify (default "unique" cluster)) = Some loc
    ∧ file_lines w2 loc
      = Some (default [] (file_lines w loc)
              ++ [(key1, to_dict item1); (key2, to_dict item2)]).
Proof.
  intros Hrun1 Hrun2.
  pose proof (Store_store_item_keeps _ _ _ _ _ _ _ Hrun2) as Hkeeps.
  apply Store_store_item_Ok in Hrun1 as (loc & Hfile1 & Hlines1 & _).
  apply Store_store_item_Ok in Hrun2 as (loc' & Hfile2 & Hlines2 & _).
  assert (Hname : match cluster with Some c => c | None => "unique" end
                  = default "unique" cluster) by by destruct cluster.
  rewrite Hname in Hfile1, Hfile2.
  pose proof (heap_keeps_cluster_file _ _ _ _ _ _ Hkeeps Hfile1) as Hfile2'.
  assert (loc' = loc) as -> by congruence.
  exists loc. split_and!; try done.
  rewrite Hlines2, Hlines1. simpl. by rewrite <- app_assoc.
Qed.

Lemma store_layout_same_heap w w' store :
  heap w' = heap w → store_layout w store → store_layout w' store.
Proof. unfold store_layout. by intros ->. Qed.

Lemma CollectionRegistry_get_layout self name w r w' store :
  CollectionRegistry_get self name w = (Ok r, w') →
  store_layout w store → store_layout w' store.
Proof.
  intros (d & root0 & Ho & Hcase)%CollectionRegistry_get_Ok
         (root & colls & dcoll & Hst & Hcolls & Hentries).
  destruct (dict_get (slugify name) d) as [r0|] eqn:Hget.
  { destruct Hcase as [_ ->]. by exists root, colls, dcoll. }
  destruct Hcase as [-> ->]. unfold store_layout. simpl.
  rewrite !ensure_node_heap. simpl.
  assert (Hold : ∀ cslug c, dict_get cslug dcoll = Some c →
    ∃ cr dcl,
      (collections (heap w) ++
         [CollectionObj (joinpath root0 (slugify name))
            (length (cluster_registries (heap w)))]) !! c
      = Some (CollectionObj (joinpath root cslug) cr)
      ∧ (cluster_registries (heap w) ++
           [ClusterRegistryObj [] (joinpath root0 (slugify name))]) !! cr
        = Some (ClusterRegistryObj dcl (joinpath root cslug))
      ∧ ∀ s cl, dict_get s dcl = Some cl →
          clusters (heap w) !! cl
          = Some (ClusterObj (joinpath (joinpath root cslug) (s +:+ ".dat")))).
  { intros cslug c Hc. destruct (Hentries _ _ Hc) as (cr & dcl & H1 & H2 & H3).
    exists cr, dcl. split_and!; [by apply lookup_app_l_Some.. | done]. }
  destruct (decide (colls = self)) as [->|Hne].
  - rewrite Ho in Hcolls. injection Hcolls as -> ->.
    exists root, self, (dict_set (slugify name) (length (collections (heap w))) dcoll).
    split_and!; [done | by rewrite list_lookup_insert_eq by by eapply lookup_lt_Some |].
    intros cslug c. destruct (decide (slugify name = cslug)) as [<-|Hslug].
    + rewrite dict_get_set_eq. intros [= <-].
      exists (length (cluster_registries (heap w))), [].
      split_and!; [by rewrite lookup_app_r, Nat.sub_diag..|done].
    + rewrite dict_get_set_ne by done. apply Hold.
  - exists root, colls, dcoll.
    split_and!; [done | by rewrite list_lookup_insert_ne | done].
Qed.

Lemma ClusterRegistry_get_layout self name w r w' store :
  ClusterRegistry_get self name w = (Ok r, w') →
  store_layout w store → store_layout w' store.
Proof.
  intros (d & folder & Ho & Hcase)%ClusterRegistry_get_Ok
         (root & colls & dcoll & Hst & Hcolls & Hentries).
  destruct (dict_get (slugify name) d) as [r0|] eqn:Hget.
  { destruct Hcase as [_ ->]. by exists root, colls, dcoll. }
  destruct Hcase as [-> ->]. unfold store_layout. simpl.
  rewrite !ensure_node_heap. simpl.
  exists root, colls, dcoll. split_and!; [done..|].
  intros cslug c Hc. destruct (Hentries _ _ Hc) as (cr & dcl & H1 & H2 & H3).
  destruct (decide (cr = self)) as [->|Hne].
  - rewrite Ho in H2. injection H2 as -> ->.
    exists self, (dict_set (slugify name) (length (clusters (heap w))) dcl).
    split_and!; [done | by rewrite list_lookup_insert_eq by by eapply lookup_lt_Some |].
    intros s cl. destruct (decide (slugify name = s)) as [<-|Hslug].
    + rewrite dict_get_set_eq. intros [= <-].
      by rewrite lookup_app_r, Nat.sub_diag.
    + rewrite dict_get_set_ne by done. intros Hcl.
      by apply lookup_app_l_Some, H3.
  - exists cr, dcl. split_and!; [done | by rewrite list_lookup_insert_ne |].
    intros s cl Hcl. by apply lookup_app_l_Some, H3.
Qed.

Lemma Collection_clear_layout self w w' store :
  Collection_clear self w = (Ok tt, w') →
  store_layout w store → store_layout w' store.
Proof.
  intros (folder & cr0 & d0 & fcr & Hself & Hreg & Hheap & _)%Collection_clear_Ok
         (root & colls & dcoll & Hst & Hcolls & Hentries).
  unfold store_layout. rewrite Hheap. simpl.
  exists root, colls, dcoll. split_and!; [done..|].
  intros cslug c Hc. destruct (Hentries _ _ Hc) as (cr & dcl & H1 & H2 & H3).
  destruct (decide (c = self)) as [->|Hne].
  - rewrite Hself in H1. injection H1 as -> ->.
    exists (length (cluster_registries (heap w))), [].
    split_and!; [by rewrite list_lookup_insert_eq by by eapply lookup_lt_Some
                | by rewrite lookup_app_r, Nat.sub_diag | done].
  - exists cr, dcl.
    split_and!; [by rewrite list_lookup_insert_ne | by apply lookup_app_l_Some | done].
Qed.

(** X10: the on-disk layout is an invariant of a store.  A new store has
    it; [store_item] and [clear_collection] (on this or any other store)
    keep it; and under it the file of the cluster registered as
    [cluster_slug] in the collection registered as [collection_slug] is
    [root / collection_slug / (cluster_slug + ".dat")]. *)
Theorem store_layout_invariant :
  (∀ root w store w', Store_new root w = (Ok store, w') → store_layout w' store)
  ∧ (∀ store other item collection cluster key w w',
       store_layout w store →
       Store_store_item other item collection cluster key w = (Ok tt, w') →
       store_layout w' store)
  ∧ (∀ store other name w w',
       store_layout w store →
       Store_clear_collection other name w = (Ok tt, w') →
       store_layout w' store)
  ∧ (∀ store collection_slug cluster_slug w loc,
       store_layout w store →
       cluster_file w store collection_slug cluster_slug = Some loc →
       ∃ root colls,
         stores (heap w) !! store = Some (StoreObj root colls)
         ∧ loc = joinpath (joinpath root collection_slug) (cluster_slug +:+ ".dat")).
Proof.
  split_and!.
  - intros root w store w' Hnew. unfold Store_new, CollectionRegistry_new in Hnew.
    apply bind_Ok_inv in Hnew as (colls & w1 & [= <- <-] & [= <- <-]).
    exists root, (length (collection_registries (heap w))), []. simpl.
    split_and!; [by rewrite lookup_app_r, Nat.sub_diag..|done].
  - intros store other item collection cluster key w w' Hlayout Hrun.
    unfold Store_store_item in Hrun.
    apply bind_Ok_inv in Hrun as (colls & w0 & [-> _]%Store_collections_Ok & Hrun).
    apply bind_Ok_inv in Hrun as (c & w1 & Hc & Hrun).
    apply bind_Ok_inv in Hrun as (cr & w1' & [-> _]%Collection_clusters_Ok & Hrun).
    apply bind_Ok_inv in Hrun as (cl & w2 & Hcl & Happ).
    apply Cluster_append_Ok in Happ as (loc & _ & _ & ->).
    apply (store_layout_same_heap w2); [done|].
    eapply ClusterRegistry_get_layout; [exact Hcl|].
    eapply CollectionRegistry_get_layout; [exact Hc|done].
  - intros store other name w w' Hlayout
      (colls & c & w0 & _ & Hc & Hclear)%Store_clear_collection_Ok.
    eapply Collection_clear_layout; [exact Hclear|].
    eapply CollectionRegistry_get_layout; [exact Hc|done].
  - intros store cslug s w loc (root & colls & dcoll & Hst & Hcolls & Hentries).
    unfold cluster_file, store_collections_of, registered, registry_resources,
      collection_clusters_of, cluster_location_of.
    rewrite Hst. simpl. rewrite Hcolls. simpl.
    destruct (dict_get cslug dcoll) as [c|] eqn:Hc; [|done]. simpl.
    destruct (Hentries _ _ Hc) as (cr & dcl & H1 & H2 & H3).
    rewrite H1. simpl. rewrite H2. simpl.
    destruct (dict_get s dcl) as [cl|] eqn:Hcl; [|done]. simpl.
    rewrite (H3 _ _ Hcl). simpl. intros [= <-]. eauto.
Qed.

(** ** Catalog *)

Lemma find_model_loop_undeclared self items model w :
  Forall (λ entry : string * DeclaredClass, cls_model entry.2 ≠ Some model) items →
  find_model_loop self items model w = (Ok None, w).
Proof.
  induction 1 as [|[name cls] items Hcls _ IH]; [done|].
  cbn [find_model_loop]. simpl in Hcls. by rewrite decide_False.
Qed.

(** X11: a model that no descriptor of [catalog.py] declares has no
    collection: [find_model_collection] returns [None] (it does not raise),
    and [get], [filter] and [list_all] all end in the [AttributeError] of
    [None.clusters]; nothing is created on disk or in memory. *)
Theorem Catalog_undeclared_model self model w :
  model_undeclared w model →
  Catalog_find_model_collection self model w = (Ok None, w)
  ∧ (∀ key cluster,
       Catalog_get self model key cluster w = (Raise (AttributeError "clusters"), w))
  ∧ (∀ key_start key_end cluster,
       Catalog_filter self model key_start key_end cluster w
       = (Raise (AttributeError "clusters"), w))
  ∧ Catalog_list_all self model w = (Raise (AttributeError "clusters"), w).
Proof.
  intros Hnone.
  assert (Hfind : Catalog_find_model_collection self model w = (Ok None, w)).
  { unfold Catalog_find_model_collection, get_known_files.
    by apply find_model_loop_undeclared. }
  split_and!; [done|..].
  - intros key cluster. unfold Catalog_get.
    by rewrite (bind_Ok _ _ _ _ _ Hfind).
  - intros a b cluster. unfold Catalog_filter.
    by rewrite (bind_Ok _ _ _ _ _ Hfind).
  - unfold Catalog_list_all. by rewrite (bind_Ok _ _ _ _ _ Hfind).
Qed.

Lemma yield_all_decode model d :
  yield_all model d = decode_all model (dict_values d).
Proof.
  induction d as [|[key data] d IH]; [done|].
  cbn [yield_all]. unfold dict_values in *. cbn [fmap list_fmap snd decode_all].
  rewrite IH. by destruct (from_tuple model data).
Qed.

Lemma decode_all_app model xs ys :
  decode_all model (xs ++ ys)
  = match (decode_all model xs).2 with
    | Some _ => decode_all model xs
    | None => ((decode_all model xs).1 ++ (decode_all model ys).1,
               (decode_all model ys).2)
    end.
Proof.
  induction xs as [|x xs IH]; cbn [app decode_all].
  - by destruct (decode_all model ys).
  - destruct (from_tuple model x) as [item|e]; [|done].
    rewrite IH. cbn [fst snd].
    destruct (decode_all model xs) as [items [e|]]; reflexivity.
Qed.

Lemma list_all_loop_run model cls w :
  (∀ cl, cl ∈ cls → ∃ loc lines,
     cluster_location_of w cl = Some loc ∧ file_lines w loc = Some lines) →
  list_all_loop model cls w
  = (Ok (decode_all model (concat (cluster_records w <$> cls))), w).
Proof.
  induction cls as [|cl cls IH]; intros Hfiles; [done|].
  destruct (Hfiles cl) as (loc & lines & Hloc & Hlines); [apply elem_of_cons; by left|].
  cbn [list_all_loop fmap list_fmap concat].
  assert (Hobj : clusters (heap w) !! cl = Some (ClusterObj loc)).
  { unfold cluster_location_of in Hloc.
    destruct (clusters (heap w) !! cl) as [[loc']|]; [|done].
    simpl in Hloc. by injection Hloc as ->. }
  rewrite (Cluster_load_all_file _ _ _ _ Hobj Hlines).
  rewrite IH by (intros cl' Hin; apply Hfiles, elem_of_cons; by right).
  rewrite decode_all_app, yield_all_decode.
  replace (cluster_records w cl) with (dict_values (replay lines))
    by (unfold cluster_records; by rewrite Hloc, Hlines).
  destruct (decode_all model (dict_values (replay lines))) as [items [e|]];
    reflexivity.
Qed.

(** X12: [list_all] yields the records of the clusters that the collection
    of the model has registered, cluster after cluster in registration
    order, each cluster giving the values of its replayed file; a record
    that does not decode ends the sequence.  Files of the collection folder
    that no cluster of this registry stands for are not read. *)
Theorem Catalog_list_all_registered self model c w w1 cr d :
  Catalog_find_model_collection self model w = (Ok (Some c), w1) →
  collection_clusters_of w1 c = Some cr →
  registry_resources ClusterRegistryClass w1 cr = Some d →
  (∀ cl, cl ∈ dict_values d → ∃ loc lines,
     cluster_location_of w1 cl = Some loc ∧ file_lines w1 loc = Some lines) →
  Catalog_list_all self model w
  = (Ok (decode_all model (concat (cluster_records w1 <$> dict_values d))), w1).
Proof.
  intros Hfind Hcr Hd Hfiles. unfold Catalog_list_all.
  rewrite (bind_Ok _ _ _ _ _ Hfind). cbn [clusters_of].
  assert (Hcl : Collection_clusters c w1 = (Ok cr, w1))
    by by apply Collection_clusters_Ok.
  rewrite (bind_Ok _ _ _ _ _ Hcl).
  rewrite (bind_Ok _ _ _ _ _ (Registry_iter_run _ _ _ _ Hd)).
  by apply list_all_loop_run.
Qed.

(** X13: in a process that has not yet asked for the collection of the
    model (the call creates its object), [list_all] yields nothing,
    whatever the files of the collection folder hold; no file content
    changes. *)
Theorem Catalog_list_all_new_collection self store model c w w1 :
  catalogs (heap w) !! self = Some (CatalogObj store) →
  store_layout w store →
  Catalog_find_model_collection self model w = (Ok (Some c), w1) →
  collections (heap w) !! c = None →
  Catalog_list_all self model w = (Ok ([], None), w1)
  ∧ ∀ p, default [] (file_lines w1 p) = default [] (file_lines w p).
Proof.
  intros Hcat (root & colls & dcoll & Hst & Hcolls & Hentries) Hfind Hnew.
  pose proof Hfind as Hfind'.
  unfold Catalog_find_model_collection, get_known_files in Hfind'.
  apply (find_model_loop_Ok _ _ _ _ (Some c)) in Hfind'
    as (name & cls & store' & colls' & _ & _ & Hcat' & Hcolls' & Hget).
  rewrite Hcat in Hcat'. injection Hcat' as <-.
  unfold store_collections_of in Hcolls'. rewrite Hst in Hcolls'.
  injection Hcolls' as <-.
  apply CollectionRegistry_get_Ok in Hget as (d & root0 & Ho & Hcase).
  rewrite Hcolls in Ho. injection Ho as <- <-.
  destruct (dict_get (slugify name) dcoll) as [c0|] eqn:Hslug.
  { destruct Hcase as [-> _].
    destruct (Hentries _ _ Hslug) as (? & ? & Hc & _). congruence. }
  destruct Hcase as [Hc Hw1].
  split.
  - assert (Hcl : Collection_clusters c w1
                  = (Ok (length (cluster_registries (heap w))), w1)).
    { apply Collection_clusters_Ok. split; [done|].
      rewrite Hw1, Hc. unfold collection_clusters_of. simpl.
      rewrite ensure_node_heap. simpl. by rewrite lookup_app_r, Nat.sub_diag. }
    assert (Hd : registry_resources ClusterRegistryClass w1
                   (length (cluster_registries (heap w))) = Some []).
    { rewrite Hw1. unfold registry_resources. simpl.
      rewrite ensure_node_heap. simpl. by rewrite lookup_app_r, Nat.sub_diag. }
    unfold Catalog_list_all.
    rewrite (bind_Ok _ _ _ _ _ Hfind). cbn [clusters_of].
    rewrite (bind_Ok _ _ _ _ _ Hcl).
    by rewrite (bind_Ok _ _ _ _ _ (Registry_iter_run _ _ _ _ Hd)).
  - intros p. rewrite Hw1. unfold file_lines. rewrite node_at_set_heap.
    fold (file_lines (ensure_node (joinpath root (slugify name)) Dir
      (set_heap (set_collections (λ objs, objs ++
         [CollectionObj (joinpath root (slugify name))
            (length (cluster_registries (heap w)))]))
         (set_heap (set_cluster_registries (λ objs, objs ++
            [ClusterRegistryObj [] (joinpath root (slugify name))])) w))) p).
    rewrite ensure_node_lines by by left.
    unfold file_lines. by rewrite !node_at_set_heap.
Qed.

Lemma range_records_cons key_start key_end key data d :
  range_records key_start key_end ((key, data) :: d)
  = match key with
    | Some k =>
        if str_le key_start k && str_le k key_end
        then data :: range_records key_start key_end d
        else range_records key_start key_end d
    | None => range_records key_start key_end d
    end.
Proof.
  unfold range_records, in_range. cbn [omap list_omap].
  destruct key as [k|]; [|done].
  by destruct (str_le key_start k && str_le k key_end).
Qed.

Lemma filter_loop_app model key_start key_end d rest :
  all_keys_are_strings d = true →
  filter_loop model key_start key_end (d ++ rest)
  = match (decode_all model (range_records key_start key_end d)).2 with
    | Some _ => decode_all model (range_records key_start key_end d)
    | None =>
        ((decode_all model (range_records key_start key_end d)).1
           ++ (filter_loop model key_start key_end rest).1,
         (filter_loop model key_start key_end rest).2)
    end.
Proof.
  induction d as [|[[k|] data] d IH]; cbn [all_keys_are_strings forallb fst].
  - intros _. simpl. by destruct (filter_loop model key_start key_end rest).
  - rewrite bool_decide_true by by eexists. cbn [andb]. intros Hd.
    rewrite range_records_cons. cbn [app filter_loop].
    destruct (str_le key_start k && str_le k key_end); [|by apply IH].
    cbn [decode_all]. destruct (from_tuple model data) as [item|e]; [|done].
    rewrite (IH Hd). cbn [fst snd].
    destruct (decode_all model (range_records key_start key_end d))
      as [items [e|]]; reflexivity.
  - rewrite bool_decide_false by by intros [? [=]]. done.
Qed.

(** X14: when the mapping of the cluster has a record stored without key,
    [filter] yields the decoded in-range records that come before it and
    then ends in [TypeError], whatever the bounds; the entries after it are
    never compared, so in-range records among them are lost. *)
Theorem Catalog_filter_keyless_record
    self model key_start key_end cluster w before data after w' :
  Catalog_cluster_data self model cluster w
  = (Ok (before ++ (None, data) :: after), w') →
  all_keys_are_strings before = true →
  let gen := decode_all model (range_records key_start key_end before) in
  Catalog_filter self model key_start key_end cluster w
  = (Ok match gen.2 with
        | Some _ => gen
        | None =>
            (gen.1,
             Some (TypeError
                     "'>=' not supported between instances of 'NoneType' and 'str'"))
        end, w').
Proof.
  intros Hd Hkeys gen.
  rewrite Catalog_filter_loop, (bind_Ok _ _ _ _ _ Hd). unfold mret, M_ret.
  rewrite filter_loop_app by done. fold gen. cbn [filter_loop fst snd].
  by rewrite app_nil_r.
Qed.

Lemma str_le_refl s : str_le s s = true.
Proof. unfold str_le. by destruct (String.leb_total s s). Qed.

Lemma range_records_absent k (d : dict (option string) Data) :
  Some k ∉ dict_keys d → range_records k k d = [].
Proof.
  induction d as [|[key data] d IH]; [done|].
  unfold dict_keys. cbn [fmap list_fmap fst].
  intros [Hne Hrest]%not_elem_of_cons. rewrite range_records_cons.
  destruct key as [k'|]; [|by apply IH].
  destruct (str_le k k' && str_le k' k) eqn:Hin; [|by apply IH].
  apply andb_true_iff in Hin as [H1 H2].
  destruct Hne. f_equal. symmetry. by apply String.leb_antisym.
Qed.

Lemma range_records_single k (d : dict (option string) Data) :
  NoDup (dict_keys d) →
  range_records k k d
  = match dict_get (Some k) d with Some data => [data] | None => [] end.
Proof.
  induction d as [|[key data] d IH]; [done|].
  unfold dict_keys. cbn [fmap list_fmap fst]. intros [Hhead Hrest]%NoDup_cons.
  rewrite range_records_cons. cbn [dict_get].
  destruct (decide (key = Some k)) as [->|Hne].
  - rewrite str_le_refl. cbn [andb]. by rewrite range_records_absent.
  - rewrite <- IH by done. destruct key as [k'|]; [|done].
    destruct (str_le k k' && str_le k' k) eqn:Hin; [|done].
    apply andb_true_iff in Hin as [H1 H2].
    destruct Hne. f_equal. symmetry. by apply String.leb_antisym.
Qed.

Lemma get_loop_dict_get model key d :
  get_loop model key d
  = match dict_get key d with
    | Some data => returned model data
    | None => Ok None
    end.
Proof.
  induction d as [|[k data] d IH]; [done|].
  cbn [get_loop dict_get]. by destruct (decide (k = key)).
Qed.

(** X15: on a cluster whose keys are all strings, [filter] with both bounds
    equal to [key] yields exactly what [get] returns for [key]: nothing
    when [get] returns [None], the one item when it returns one, and it
    ends in the exception that [get] raises. *)
Theorem Catalog_filter_equal_bounds_is_get self model key cluster w d w' :
  Catalog_cluster_data self model cluster w = (Ok d, w') →
  all_keys_are_strings d = true →
  ∃ result,
    Catalog_get self model (Some key) cluster w = (result, w')
    ∧ Catalog_filter self model key key cluster w
      = (Ok match result with
            | Ok None => ([], None)
            | Ok (Some item) => ([item], None)
            | Raise e => ([], Some e)
            end, w').
Proof.
  intros Hd Hkeys.
  pose proof Hd as (_ & _ & _ & _ & lines & _ & _ & _ & _ & _ & ->)%Catalog_cluster_data_Ok.
  exists (get_loop model (Some key) (replay lines)). split.
  - by rewrite Catalog_get_loop, (bind_Ok _ _ _ _ _ Hd).
  - rewrite Catalog_filter_loop, (bind_Ok _ _ _ _ _ Hd). unfold mret, M_ret.
    rewrite filter_loop_string_keys by done.
    rewrite range_records_single by apply replay_keys_NoDup.
    rewrite get_loop_dict_get.
    destruct (dict_get (Some key) (replay lines)) as [data|]; [|done].
    unfold returned. cbn [decode_all].
    by destruct (from_tuple model data).
Qed.

Lemma find_model_loop_first self before name cls after model w :
  Forall (λ entry : string * DeclaredClass, cls_model entry.2 ≠ Some model) before →
  cls_model cls = Some model →
  find_model_loop self (before ++ (name, cls) :: after) model w
  = (store ← Catalog_store self;
     collections ← Store_collections store;
     collection ← CollectionRegistry_get collections name;
     mret (Some collection)) w.
Proof.
  intros Hbefore Hcls.
  induction Hbefore as [|[name' cls'] before Hhead _ IH]; cbn [app find_model_loop].
  - by rewrite decide_True.
  - simpl in Hhead. by rewrite decide_False.
Qed.

Lemma last_write_snoc key data (lines : list Line) :
  last_write key (lines ++ [(key, data)]) = Some data.
Proof.
  unfold last_write. rewrite filter_app, filter_cons_True, filter_nil by done.
  rewrite fmap_app. apply last_snoc.
Qed.

(** X16: what [store_item] has just written under a key, [get] returns for
    that key: when the record goes to the collection named after the first
    descriptor of the model and to a named cluster, [Catalog.get] with the
    same cluster and key decodes the very data written (whatever older
    lines the file holds for the key) and changes nothing. *)
Theorem Store_store_item_then_get
    self store item name model cluster key before cls after w w1 :
  catalogs (heap w) !! self = Some (CatalogObj store) →
  known_files catalog_py w = before ++ (name, cls) :: after →
  Forall (λ entry, cls_model entry.2 ≠ Some model) before →
  cls_model cls = Some model →
  cluster ≠ "" →
  Store_store_item store item name (Some cluster) key w = (Ok tt, w1) →
  Catalog_get self model key (Some cluster) w1
  = (returned model (to_dict item), w1).
Proof.
  intros Hcat Htable Hbefore Hcls Hcluster Hstore.
  apply Store_store_item_Ok in Hstore
    as (loc & Hfile & Hlines & _ & _ & _ & Htab & _ & Hcats).
  unfold cluster_file in Hfile.
  destruct (store_collections_of w1 store) as [colls|] eqn:Hcolls; [|done].
  simpl in Hfile.
  destruct (registered CollectionRegistryClass w1 colls (slugify name))
    as [c|] eqn:Hc; [|done].
  simpl in Hfile.
  destruct (collection_clusters_of w1 c) as [cr|] eqn:Hcr; [|done].
  simpl in Hfile.
  destruct (registered ClusterRegistryClass w1 cr (slugify cluster))
    as [cl|] eqn:Hcl; [|done].
  simpl in Hfile.
  assert (Hfind : Catalog_find_model_collection self model w1 = (Ok (Some c), w1)).
  { assert (H0 : get_known_files catalog_py w1
                 = (Ok (before ++ (name, cls) :: after), w1)).
    { unfold get_known_files. rewrite <- Htable. simpl. by rewrite Htab. }
    unfold Catalog_find_model_collection. rewrite (bind_Ok _ _ _ _ _ H0).
    rewrite find_model_loop_first by done.
    assert (H1 : Catalog_store self w1 = (Ok store, w1))
      by (apply Catalog_store_Ok; by rewrite Hcats).
    rewrite (bind_Ok _ _ _ _ _ H1).
    assert (H2 : Store_collections store w1 = (Ok colls, w1))
      by by apply Store_collections_Ok.
    rewrite (bind_Ok _ _ _ _ _ H2).
    unfold registered in Hc.
    destruct (registry_resources CollectionRegistryClass w1 colls)
      as [d|] eqn:Hd; [|done].
    simpl in Hc.
    assert (H3 : CollectionRegistry_get colls name w1 = (Ok c, w1))
      by by eapply Registry_get_hit.
    by rewrite (bind_Ok _ _ _ _ _ H3). }
  rewrite Catalog_get_loop.
  enough (Hdata : Catalog_cluster_data self model (Some cluster) w1
                  = (Ok (replay (default [] (file_lines w loc)
                                   ++ [(key, to_dict item)])), w1)).
  { rewrite (bind_Ok _ _ _ _ _ Hdata).
    unfold lift. by rewrite get_loop_dict_get, replay_get, last_write_snoc. }
  unfold Catalog_cluster_data.
  rewrite (bind_Ok _ _ _ _ _ Hfind). cbn [clusters_of].
  assert (H4 : Collection_clusters c w1 = (Ok cr, w1))
    by by apply Collection_clusters_Ok.
  rewrite (bind_Ok _ _ _ _ _ H4).
  replace (cluster_or_default (Some cluster)) with cluster
    by (unfold cluster_or_default; by rewrite decide_False).
  unfold registered in Hcl.
  destruct (registry_resources ClusterRegistryClass w1 cr) as [d|] eqn:Hd; [|done].
  simpl in Hcl.
  assert (H5 : ClusterRegistry_get cr cluster w1 = (Ok cl, w1))
    by by eapply Registry_get_hit.
  rewrite (bind_Ok _ _ _ _ _ H5).
  assert (Hobj : clusters (heap w1) !! cl = Some (ClusterObj loc)).
  { unfold cluster_location_of in Hfile.
    destruct (clusters (heap w1) !! cl) as [[loc']|]; [|done].
    simpl in Hfile. by injection Hfile as ->. }
  by apply (Cluster_load_all_file _ _ loc).
Qed.

(** ** The tables of descriptor classes *)

Lemma elem_of_dict_set {K V} `{EqDecision K} (k k' : K) (v v' : V) (d : dict K V) :
  (k', v') ∈ dict_set k v d → (k', v') = (k, v) ∨ (k', v') ∈ d.
Proof.
  induction d as [|[k0 v0] d IH]; cbn [dict_set].
  - intros ->%list_elem_of_singleton. by left.
  - destruct (decide (k0 = k)) as [->|Hne].
    + intros [->|Hin]%elem_of_cons; [by left|]. right. apply elem_of_cons. by right.
    + intros [->|Hin]%elem_of_cons.
      * right. apply elem_of_cons. by left.
      * destruct (IH Hin) as [->|Hd]; [by left|]. right. apply elem_of_cons. by right.
Qed.

Lemma class_statement_tables_ok base body w r w' :
  tables_ok w → class_statement base body w = (r, w') → tables_ok w'.
Proof.
  intros Hok. unfold class_statement, DeclaredFile_init_subclass.
  destruct (cls_name (derive base body)) as [name|] eqn:Hname;
    [|by intros [= <- <-]].
  destruct (cls_model (derive base body)) as [model|] eqn:Hmodel;
    [|by intros [= <- <-]].
  intros [= <- <-]. intros m name' cls' Hin.
  change (cls_module (derive base body)) with (cls_module base) in Hin.
  destruct (cls_module base) eqn:Hmod; destruct m; simpl in Hin;
    try (by apply (Hok _ name' cls'));
    apply elem_of_dict_set in Hin as [[= -> ->]|Hin];
    try (by apply (Hok _ name' cls'));
    (split_and!; [exact Hmod | exact Hname | by rewrite Hmodel]).
Qed.

Lemma exec_module_tables_ok m w r w' :
  tables_ok w → exec_module m w = (r, w') → tables_ok w'.
Proof.
  unfold exec_module. generalize declared_bodies. intros bodies. revert w.
  induction bodies as [|body bodies IH]; intros w Hok; cbn [for_each].
  - by intros [= <- <-].
  - unfold mbind at 1, M_bind.
    destruct (class_statement (DeclaredFile m) body w) as [[cls|e] w1] eqn:Hcls.
    + unfold mbind at 1, M_bind. rewrite Hcls. simpl.
      apply IH. by eapply class_statement_tables_ok.
    + unfold mbind at 1, M_bind. rewrite Hcls. intros [= <- <-].
      by eapply class_statement_tables_ok.
Qed.

(** X17: the tables of descriptor classes keep an invariant: every entry is
    a class of that module, entered under its own name, with a model.
    Empty tables have it, every class statement keeps it whether it
    succeeds or raises, and so does the import.  Under it every class of a
    table can be instantiated on any folder: [declared_class(folder)]
    never raises, and the instance carries the name it is listed under. *)
Theorem known_files_entries_instantiate :
  (∀ w, store_known_files w = [] → catalog_known_files w = [] → tables_ok w)
  ∧ (∀ base body w r w',
       tables_ok w → class_statement base body w = (r, w') → tables_ok w')
  ∧ (∀ w r w', tables_ok w → import_catalog w = (r, w') → tables_ok w')
  ∧ (∀ w m name cls folder,
       tables_ok w → (name, cls) ∈ known_files m w →
       ∃ source,
         DeclaredFile_init cls (PyPath folder) w = (Ok source, w)
         ∧ df_class source = cls
         ∧ DeclaredFile_name source = name
         ∧ SourceFile_root (df_source source) = folder
         ∧ cls_model cls = Some (SourceFile_model (df_source source))).
Proof.
  split_and!.
  - intros w Hs Hc m name cls. destruct m; simpl; rewrite ?Hs, ?Hc;
      by intros ?%elem_of_nil.
  - apply class_statement_tables_ok.
  - intros w r w' Hok. unfold import_catalog. unfold mbind, M_bind.
    destruct (exec_module store_py w) as [[[]|e] w1] eqn:Hstore.
    + intros Hcat. eapply exec_module_tables_ok; [|exact Hcat].
      by eapply exec_module_tables_ok.
    + intros [= <- <-]. by eapply exec_module_tables_ok.
  - intros w m name cls folder Hok Hin.
    destruct (Hok _ _ _ Hin) as (_ & Hname & [model Hmodel]).
    unfold DeclaredFile_init. rewrite Hname, Hmodel. simpl.
    eexists. split_and!; reflexivity.
Qed.

Lemma Catalog_cluster_data_frame self model cluster w d w' :
  Catalog_cluster_data self model cluster w = (Ok d, w') →
  (∀ p x, node_at w p = Some x → node_at w' p = Some x)
  ∧ (∀ p, default [] (file_lines w' p) = default [] (file_lines w p))
  ∧ store_known_files w' = store_known_files w
  ∧ catalog_known_files w' = catalog_known_files w.
Proof.
  unfold Catalog_cluster_data, Catalog_find_model_collection.
  intros (collection & w1 & Hfind & Hrun)%bind_Ok_inv.
  apply bind_Ok_inv in Hfind as (table & w0 & [= <- <-] & Hfind).
  apply find_model_loop_Ok in Hfind.
  apply bind_Ok_inv in Hrun as (cr & w1' & Hcr & Hrun).
  destruct collection as [c|]; [|discriminate].
  destruct Hfind as (name & cls & store & colls & _ & _ & _ & _ & Hc).
  apply Collection_clusters_Ok in Hcr as [-> Hcr].
  apply CollectionRegistry_get_frame in Hc
    as (_ & _ & _ & _ & Hs1 & Hc1 & Hnodes1 & Hlines1).
  apply bind_Ok_inv in Hrun as (cl & w2 & Hcl & Hload).
  apply ClusterRegistry_get_frame in Hcl
    as (_ & _ & _ & _ & _ & _ & Hs2 & Hc2 & Hnodes2 & Hlines2).
  unfold Cluster_load_all in Hload.
  apply bind_Ok_inv in Hload as (loc & w3 & [-> Hloc]%Cluster_location_Ok & Hload).
  apply bind_Ok_inv in Hload as (lines & w3 & Hread & [= <- <-]).
  assert (w3 = w2) as ->.
  { unfold read_lines in Hread.
    destruct (node_at w2 loc) as [[|ls]|]; try discriminate.
    by injection Hread as _ ->. }
  split_and!.
  - intros p x Hp. by apply Hnodes2, Hnodes1.
  - intros p. by rewrite Hlines2, Hlines1.
  - by rewrite Hs2, Hs1.
  - by rewrite Hc2, Hc1.
Qed.

(** X18: the reads of the catalog are not read-only, but they never alter
    what a file holds.  A [get] or [filter] whose cluster loads leaves
    every existing entry and the content of every file as they were; the
    file of the cluster exists afterwards, and the mapping is the replay of
    what that file held before the call.  When the file did not exist, the
    call has created it empty, [get] returns [None] for every key and
    [filter] yields nothing for all bounds. *)
Theorem Catalog_reads_only_create self model cluster w d w' :
  Catalog_cluster_data self model cluster w = (Ok d, w') →
  (∀ p x, node_at w p = Some x → node_at w' p = Some x)
  ∧ (∀ p, default [] (file_lines w' p) = default [] (file_lines w p))
  ∧ ∃ name cls store loc,
      (name, cls) ∈ known_files catalog_py w
      ∧ cls_model cls = Some model
      ∧ catalogs (heap w) !! self = Some (CatalogObj store)
      ∧ cluster_file w' store (slugify name) (slugify (cluster_or_default cluster))
        = Some loc
      ∧ is_Some (file_lines w' loc)
      ∧ d = replay (default [] (file_lines w loc))
      ∧ (node_at w loc = None →
         file_lines w' loc = Some []
         ∧ (∀ key, Catalog_get self model key cluster w = (Ok None, w'))
         ∧ (∀ key_start key_end,
              Catalog_filter self model key_start key_end cluster w
              = (Ok ([], None), w'))).
Proof.
  intros Hd.
  pose proof (Catalog_cluster_data_frame _ _ _ _ _ _ Hd)
    as (Hnodes & Hlines & _ & _).
  pose proof (Catalog_cluster_data_Ok _ _ _ _ _ _ Hd)
    as (name & cls & store & loc & lines & Hin & Hm & Hcat & Hfile & Hloc & ->).
  assert (Hsame : lines = default [] (file_lines w loc)).
  { rewrite <- Hlines, Hloc. done. }
  split_and!; [done..|].
  exists name, cls, store, loc.
  split_and!; [done|done|done|done|by eexists|by rewrite Hsame|].
  intros Hnone.
  assert (lines = []) as ->.
  { rewrite Hsame. unfold file_lines. by rewrite Hnone. }
  split_and!; [done|..].
  - intros key. by rewrite Catalog_get_loop, (bind_Ok _ _ _ _ _ Hd).
  - intros a b. by rewrite Catalog_filter_loop, (bind_Ok _ _ _ _ _ Hd).
Qed.

(** ** Ingestion *)

(** X19: a descriptor that clears its collection does so before it reads
    its source.  When the source then yields no row (it is empty, or
    cannot be read and raises [e]), [ingest] has deleted the file of every
    cluster registered in the collection and stored nothing: no file
    holds anything it did not hold before. *)
Theorem DeclaredFile_ingest_clears_first source store err w w1 :
  cls_pre_ingest (df_class source) = PreIngestClear →
  SourceFile_load (df_source source) = ([], err) →
  Store_clear_collection store (DeclaredFile_name source) w = (Ok tt, w1) →
  DeclaredFile_ingest source store w
  = (match err with Some e => Raise e | None => Ok tt end, w1)
  ∧ (∀ cluster_slug loc,
       cluster_file w store (slugify (DeclaredFile_name source)) cluster_slug
       = Some loc →
       node_at w1 loc = None)
  ∧ (∀ p lines, file_lines w1 p = Some lines →
                lines = default [] (file_lines w p)).
Proof.
  intros Hpre Hload Hclear. split_and!.
  - unfold DeclaredFile_ingest, DeclaredFile_pre_ingest. rewrite Hpre.
    rewrite (bind_Ok _ _ _ _ _ Hclear). unfold for_gen. rewrite Hload.
    by destruct err.
  - intros s loc Hfile.
    apply Store_clear_collection_Ok in Hclear as (colls & c & w0 & Hcolls & Hget & Hcl).
    unfold cluster_file in Hfile. rewrite Hcolls in Hfile. simpl in Hfile.
    destruct (registered CollectionRegistryClass w colls
                (slugify (DeclaredFile_name source))) as [c'|] eqn:Hc'; [|done].
    simpl in Hfile.
    apply CollectionRegistry_get_Ok in Hget as (d & root & Ho & Hcase).
    unfold registered, registry_resources in Hc'. rewrite Ho in Hc'.
    simpl in Hc'. rewrite Hc' in Hcase. destruct Hcase as [-> ->].
    apply Collection_clear_Ok in Hcl
      as (folder & cr & d2 & fcr & Hself & Hreg & _ & _ & _ & Hin & _).
    unfold collection_clusters_of in Hfile. rewrite Hself in Hfile.
    simpl in Hfile.
    destruct (registered ClusterRegistryClass w cr s) as [cl|] eqn:Hs; [|done].
    simpl in Hfile.
    unfold registered, registry_resources in Hs. rewrite Hreg in Hs. simpl in Hs.
    apply Hin. by eapply registered_location_deleted.
  - intros p lines Hp.
    apply Store_clear_collection_Ok in Hclear as (colls & c & w0 & Hcolls & Hget & Hcl).
    apply CollectionRegistry_get_frame in Hget as (_ & _ & _ & _ & _ & _ & _ & Hlines).
    apply Collection_clear_Ok in Hcl
      as (folder & cr & d2 & fcr & _ & _ & _ & _ & _ & Hin & Hout & _).
    rewrite <- Hlines.
    destruct (decide (p ∈ cluster_locations w0 (dict_values d2))) as [Hp'|Hp'].
    + unfold file_lines in Hp. by rewrite (Hin _ Hp') in Hp.
    + unfold file_lines in *. rewrite (Hout _ Hp') in Hp. by rewrite Hp.
Qed.

Lemma Collection_clear_empty_run c folder n fcr w :
  collections (heap w) !! c = Some (CollectionObj folder n) →
  cluster_registries (heap w) !! n = Some (ClusterRegistryObj [] fcr) →
  Collection_clear c w
  = (Ok tt,
     set_heap (set_collections
                 <[c := CollectionObj folder (length (cluster_registries (heap w)))]>)
       (set_heap (set_cluster_registries
                    (λ objs, objs ++ [ClusterRegistryObj [] folder])) w)).
Proof.
  intros Hc Hn. unfold Collection_clear.
  assert (H1 : Collection_clusters c w = (Ok n, w)).
  { apply Collection_clusters_Ok. split; [done|].
    unfold collection_clusters_of. by rewrite Hc. }
  rewrite (bind_Ok _ _ _ _ _ H1).
  assert (H2 : Registry_iter ClusterRegistryClass n w = (Ok [], w)).
  { apply (Registry_iter_run ClusterRegistryClass n w []).
    unfold registry_resources. by rewrite Hn. }
  rewrite (bind_Ok _ _ _ _ _ H2). cbn [for_each].
  unfold mret at 1, M_ret at 1, mbind at 1, M_bind at 1.
  assert (H3 : Collection_folder c w = (Ok folder, w)).
  { unfold Collection_folder.
    by rewrite (bind_Ok _ _ _ _ _ (deref_heap collections _ _ _ Hc)). }
  rewrite (bind_Ok _ _ _ _ _ H3).
  assert (H4 : ClusterRegistry_new folder w
               = (Ok (length (cluster_registries (heap w))),
                  set_heap (set_cluster_registries
                              (λ objs, objs ++ [ClusterRegistryObj [] folder])) w))
    by done.
  rewrite (bind_Ok _ _ _ _ _ H4).
  unfold Collection_set_clusters, assign. simpl. by rewrite Hc.
Qed.

Lemma cluster_file_empty_registry w store colls slug c folder n fcr s :
  store_collections_of w store = Some colls →
  registered CollectionRegistryClass w colls slug = Some c →
  collections (heap w) !! c = Some (CollectionObj folder n) →
  cluster_registries (heap w) !! n = Some (ClusterRegistryObj [] fcr) →
  cluster_file w store slug s = None.
Proof.
  intros Hcolls Hreg Hc Hn.
  unfold cluster_file. rewrite Hcolls. simpl. rewrite Hreg. simpl.
  unfold collection_clusters_of. rewrite Hc. simpl.
  unfold registered, registry_resources. by rewrite Hn.
Qed.

(** X20: after a successful [clear_collection] the collection has no
    registered cluster, and a second [clear_collection] of the same name
    succeeds without touching the disk. *)
Theorem Store_clear_collection_twice self name w w1 :
  Store_clear_collection self name w = (Ok tt, w1) →
  (∀ cluster_slug, cluster_file w1 self (slugify name) cluster_slug = None)
  ∧ ∃ w2,
      Store_clear_collection self name w1 = (Ok tt, w2)
      ∧ fs w2 = fs w1
      ∧ ∀ cluster_slug, cluster_file w2 self (slugify name) cluster_slug = None.
Proof.
  intros (colls & c & w0 & Hcolls & Hget & Hcl)%Store_clear_collection_Ok.
  apply CollectionRegistry_get_frame in Hget as (Hreg & Hstores & _).
  apply Collection_clear_Ok in Hcl
    as (folder & cr & d & fcr & Hself & _ & Hheap & _).
  assert (Hlen : c < length (collections (heap w0))) by by eapply lookup_lt_Some.
  set (n := length (cluster_registries (heap w0))) in *.
  assert (Hcolls1 : store_collections_of w1 self = Some colls).
  { unfold store_collections_of in *. rewrite Hheap. simpl. by rewrite Hstores. }
  assert (Hreg1 : registered CollectionRegistryClass w1 colls (slugify name) = Some c).
  { unfold registered, registry_resources in *. by rewrite Hheap. }
  assert (Hc1 : collections (heap w1) !! c = Some (CollectionObj folder n)).
  { rewrite Hheap. simpl. by rewrite list_lookup_insert_eq. }
  assert (Hn1 : cluster_registries (heap w1) !! n = Some (ClusterRegistryObj [] folder)).
  { rewrite Hheap. simpl. by rewrite lookup_app_r, Nat.sub_diag. }
  split; [intros s; by eapply cluster_file_empty_registry|].
  set (w2 := set_heap (set_collections
                 <[c := CollectionObj folder (length (cluster_registries (heap w1)))]>)
       (set_heap (set_cluster_registries
                    (λ objs, objs ++ [ClusterRegistryObj [] folder])) w1)).
  exists w2. split_and!.
  - unfold Store_clear_collection.
    assert (H1 : Store_collections self w1 = (Ok colls, w1))
      by by apply Store_collections_Ok.
    rewrite (bind_Ok _ _ _ _ _ H1).
    assert (H2 : CollectionRegistry_get colls name w1 = (Ok c, w1)).
    { unfold registered in Hreg1.
      destruct (registry_resources CollectionRegistryClass w1 colls)
        as [d1|] eqn:Hd1; [|done].
      by eapply Registry_get_hit. }
    rewrite (bind_Ok _ _ _ _ _ H2).
    by apply (Collection_clear_empty_run c folder n folder).
  - done.
  - intros s.
    apply (cluster_file_empty_registry w2 self colls (slugify name) c folder
             (length (cluster_registries (heap w1))) folder).
    + exact Hcolls1.
    + exact Hreg1.
    + unfold w2. simpl. rewrite list_lookup_insert_eq; [done|].
      by eapply lookup_lt_Some.
    + unfold w2. simpl. by rewrite lookup_app_r, Nat.sub_diag.
Qed.

(** ** Failures of [store_item] *)

Lemma only_created_refl w : only_created w w.
Proof. by split. Qed.

Lemma only_created_trans w1 w2 w3 :
  only_created w1 w2 → only_created w2 w3 → only_created w1 w3.
Proof.
  intros [Hn1 Hl1] [Hn2 Hl2]. split.
  - intros p x Hp. by apply Hn2, Hn1.
  - intros p. by rewrite Hl2, Hl1.
Qed.

Lemma only_created_set_heap f w : only_created w (set_heap f w).
Proof. split; [intros p x; by rewrite node_at_set_heap | intros p; by rewrite file_lines_set_heap]. Qed.

Lemma only_created_ensure_node p n w :
  n = Dir ∨ n = File [] → only_created w (ensure_node p n w).
Proof.
  intros Hn. split.
  - intros q x. apply ensure_node_keeps.
  - intros q. by apply ensure_node_lines.
Qed.

Lemma quiet_ret {A} (a : A) : quiet (mret a).
Proof. intros w r w' [= <- <-]. apply only_created_refl. Qed.

Lemma quiet_raise {A} e : quiet (raise (A := A) e).
Proof. intros w r w' [= <- <-]. apply only_created_refl. Qed.

Lemma quiet_bind {A B} (m : M A) (f : A → M B) :
  quiet m → (∀ a, quiet (f a)) → quiet (m ≫= f).
Proof.
  intros Hm Hf w r w'. unfold mbind, M_bind.
  destruct (m w) as [[a|e] w1] eqn:Hrun.
  - intros Hfa. eapply only_created_trans; [by eapply Hm | by eapply Hf].
  - intros [= <- <-]. by eapply Hm.
Qed.

Lemma fails_quietly_bind {A B} (m : M A) (f : A → M B) :
  quiet m → (∀ a, fails_quietly (f a)) → fails_quietly (m ≫= f).
Proof.
  intros Hm Hf w e w'. unfold mbind, M_bind.
  destruct (m w) as [[a|e'] w1] eqn:Hrun.
  - intros Hfa. eapply only_created_trans; [by eapply Hm | by eapply Hf].
  - intros [= <- <-]. by eapply Hm.
Qed.

Lemma quiet_deref {A} (get : Heap → list A) self : quiet (deref get self).
Proof.
  intros w r w'. unfold deref.
  destruct (get (heap w) !! self); intros [= <- <-]; apply only_created_refl.
Qed.

Lemma quiet_alloc {A} (get : Heap → list A) set o : quiet (alloc get set o).
Proof. intros w r w' [= <- <-]. apply only_created_set_heap. Qed.

Lemma quiet_assign {A} (get : Heap → list A) set self f :
  quiet (assign get set self f).
Proof.
  intros w r w'. unfold assign.
  destruct (get (heap w) !! self); intros [= <- <-];
    [apply only_created_set_heap | apply only_created_refl].
Qed.

Lemma quiet_create_absent p n :
  n = Dir ∨ n = File [] →
  ∀ w r w', node_at w p = None → create_node p n w = (r, w') → only_created w w'.
Proof.
  intros Hn w r w' Hp. unfold create_node.
  destruct (node_at w (parent p)) as [[|ls]|]; intros [= <- <-];
    try apply only_created_refl.
  replace (set_fs <[p:=n]> w) with (ensure_node p n w)
    by (unfold ensure_node; by rewrite Hp).
  by apply only_created_ensure_node.
Qed.

Lemma quiet_Path_mkdir p : quiet (Path_mkdir p).
Proof.
  intros w r w'. unfold Path_mkdir.
  destruct (node_at w p) as [[|ls]|] eqn:Hp;
    [intros [= <- <-]; apply only_created_refl.. |].
  apply quiet_create_absent; [by left | done].
Qed.

Lemma quiet_Path_touch p : quiet (Path_touch p).
Proof.
  intros w r w'. unfold Path_touch.
  destruct (node_at w p) as [x|] eqn:Hp;
    [intros [= <- <-]; apply only_created_refl |].
  apply quiet_create_absent; [by right | done].
Qed.

Lemma quiet_Registry_get cls create self name :
  (∀ registry slug, quiet (create registry slug)) →
  quiet (Registry_get cls create self name).
Proof.
  intros Hcreate. unfold Registry_get. apply quiet_bind.
  - destruct cls; cbn [Registry_resources]; apply quiet_bind;
      try apply quiet_deref; intros []; apply quiet_ret.
  - intros d. destruct (dict_get (slugify name) d); [apply quiet_ret|].
    apply quiet_bind; [apply Hcreate|]. intros r. apply quiet_bind.
    + destruct cls; apply quiet_assign.
    + intros []. apply quiet_ret.
Qed.

Lemma quiet_ClusterRegistry_create self slug :
  quiet (ClusterRegistry_create self slug).
Proof.
  unfold ClusterRegistry_create, ClusterRegistry_folder, Cluster_new,
    Cluster_touch, Cluster_location.
  repeat first
    [ apply quiet_ret | apply quiet_deref | apply quiet_alloc
    | apply quiet_Path_touch
    | apply quiet_bind
    | intros [] | intro ].
Qed.

Lemma quiet_CollectionRegistry_create self slug :
  quiet (CollectionRegistry_create self slug).
Proof.
  unfold CollectionRegistry_create, CollectionRegistry_root, Collection_new,
    ClusterRegistry_new, Collection_touch, Collection_folder.
  repeat first
    [ apply quiet_ret | apply quiet_deref | apply quiet_alloc
    | apply quiet_Path_mkdir
    | apply quiet_bind
    | intros [] | intro ].
Qed.

Lemma fails_quietly_Cluster_append self key data :
  fails_quietly (Cluster_append self key data).
Proof.
  unfold Cluster_append, Cluster_location. apply fails_quietly_bind.
  - apply quiet_bind; [apply quiet_deref|]. intros []. apply quiet_ret.
  - intros loc w e w'. unfold append_line, create_node.
    destruct (node_at w loc) as [[|ls]|]; [intros [= <- <-]; apply only_created_refl|done|].
    destruct (node_at w (parent loc)) as [[|ls]|]; [done|..];
      intros [= <- <-]; apply only_created_refl.
Qed.

(** X21: a [store_item] that raises has written no record.  Whatever the
    exception and wherever it comes from (the registries, [mkdir], [touch]
    or the append itself), every entry of the disk is still there as it
    was and no file holds a line it did not hold before; at most empty
    folders and files have been created. *)
Theorem Store_store_item_failure_writes_nothing
    self item collection cluster key w e w' :
  Store_store_item self item collection cluster key w = (Raise e, w') →
  (∀ p x, node_at w p = Some x → node_at w' p = Some x)
  ∧ (∀ p, default [] (file_lines w' p) = default [] (file_lines w p)).
Proof.
  revert w e w'. change (fails_quietly
    (Store_store_item self item collection cluster key)).
  unfold Store_store_item, Store_collections, Collection_clusters.
  apply fails_quietly_bind.
  { apply quiet_bind; [apply quiet_deref|]. intros []. apply quiet_ret. }
  intros colls. apply fails_quietly_bind.
  { apply quiet_Registry_get. apply quiet_CollectionRegistry_create. }
  intros c. apply fails_quietly_bind.
  { apply quiet_bind; [apply quiet_deref|]. intros []. apply quiet_ret. }
  intros cr. apply fails_quietly_bind.
  { apply quiet_Registry_get. apply quiet_ClusterRegistry_create. }
  intros cl. apply fails_quietly_Cluster_append.
Qed.

(** ** Reads keep the disk *)

Lemma quiet_Cluster_load_all self : quiet (Cluster_load_all self).
Proof.
  unfold Cluster_load_all, Cluster_location.
  apply quiet_bind.
  { apply quiet_bind; [apply quiet_deref|]. intros []. apply quiet_ret. }
  intros loc. apply quiet_bind; [|intros lines; apply quiet_ret].
  intros w r w'. unfold read_lines.
  destruct (node_at w loc) as [[|ls]|]; intros [= <- <-]; apply only_created_refl.
Qed.

Lemma quiet_find_model_loop self items model :
  quiet (find_model_loop self items model).
Proof.
  induction items as [|[name cls] items IH]; cbn [find_model_loop].
  - apply quiet_ret.
  - destruct (decide (cls_model cls = Some model)); [|done].
    unfold Catalog_store, Store_collections.
    repeat first
      [ apply quiet_ret | apply quiet_deref
      | apply quiet_Registry_get; apply quiet_CollectionRegistry_create
      | apply quiet_bind
      | intros [] | intro ].
Qed.

Lemma quiet_Catalog_cluster_data self model cluster :
  quiet (Catalog_cluster_data self model cluster).
Proof.
  unfold Catalog_cluster_data, Catalog_find_model_collection.
  apply quiet_bind.
  { apply quiet_bind; [|intros table; apply quiet_find_model_loop].
    intros w r w' [= <- <-]. apply only_created_refl. }
  intros [c|]; (apply quiet_bind; [|intros cr; apply quiet_bind]).
  - unfold clusters_of, Collection_clusters.
    apply quiet_bind; [apply quiet_deref|]. intros []. apply quiet_ret.
  - apply quiet_Registry_get. apply quiet_ClusterRegistry_create.
  - intros cl. apply quiet_Cluster_load_all.
  - apply quiet_raise.
  - apply quiet_Registry_get. apply quiet_ClusterRegistry_create.
  - intros cl. apply quiet_Cluster_load_all.
Qed.

Lemma quiet_list_all_loop model cls : quiet (list_all_loop model cls).
Proof.
  induction cls as [|cl cls IH]; cbn [list_all_loop]; [apply quiet_ret|].
  intros w r w'.
  destruct (Cluster_load_all cl w) as [[d|e] w1] eqn:Hload.
  - pose proof (quiet_Cluster_load_all _ _ _ _ Hload) as H1.
    destruct ((yield_all model d).2).
    + by intros [= <- <-].
    + destruct (list_all_loop model cls w1) as [[g|e] w2] eqn:Hrest;
        intros [= <- <-]; (eapply only_created_trans; [exact H1|by eapply IH]).
  - intros [= <- <-]. by eapply quiet_Cluster_load_all.
Qed.

(** X22: the three reads of the catalog, [get], [filter] and [list_all],
    never delete an entry of the disk and never change what a file holds,
    whether they return or raise; all they can do to the disk is create
    empty folders and files. *)
Theorem Catalog_reads_keep_the_disk self model w :
  (∀ key cluster r w',
     Catalog_get self model key cluster w = (r, w') → only_created w w')
  ∧ (∀ key_start key_end cluster r w',
       Catalog_filter self model key_start key_end cluster w = (r, w') →
       only_created w w')
  ∧ (∀ r w', Catalog_list_all self model w = (r, w') → only_created w w').
Proof.
  split_and!.
  - intros key cluster r w'. rewrite Catalog_get_loop. revert r w'.
    generalize w. change (quiet (d ← Catalog_cluster_data self model cluster;
                                 lift (get_loop model key d))).
    apply quiet_bind; [apply quiet_Catalog_cluster_data|].
    intros d w0 r w' [= <- <-]. apply only_created_refl.
  - intros a b cluster r w'. rewrite Catalog_filter_loop. revert r w'.
    generalize w. change (quiet (d ← Catalog_cluster_data self model cluster;
                                 mret (filter_loop model a b d))).
    apply quiet_bind; [apply quiet_Catalog_cluster_data|].
    intros d. apply quiet_ret.
  - revert w. change (quiet (Catalog_list_all self model)).
    unfold Catalog_list_all, Catalog_find_model_collection.
    apply quiet_bind.
    { apply quiet_bind; [|intros table; apply quiet_find_model_loop].
      intros w r w' [= <- <-]. apply only_created_refl. }
    intros [c|]; (apply quiet_bind; [|intros cr; apply quiet_bind]).
    + unfold clusters_of, Collection_clusters.
      apply quiet_bind; [apply quiet_deref|]. intros []. apply quiet_ret.
    + unfold Registry_iter. apply quiet_bind; [|intros d; apply quiet_ret].
      cbn [Registry_resources]. apply quiet_bind; [apply quiet_deref|].
      intros []. apply quiet_ret.
    + intros cls. apply quiet_list_all_loop.
    + apply quiet_raise.
    + unfold Registry_iter. apply quiet_bind; [|intros d; apply quiet_ret].
      cbn [Registry_resources]. apply quiet_bind; [apply quiet_deref|].
      intros []. apply quiet_ret.
    + intros cls. apply quiet_list_all_loop.
Qed.

End MoreProperties.

Lemma SourceFile_name_filename_path_witness :
  ∃ sf1 sf2,
    SourceFile_name sf1 = "currency_holidays"
    ∧ SourceFile_filename sf1 = "currency-holidays.csv"
    ∧ SourceFile_path sf1 = ["data"; "currency-holidays.csv"]
    ∧ SourceFile_path sf1 = SourceFile_path sf2.
Proof.
  pose proof (SourceFile_name_filename_path
    (PyStr "data") (PyPath ["data"]) "currency-holidays" "currency_holidays"
    (PyModelClass CurrencyHoliday) (PyModelClass CurrencyHoliday)
    {| _name := "currency-holidays"; _root := ["data"]; _model := CurrencyHoliday |}
    {| _name := "currency_holidays"; _root := ["data"]; _model := CurrencyHoliday |}
    eq_refl eq_refl) as (Hname & Hfile & Hpath).
  eexists _, _. split_and!.
  - exact Hname.
  - exact Hfile.
  - reflexivity.
  - apply Hpath; reflexivity.
Defined.

Lemma load_all_last_write_wins_witness :
  ∃ w2 mapping,
    Cluster_load_all 0 w2 = (Ok mapping, w2)
    ∧ entries_for (Some "USD") mapping = [(Some "USD", eur)].
Proof.
  pose (w1 := (Cluster_append 0 (Some "USD") usd cluster_world).2).
  pose (w2 := (Cluster_append 0 (Some "USD") eur w1).2).
  destruct (load_all_last_write_wins (H := sample) 0 (Some "USD") usd eur cluster_world w1 w2)
    as (loc & lines & mapping & _ & _ & _ & Hload & _ & _ & _ & Hone).
  - vm_compute. reflexivity.
  - vm_compute. reflexivity.
  - exists w2, mapping. split; [exact Hload | exact Hone].
Defined.

Lemma Catalog_get_first_match_witness :
  Catalog_get sample_catalog Currency (Some "USD") None currencies_world
  = (Ok (Some usd), currencies_world)
  ∧ Catalog_get sample_catalog Currency (Some "GBP") None currencies_world
  = (Ok None, currencies_world).
Proof.
  assert (Hd : Catalog_cluster_data sample_catalog Currency None currencies_world
               = (Ok [(Some "USD", usd); (Some "EUR", eur)], currencies_world))
    by (vm_compute; reflexivity).
  split.
  - apply (proj1 (Catalog_get_first_match (H := sample) _ _ (Some "USD") _ _ _ _ Hd)
             0 usd).
    + reflexivity.
    + intros j entry _ Hj. lia.
  - apply (proj1 (proj2
             (Catalog_get_first_match (H := sample) _ _ (Some "GBP") _ _ _ _ Hd))).
    intros entry Hin.
    apply elem_of_cons in Hin as [->|Hin]; [done|].
    apply list_elem_of_singleton in Hin as ->. done.
Defined.

Lemma Catalog_filter_string_range_witness :
  Catalog_filter sample_catalog MarketHoliday "2023-01-01" "2023-06-30"
    (Some "US.NYSE") dated_holidays_world
  = (Ok ([nyse_new_year], None), dated_holidays_world).
Proof.
  assert (Hd : Catalog_cluster_data sample_catalog MarketHoliday (Some "US.NYSE")
                 dated_holidays_world
               = (Ok [(Some "2023-01-02", nyse_new_year);
                      (Some "2023-12-25", nyse_christmas)], dated_holidays_world))
    by (vm_compute; reflexivity).
  exact (proj1 (Catalog_filter_string_range (H := sample) _ _
                  "2023-01-01" "2023-06-30" _ _ _ _ Hd eq_refl)).
Defined.

(** C3, as stated, fails: the cluster holds a record under the key
    "2023-12-25", within the bounds, which [filter] does not yield; it
    raises at the keyless record that precedes it. *)
Lemma Catalog_filter_null_key_counterexample :
  ∃ d,
    Catalog_cluster_data sample_catalog MarketHoliday (Some "US.NYSE") holidays_world
    = (Ok d, holidays_world)
    ∧ (Some "2023-12-25", nyse_christmas) ∈ d
    ∧ in_range "2023-01-01" "2023-12-31" "2023-12-25" = true
    ∧ Catalog_filter sample_catalog MarketHoliday "2023-01-01" "2023-12-31"
        (Some "US.NYSE") holidays_world
      = (Ok ([], Some (TypeError
           "'>=' not supported between instances of 'NoneType' and 'str'")),
         holidays_world)
    ∧ Catalog_filter sample_catalog MarketHoliday "2023-01-01" "2023-12-31"
        (Some "US.NYSE") holidays_world
      ≠ (Ok (decode_all MarketHoliday
               (range_records "2023-01-01" "2023-12-31" d)), holidays_world).
Proof.
  exists [(None, nyse_new_year); (Some "2023-01-02", nyse_new_year);
          (Some "2023-12-25", nyse_christmas)].
  split_and!.
  - vm_compute. reflexivity.
  - rewrite !elem_of_cons. auto.
  - reflexivity.
  - vm_compute. reflexivity.
  - vm_compute. discriminate.
Qed.

Lemma Registry_get_memoizes_witness :
  ∃ w1,
    ClusterRegistry_get 0 "us east" registry_world = (Ok 0, w1)
    ∧ cluster_registries (heap w1)
      = [ClusterRegistryObj [("us-east", 0)] ["store_dir"]]
    ∧ clusters (heap w1) = [ClusterObj ["store_dir"; "us-east.dat"]]
    ∧ ClusterRegistry_get 0 "us-east" w1 = (Ok 0, w1).
Proof.
  pose (w1 := (ClusterRegistry_get 0 "us east" registry_world).2).
  assert (Hget : ClusterRegistry_get 0 "us east" registry_world = (Ok 0, w1))
    by (vm_compute; reflexivity).
  exists w1. split_and!.
  - exact Hget.
  - vm_compute. reflexivity.
  - vm_compute. reflexivity.
  - exact (proj1 (proj2 (proj2 (proj2
      (Registry_get_memoizes (H := sample) ClusterRegistryClass
         ClusterRegistry_create
         0 "us east" "us-east" registry_world 0 w1 eq_refl Hget))))).
Defined.

Lemma known_files_per_module_witness :
  ∃ w,
    import_catalog empty_world = (Ok tt, w)
    ∧ dict_keys (known_files store_py w)
      = ["currencies"; "currency_holidays"; "markets"; "holidays"; "schedules"]
    ∧ dict_keys (known_files catalog_py w) = dict_keys (known_files store_py w).
Proof.
  destruct (known_files_per_module (H := sample)
              (plain_newer_store ["remote"]) empty_world eq_refl eq_refl)
    as (_ & w & Himport & _ & _ & Htables & _).
  exists w. split; [exact Himport|]. rewrite !Htables. split; reflexivity.
Defined.

(** C7, as stated, fails: after the import there are two tables; the
    class [CurrencyFile] of [catalog.py] is registered, yet the table that
    [Store.ingest_all] runs over does not hold it under any name, and the
    two tables differ. *)
Lemma known_files_single_table_counterexample :
  let cls := derive (DeclaredFile catalog_py) CurrencyFile_body in
  import_catalog empty_world = (Ok tt, imported_world)
  ∧ dict_get "currencies" (known_files catalog_py imported_world) = Some cls
  ∧ (∀ self data_folder,
       Store_ingest_all self data_folder imported_world
       = Store_ingest_table (known_files store_py imported_world)
           self data_folder imported_world)
  ∧ ¬ (∃ name, dict_get name (known_files store_py imported_world) = Some cls)
  ∧ known_files store_py imported_world ≠ known_files catalog_py imported_world.
Proof.
  intros cls. split_and!.
  - vm_compute. reflexivity.
  - vm_compute. reflexivity.
  - reflexivity.
  - intros (name & Hin%dict_get_elem_of).
    assert (Hmod : Forall (λ entry, cls_module entry.2 = store_py)
                     (known_files store_py imported_world))
      by (repeat constructor).
    rewrite Forall_forall in Hmod. specialize (Hmod _ Hin). discriminate.
  - intros Heq.
    assert (Hmod : cls_module <$> dict_values (known_files store_py imported_world)
                   = cls_module <$> dict_values (known_files catalog_py imported_world))
      by by rewrite Heq.
    discriminate.
Qed.

Lemma fallback_clusters_witness :
  (∃ w' loc,
     Store_store_item sample_store eur "coll" None (Some "k") unique_world = (Ok tt, w')
     ∧ cluster_file w' sample_store "coll" "unique" = Some loc
     ∧ file_lines w' loc = Some [(Some "k", usd); (Some "k", eur)])
  ∧ Catalog_get sample_catalog Currency (Some "USD") None currencies_world
    = (Ok (Some usd), currencies_world).
Proof.
  destruct (fallback_clusters (H := sample) eq_refl eq_refl) as [Hwrite Hread].
  split.
  - pose (w' := (Store_store_item sample_store eur "coll" None (Some "k")
                   unique_world).2).
    assert (Hrun : Store_store_item sample_store eur "coll" None (Some "k")
                     unique_world = (Ok tt, w')) by (vm_compute; reflexivity).
    destruct (Hwrite _ _ _ _ _ _ Hrun) as (loc & Hfile & Hlines).
    exists w', loc. split_and!; [exact Hrun | exact Hfile |].
    assert (Hloc : loc = ["store_dir"; "coll"; "unique.dat"]).
    { assert (Hfile' : cluster_file w' sample_store "coll" "unique"
                       = Some ["store_dir"; "coll"; "unique.dat"])
        by (vm_compute; reflexivity).
      change (slugify "coll") with "coll" in Hfile. congruence. }
    rewrite Hlines, Hloc. vm_compute. reflexivity.
  - assert (Hd : Catalog_cluster_data sample_catalog Currency None currencies_world
                 = (Ok [(Some "USD", usd); (Some "EUR", eur)], currencies_world))
      by (vm_compute; reflexivity).
    destruct (Hread _ _ _ _ _ Hd) as (_ & Hget & _).
    rewrite Hget. reflexivity.
Defined.

Lemma ingest_all_aborts_without_rollback_witness :
  Store_ingest_all sample_store ["data"] setup_world
  = (Raise (SourceError "currency-holidays.csv"), holiday_stored_world)
  ∧ file_lines holiday_stored_world ["store_dir"; "currencies"; "unique.dat"]
    = Some [(Some "USD", usd); (Some "EUR", eur)]
  ∧ file_lines holiday_stored_world ["store_dir"; "currency_holidays"; "USD.dat"]
    = Some [(Some "2023-01-02", usd_new_year)]
  ∧ files_grow setup_world holiday_stored_world.
Proof.
  destruct (ingest_all_aborts_without_rollback (H := sample)
    sample_store ["data"] setup_world
    [("currencies", derive (DeclaredFile store_py) CurrencyFile_body)]
    "currency_holidays" (derive (DeclaredFile store_py) CurrencyHolidayFile_body)
    [("markets", derive (DeclaredFile store_py) MarketFile_body);
     ("holidays", derive (DeclaredFile store_py) MarketHolidayFile_body);
     ("schedules", derive (DeclaredFile store_py) ScheduleFile_body)]
    currencies_ingested_world sample_holiday_source [usd_new_year]
    (SourceError "currency-holidays.csv")
    currencies_ingested_world holiday_stored_world)
    as (Hraise & _ & _ & Hgrow).
  - vm_compute. reflexivity.
  - vm_compute. reflexivity.
  - vm_compute. reflexivity.
  - vm_compute. reflexivity.
  - vm_compute. reflexivity.
  - vm_compute. reflexivity.
  - split_and!; [exact Hraise | vm_compute; reflexivity | vm_compute; reflexivity |].
    apply Hgrow. repeat constructor.
Defined.

Lemma Collection_clear_resets_witness :
  ∃ w1 fresh cl w2,
    file_lines schedules_world ["store_dir"; "schedules"; "US.NYSE.dat"]
    = Some [(None, nyse_new_year)]
    ∧ Collection_clear 0 schedules_world = (Ok tt, w1)
    ∧ collection_clusters_of w1 0 = Some fresh
    ∧ ClusterRegistry_get fresh "US.NYSE" w1 = (Ok cl, w2)
    ∧ file_lines w2 ["store_dir"; "schedules"; "US.NYSE.dat"] = Some [].
Proof.
  pose (w1 := (Collection_clear 0 schedules_world).2).
  assert (Hclear : Collection_clear 0 schedules_world = (Ok tt, w1))
    by (vm_compute; reflexivity).
  destruct (Collection_clear_resets (H := sample) 0 schedules_world w1 Hclear)
    as (folder & cr & d & fresh & Hfolder & Hcr & Hd & _ & _ & Hfresh & _ & _ & Hget).
  assert (folder = ["store_dir"; "schedules"]) as ->
    by (vm_compute in Hfolder; congruence).
  assert (cr = 0) as -> by (vm_compute in Hcr; congruence).
  assert (d = [("US.NYSE", 0)]) as -> by (vm_compute in Hd; congruence).
  assert (fresh = 1) as -> by (vm_compute in Hfresh; congruence).
  pose (w2 := (ClusterRegistry_get 1 "US.NYSE" w1).2).
  assert (Hrun : ClusterRegistry_get 1 "US.NYSE" w1 = (Ok 1, w2))
    by (vm_compute; reflexivity).
  destruct (Hget "US.NYSE" 1 w2 Hrun) as (_ & _ & _ & Hempty & _).
  exists w1, 1, 1, w2. split_and!.
  - vm_compute. reflexivity.
  - exact Hclear.
  - exact Hfresh.
  - exact Hrun.
  - apply (Hempty 0); vm_compute; reflexivity.
Defined.

(** C6, as stated, fails: the collection is cleared, and the cluster that
    [clusters.get] then creates for "US.NYSE" loads the record written
    before the clear. *)
Lemma Collection_clear_residue_counterexample :
  ∃ w',
    clear_then_load residue_world = (Ok [(None, nyse_new_year)], w')
    ∧ file_lines w' ["store_dir"; "schedules"; "US.NYSE.dat"]
      = Some [(None, nyse_new_year)]
    ∧ file_lines w' ["store_dir"; "schedules"; "US.NYSE.dat"] ≠ Some [].
Proof.
  exists (clear_then_load residue_world).2. split_and!.
  - vm_compute. reflexivity.
  - vm_compute. reflexivity.
  - vm_compute. discriminate.
Qed.


Lemma Cluster_touch_keeps_content_witness :
  ∃ w1,
    Cluster_touch 0 new_cluster_world = (Ok tt, w1)
    ∧ file_lines w1 ["store_dir"; "currencies"; "unique.dat"] = Some []
    ∧ Cluster_touch 0 w1 = (Ok tt, w1).
Proof.
  pose (w1 := (Cluster_touch 0 new_cluster_world).2).
  destruct (Cluster_touch_keeps_content (H := sample) 0
              ["store_dir"; "currencies"; "unique.dat"] new_cluster_world w1)
    as (_ & Hnew & _ & _ & Hagain).
  - vm_compute. reflexivity.
  - vm_compute. reflexivity.
  - exists w1. split_and!.
    + vm_compute. reflexivity.
    + apply Hnew. vm_compute. reflexivity.
    + exact Hagain.
Defined.

Lemma Cluster_delete_idempotent_witness :
  ∃ w1 w2,
    Cluster_delete 0 cluster_world = (Ok tt, w1)
    ∧ node_at w1 ["store_dir"; "currencies"; "unique.dat"] = None
    ∧ Cluster_delete 0 w1 = (Ok tt, w1)
    ∧ Cluster_touch 0 w1 = (Ok tt, w2)
    ∧ file_lines w2 ["store_dir"; "currencies"; "unique.dat"] = Some [].
Proof.
  pose (w1 := (Cluster_delete 0 cluster_world).2).
  destruct (Cluster_delete_idempotent (H := sample) 0
              ["store_dir"; "currencies"; "unique.dat"] cluster_world w1)
    as (Hgone & _ & _ & Hagain & w2 & Htouch & Hempty).
  - vm_compute. reflexivity.
  - vm_compute. reflexivity.
  - vm_compute. reflexivity.
  - exists w1, w2. split_and!; [vm_compute; reflexivity | done..].
Defined.

Lemma Cluster_append_in_order_witness :
  ∃ w',
    Cluster_append_all 0 [(Some "EUR", eur); (None, usd)] cluster_world = (Ok tt, w')
    ∧ file_lines w' ["store_dir"; "currencies"; "unique.dat"]
      = Some [(Some "USD", usd_new_year); (Some "EUR", eur); (None, usd)].
Proof.
  destruct (Cluster_append_in_order (H := sample) 0
              ["store_dir"; "currencies"; "unique.dat"]
              [(Some "USD", usd_new_year)] [(Some "EUR", eur); (None, usd)]
              cluster_world)
    as (w' & Hrun & Hlines & _).
  - vm_compute. reflexivity.
  - vm_compute. reflexivity.
  - exists w'. split; [exact Hrun | exact Hlines].
Defined.


Lemma Store_store_item_appends_only_witness :
  Store_store_item sample_store usd "coll" None (Some "k") setup_world
  = (Ok tt, unique_world)
  ∧ files_grow setup_world unique_world
  ∧ heap_keeps setup_world unique_world.
Proof.
  assert (Hrun : Store_store_item sample_store usd "coll" None (Some "k") setup_world
                 = (Ok tt, unique_world)) by (vm_compute; reflexivity).
  destruct (Store_store_item_appends_only (H := sample) sample_store usd "coll"
              None (Some "k") setup_world unique_world Hrun)
    as (Hgrow & _ & _ & _ & Hkeeps & _).
  split_and!; [exact Hrun | exact Hgrow | exact Hkeeps].
Defined.

Lemma Store_store_item_twice_witness :
  ∃ w2,
    Store_store_item sample_store usd "coll" None (Some "k") unique_world
    = (Ok tt, w2)
    ∧ file_lines w2 ["store_dir"; "coll"; "unique.dat"]
      = Some [(Some "k", usd); (Some "k", usd)].
Proof.
  pose (w2 := (Store_store_item sample_store usd "coll" None (Some "k")
                 unique_world).2).
  assert (Hsecond : Store_store_item sample_store usd "coll" None (Some "k")
                      unique_world = (Ok tt, w2)) by (vm_compute; reflexivity).
  destruct (Store_store_item_twice (H := sample) sample_store usd usd "coll" None
              (Some "k") (Some "k") setup_world unique_world w2)
    as (loc & Hloc1 & _ & Hlines).
  - vm_compute. reflexivity.
  - exact Hsecond.
  - assert (loc = ["store_dir"; "coll"; "unique.dat"]) as ->
      by (vm_compute in Hloc1; congruence).
    exists w2. split; [exact Hsecond | exact Hlines].
Defined.

Lemma store_layout_invariant_witness :
  store_layout unique_world sample_store
  ∧ cluster_file unique_world sample_store "coll" "unique"
    = Some ["store_dir"; "coll"; "unique.dat"].
Proof.
  destruct (store_layout_invariant (H := sample)) as (Hnew & Hitem & _ & _).
  pose (w0 := (Store_new ["store_dir"] empty_world).2).
  assert (H0 : store_layout w0 sample_store)
    by (apply (Hnew ["store_dir"] empty_world); vm_compute; reflexivity).
  pose (w1 := (Store_touch sample_store w0).2).
  split.
  - apply (Hitem sample_store sample_store usd "coll" None (Some "k") setup_world).
    + destruct H0 as (root & colls & dcoll & Hst & Hcolls & Hentries).
      vm_compute in Hst. injection Hst as <- <-.
      vm_compute in Hcolls. injection Hcolls as <-.
      exists ["store_dir"], 0, []. split_and!; [vm_compute; reflexivity..|done].
    + vm_compute. reflexivity.
  - vm_compute. reflexivity.
Defined.

Lemma Catalog_undeclared_model_witness :
  Catalog_get sample_catalog (UserModel "Season") (Some "2023") None setup_world
  = (Raise (AttributeError "clusters"), setup_world)
  ∧ Catalog_list_all sample_catalog (UserModel "Season") setup_world
    = (Raise (AttributeError "clusters"), setup_world).
Proof.
  destruct (Catalog_undeclared_model (H := sample) sample_catalog
              (UserModel "Season") setup_world) as (_ & Hget & _ & Hlist).
  - unfold model_undeclared, setup_world. simpl.
    repeat (constructor; [discriminate|]). constructor.
  - split; [apply Hget | exact Hlist].
Defined.

Lemma Catalog_list_all_registered_witness :
  Catalog_list_all sample_catalog Currency currencies_world
  = (Ok ([usd; eur], None), currencies_world).
Proof.
  rewrite (Catalog_list_all_registered (H := sample) sample_catalog Currency 0
             currencies_world currencies_world 0 [("default", 0)]).
  - vm_compute. reflexivity.
  - vm_compute. reflexivity.
  - vm_compute. reflexivity.
  - vm_compute. reflexivity.
  - intros cl Hin. apply list_elem_of_singleton in Hin as ->.
    exists ["store_dir"; "currencies"; "default.dat"],
      [(Some "USD", usd); (Some "EUR", eur); (Some "USD", usd)].
    split; vm_compute; reflexivity.
Defined.

Lemma Catalog_list_all_new_collection_witness :
  ∃ w1,
    file_lines reopened_world ["store_dir"; "currencies"; "default.dat"]
    = Some [(Some "USD", usd)]
    ∧ Catalog_list_all sample_catalog Currency reopened_world = (Ok ([], None), w1).
Proof.
  pose (w1 := (Catalog_find_model_collection sample_catalog Currency
                 reopened_world).2).
  destruct (Catalog_list_all_new_collection (H := sample) sample_catalog
              sample_store Currency 0 reopened_world w1) as [Hlist _].
  - vm_compute. reflexivity.
  - exists ["store_dir"], 0, []. split_and!; [vm_compute; reflexivity..|done].
  - vm_compute. reflexivity.
  - vm_compute. reflexivity.
  - exists w1. split; [vm_compute; reflexivity | exact Hlist].
Defined.

Lemma Catalog_filter_keyless_record_witness :
  Catalog_filter sample_catalog MarketHoliday "2023-01-01" "2023-12-31"
    (Some "US.NYSE") late_keyless_world
  = (Ok ([nyse_new_year],
         Some (TypeError
                 "'>=' not supported between instances of 'NoneType' and 'str'")),
     late_keyless_world).
Proof.
  rewrite (Catalog_filter_keyless_record (H := sample) sample_catalog MarketHoliday
             "2023-01-01" "2023-12-31" (Some "US.NYSE") late_keyless_world
             [(Some "2023-01-02", nyse_new_year)] nyse_new_year
             [(Some "2023-12-25", nyse_christmas)] late_keyless_world).
  - vm_compute. reflexivity.
  - vm_compute. reflexivity.
  - vm_compute. reflexivity.
Defined.

Lemma Catalog_filter_equal_bounds_is_get_witness :
  Catalog_get sample_catalog Currency (Some "USD") None currencies_world
  = (Ok (Some usd), currencies_world)
  ∧ Catalog_filter sample_catalog Currency "USD" "USD" None currencies_world
    = (Ok ([usd], None), currencies_world).
Proof.
  destruct (Catalog_filter_equal_bounds_is_get (H := sample) sample_catalog
              Currency "USD" None currencies_world
              [(Some "USD", usd); (Some "EUR", eur)] currencies_world)
    as (result & Hget & Hfilter).
  - vm_compute. reflexivity.
  - vm_compute. reflexivity.
  - assert (result = Ok (Some usd)) as ->.
    { assert (Hrun : Catalog_get sample_catalog Currency (Some "USD") None
                       currencies_world = (Ok (Some usd), currencies_world))
        by (vm_compute; reflexivity).
      rewrite Hrun in Hget. by injection Hget as <-. }
    split; [exact Hget | exact Hfilter].
Defined.

Lemma Store_store_item_then_get_witness :
  ∃ w1,
    Store_store_item sample_store eur "currencies" (Some "default") (Some "EUR")
      setup_world = (Ok tt, w1)
    ∧ Catalog_get sample_catalog Currency (Some "EUR") (Some "default") w1
      = (Ok (Some eur), w1).
Proof.
  pose (w1 := (Store_store_item sample_store eur "currencies" (Some "default")
                 (Some "EUR") setup_world).2).
  assert (Hstore : Store_store_item sample_store eur "currencies" (Some "default")
                     (Some "EUR") setup_world = (Ok tt, w1))
    by (vm_compute; reflexivity).
  exists w1. split; [exact Hstore|].
  apply (Store_store_item_then_get (H := sample) sample_catalog sample_store eur
           "currencies" Currency "default" (Some "EUR") []
           (derive (DeclaredFile catalog_py) CurrencyFile_body)
           (tail (known_files catalog_py setup_world)) setup_world w1).
  - vm_compute. reflexivity.
  - vm_compute. reflexivity.
  - constructor.
  - reflexivity.
  - discriminate.
  - exact Hstore.
Defined.

Lemma known_files_entries_instantiate_witness :
  ∃ source,
    DeclaredFile_init (derive (DeclaredFile store_py) ScheduleFile_body)
      (PyPath ["data"]) imported_world = (Ok source, imported_world)
    ∧ DeclaredFile_name source = "schedules".
Proof.
  destruct (known_files_entries_instantiate (H := sample))
    as (Hempty & _ & Himport & Hinit).
  assert (Hok : tables_ok imported_world).
  { apply (Himport empty_world (Ok tt)); [by apply Hempty|].
    vm_compute. reflexivity. }
  destruct (Hinit imported_world store_py "schedules"
              (derive (DeclaredFile store_py) ScheduleFile_body) ["data"] Hok)
    as (source & Hrun & _ & Hname & _).
  - apply dict_get_elem_of. vm_compute. reflexivity.
  - exists source. split; [exact Hrun | exact Hname].
Defined.

Lemma Catalog_reads_only_create_witness :
  ∃ w',
    node_at setup_world ["store_dir"; "currencies"; "typo.dat"] = None
    ∧ Catalog_get sample_catalog Currency (Some "USD") (Some "typo") setup_world
      = (Ok None, w')
    ∧ file_lines w' ["store_dir"; "currencies"; "typo.dat"] = Some [].
Proof.
  pose (w' := (Catalog_cluster_data sample_catalog Currency (Some "typo")
                 setup_world).2).
  destruct (Catalog_reads_only_create (H := sample) sample_catalog Currency
              (Some "typo") setup_world [] w')
    as (_ & _ & name & cls & store & loc & Hin & Hm & Hcat & Hfile & _ & _ & Hnew).
  - vm_compute. reflexivity.
  - assert (store = sample_store) as ->
      by (vm_compute in Hcat; by injection Hcat as <-).
    assert (name = "currencies") as ->.
    { unfold setup_world in Hin. simpl in Hin.
      apply elem_of_cons in Hin as [[= -> ->]|Hin]; [done|].
      repeat (apply elem_of_cons in Hin as [[= -> ->]|Hin];
              [simpl in Hm; discriminate Hm|]).
      by apply elem_of_nil in Hin. }
    assert (loc = ["store_dir"; "currencies"; "typo.dat"]) as ->
      by (vm_compute in Hfile; congruence).
    destruct Hnew as (Hempty & Hget & _); [vm_compute; reflexivity|].
    exists w'. split_and!; [vm_compute; reflexivity | apply Hget | exact Hempty].
Defined.

Lemma DeclaredFile_ingest_clears_first_witness :
  ∃ w1,
    file_lines schedules_world ["store_dir"; "schedules"; "US.NYSE.dat"]
    = Some [(None, nyse_new_year)]
    ∧ DeclaredFile_ingest sample_schedule_source sample_store schedules_world
      = (Ok tt, w1)
    ∧ node_at w1 ["store_dir"; "schedules"; "US.NYSE.dat"] = None.
Proof.
  pose (w1 := (Store_clear_collection sample_store "schedules" schedules_world).2).
  destruct (DeclaredFile_ingest_clears_first (H := sample) sample_schedule_source
              sample_store None schedules_world w1) as (Hrun & Hgone & _).
  - reflexivity.
  - reflexivity.
  - vm_compute. reflexivity.
  - exists w1. split_and!; [vm_compute; reflexivity | exact Hrun |].
    apply (Hgone "US.NYSE"). vm_compute. reflexivity.
Defined.

Lemma Store_clear_collection_twice_witness :
  ∃ w1 w2,
    Store_clear_collection sample_store "schedules" schedules_world = (Ok tt, w1)
    ∧ Store_clear_collection sample_store "schedules" w1 = (Ok tt, w2)
    ∧ fs w2 = fs w1.
Proof.
  pose (w1 := (Store_clear_collection sample_store "schedules" schedules_world).2).
  assert (Hfirst : Store_clear_collection sample_store "schedules" schedules_world
                   = (Ok tt, w1)) by (vm_compute; reflexivity).
  destruct (Store_clear_collection_twice (H := sample) sample_store "schedules"
              schedules_world w1 Hfirst) as (_ & w2 & Hsecond & Hfs & _).
  exists w1, w2. split_and!; [exact Hfirst | exact Hsecond | exact Hfs].
Defined.

Lemma Store_store_item_failure_writes_nothing_witness :
  ∃ w',
    Store_store_item 0 eur "currencies" None (Some "EUR") blocked_world
    = (Raise (FileExistsError ["store_dir"; "currencies"]), w')
    ∧ node_at w' ["store_dir"; "currencies"] = Some (File [(Some "USD", usd)]).
Proof.
  pose (w' := (Store_store_item 0 eur "currencies" None (Some "EUR")
                 blocked_world).2).
  assert (Hrun : Store_store_item 0 eur "currencies" None (Some "EUR") blocked_world
                 = (Raise (FileExistsError ["store_dir"; "currencies"]), w'))
    by (vm_compute; reflexivity).
  destruct (Store_store_item_failure_writes_nothing (H := sample) 0 eur
              "currencies" None (Some "EUR") blocked_world _ w' Hrun) as [Hkept _].
  exists w'. split; [exact Hrun|]. apply Hkept. vm_compute. reflexivity.
Defined.
